(** * omnilang: the f-string externalisation engine of [core/converter.py]

    A shallow embedding of the analyse / classify / transform / patch
    pipeline of [omnilang.core.converter], and the properties of it that
    the specification states.

    Layout: Python data and built-ins first, then the four components in
    dependency order (classifier, analyzer, transformer, patch engine),
    then worked inputs, then the theorems. *)

From Stdlib Require Import ZArith List Bool Lia String Ascii.
From Stdlib Require Import Strings.Byte.
From stdpp Require Import base list sorting gmap sets.

Open Scope Z_scope.

(** ** Python strings

    A Python [str] is a sequence of Unicode code points; a [bytes] object
    is a sequence of bytes. *)

Abbreviation pystr := (list Z) (only parsing).
Abbreviation pybytes := (list byte) (only parsing).

(** ASCII literals of the source are written [py "..."]. *)
Fixpoint py (s : string) : pystr :=
  match s with
  | EmptyString => []
  | String a r => Z.of_N (N_of_ascii a) :: py r
  end.

Definition str_eqb (a b : pystr) : bool := bool_decide (a = b).

(** [x in xs] for a list of strings. *)
Definition str_in (x : pystr) (xs : list pystr) : bool := existsb (str_eqb x) xs.

(** [c in s] for a single character [c]. *)
Definition char_in (c : Z) (s : pystr) : bool := existsb (Z.eqb c) s.

Fixpoint startswith (s p : pystr) : bool :=
  match p, s with
  | [], _ => true
  | _ :: _, [] => false
  | a :: p', b :: s' => (a =? b) && startswith s' p'
  end.

(** [p in s]: substring test. *)
Fixpoint contains (s p : pystr) : bool :=
  startswith s p ||
  match s with
  | [] => false
  | _ :: s' => contains s' p
  end.

(** Python indexing [l[i]]: negative indices count from the end, anything
    out of range raises [IndexError] (here [None]). *)
Definition py_getitem {A} (l : list A) (i : Z) : option A :=
  let n := Z.of_nat (length l) in
  if (0 <=? i) && (i <? n) then l !! Z.to_nat i
  else if (- n <=? i) && (i <? 0) then l !! Z.to_nat (i + n)
  else None.

(** Python slicing [l[a:b]] with integer bounds: negative bounds count
    from the end, bounds are clamped, an empty range gives the empty
    sequence. *)
Definition slice_bound (n i : Z) : Z :=
  if i <? 0 then Z.max 0 (i + n) else Z.min i n.

Definition py_slice {A} (l : list A) (a b : Z) : list A :=
  let n := Z.of_nat (length l) in
  let lo := slice_bound n a in
  let hi := slice_bound n b in
  take (Z.to_nat (hi - lo)) (drop (Z.to_nat lo) l).

(** ** The Unicode tables of the interpreter

    [str.lower], [str.isupper], [str.isdigit] and [str.isprintable] consult
    CPython's Unicode database.  The ASCII range is spelled out below; the
    classification of the code points above U+007F is taken as a
    parameter.  (The one contextual rule of [str.lower], the final form of
    the Greek capital sigma, is left to the table as well.) *)
Class UnicodeData := {
  lower_cp : Z -> pystr;
  lower_or_title_cp : Z -> bool;
  upper_cp : Z -> bool;
  digit_cp : Z -> bool;
  printable_cp : Z -> bool
}.

(** [str.isspace] for one code point: the complete list of CPython's
    [_PyUnicode_IsWhitespace]. *)
Definition isspace (c : Z) : bool :=
  ((9 <=? c) && (c <=? 13)) || ((28 <=? c) && (c <=? 32)) ||
  (c =? 0x85) || (c =? 0xA0) || (c =? 0x1680) ||
  ((0x2000 <=? c) && (c <=? 0x200A)) ||
  (c =? 0x2028) || (c =? 0x2029) || (c =? 0x202F) || (c =? 0x205F) ||
  (c =? 0x3000).

Definition is_ascii (c : Z) : bool := (0 <=? c) && (c <? 128).
Definition ascii_upper (c : Z) : bool := (65 <=? c) && (c <=? 90).
Definition ascii_lower (c : Z) : bool := (97 <=? c) && (c <=? 122).
Definition ascii_digit (c : Z) : bool := (48 <=? c) && (c <=? 57).

Section Builtins.
Context `{UnicodeData}.

Definition lower_char (c : Z) : pystr :=
  if ascii_upper c then [c + 32]
  else if is_ascii c then [c]
  else lower_cp c.

(** [s.lower()] *)
Definition lower (s : pystr) : pystr := concat (map lower_char s).

Definition char_islower (c : Z) : bool :=
  if is_ascii c then ascii_lower c else lower_or_title_cp c.
Definition char_isupper (c : Z) : bool :=
  if is_ascii c then ascii_upper c else upper_cp c.
Definition char_isdigit (c : Z) : bool :=
  if is_ascii c then ascii_digit c else digit_cp c.
Definition char_isprintable (c : Z) : bool :=
  if is_ascii c then (32 <=? c) && (c <? 127) else printable_cp c.

(** [s.isupper()]: no lowercase or titlecase character and at least one
    uppercase one. *)
Definition isupper (s : pystr) : bool :=
  forallb (fun c => negb (char_islower c)) s && existsb char_isupper s.

(** [s.isdigit()] *)
Definition isdigit (s : pystr) : bool :=
  match s with
  | [] => false
  | _ => forallb char_isdigit s
  end.
End Builtins.

Fixpoint lstrip_by (f : Z -> bool) (s : pystr) : pystr :=
  match s with
  | [] => []
  | c :: r => if f c then lstrip_by f r else s
  end.

Definition strip_by (f : Z -> bool) (s : pystr) : pystr :=
  rev (lstrip_by f (rev (lstrip_by f s))).

(** [s.strip()] and [s.strip(chars)] *)
Definition strip (s : pystr) : pystr := strip_by isspace s.
Definition strip_chars (chars s : pystr) : pystr :=
  strip_by (fun c => char_in c chars) s.

(** [s.split()]: maximal runs of non-whitespace characters.  [cur] holds
    the current run, reversed. *)
Fixpoint split_from (cur : pystr) (s : pystr) : list pystr :=
  match s with
  | [] => match cur with [] => [] | _ => [rev cur] end
  | c :: r =>
      if isspace c
      then match cur with
           | [] => split_from [] r
           | _ => rev cur :: split_from [] r
           end
      else split_from (c :: cur) r
  end.

Definition split (s : pystr) : list pystr := split_from [] s.

(** [str.splitlines()]: the line boundaries of [str], without the line
    ends; CR LF counts as one boundary. *)
Definition is_linebreak (c : Z) : bool :=
  ((10 <=? c) && (c <=? 13)) || ((28 <=? c) && (c <=? 30)) ||
  (c =? 0x85) || (c =? 0x2028) || (c =? 0x2029).

Fixpoint splitlines_from (cur : pystr) (s : pystr) : list pystr :=
  match s with
  | [] => match cur with [] => [] | _ => [rev cur] end
  | c :: r =>
      if is_linebreak c
      then match r with
           | c2 :: r2 =>
               if (c =? 13) && (c2 =? 10)
               then rev cur :: splitlines_from [] r2
               else rev cur :: splitlines_from [] r
           | [] => [rev cur]
           end
      else splitlines_from (c :: cur) r
  end.

Definition splitlines (s : pystr) : list pystr := splitlines_from [] s.

(** [len(set(s)) == 1]: the string is non-empty and all its characters are
    the same. *)
Definition single_char_set (s : pystr) : bool :=
  match s with
  | [] => false
  | c :: r => forallb (Z.eqb c) r
  end.

(** [sep.join(parts)] *)
Fixpoint join (sep : pystr) (parts : list pystr) : pystr :=
  match parts with
  | [] => []
  | [x] => x
  | x :: rest => x ++ sep ++ join sep rest
  end.

(** [s.replace(old, new)] for a one-character [old]. *)
Definition replace_char (old : Z) (new : pystr) (s : pystr) : pystr :=
  concat (map (fun c => if c =? old then new else [c]) s).

(** ** [repr] of a string and the reading of a string literal *)

Definition hex_digit (d : Z) : Z := if d <? 10 then 48 + d else 87 + d.

(** [n] lowercase hexadecimal digits of [v], most significant first. *)
Fixpoint hex_fixed (n : nat) (v : Z) : pystr :=
  match n with
  | O => []
  | S k => hex_fixed k (v / 16) ++ [hex_digit (v mod 16)]
  end.

Definition hex_escape (c : Z) : pystr :=
  if c <=? 0xff then py "\x" ++ hex_fixed 2 c
  else if c <=? 0xffff then py "\u" ++ hex_fixed 4 c
  else py "\U" ++ hex_fixed 8 c.

Section Repr.
Context `{UnicodeData}.

(** The quote [repr] chooses: a double quote when the string holds a
    single quote and no double quote, a single quote otherwise. *)
Definition repr_quote (s : pystr) : Z :=
  if char_in 39 s && negb (char_in 34 s) then 34 else 39.

Definition repr_char (q c : Z) : pystr :=
  if (c =? q) || (c =? 92) then [92; c]
  else if c =? 9 then py "\t"
  else if c =? 10 then py "\n"
  else if c =? 13 then py "\r"
  else if (c <? 32) || (c =? 127) then py "\x" ++ hex_fixed 2 c
  else if c <? 127 then [c]
  else if char_isprintable c then [c]
  else hex_escape c.

(** [repr(s)] for a [str] (CPython's [unicode_repr]). *)
Definition repr (s : pystr) : pystr :=
  let q := repr_quote s in
  q :: concat (map (repr_char q) s) ++ [q].
End Repr.

(** Reading a short string literal (one quote character on each side, no
    prefix), the form [repr] writes: the escape sequences of the language
    reference.  [\N{...}] needs the table of character names and is not
    read. *)
Inductive scan_state :=
| Normal
| Escape
| Hex (left : nat) (acc : Z)
| Oct (left : nat) (acc : Z).

Definition hex_value (c : Z) : option Z :=
  if ascii_digit c then Some (c - 48)
  else if (97 <=? c) && (c <=? 102) then Some (c - 87)
  else if (65 <=? c) && (c <=? 70) then Some (c - 55)
  else None.

Definition is_octal (c : Z) : bool := (48 <=? c) && (c <=? 55).

(** What a character does in the [Normal] state. *)
Inductive scan_act :=
| Close
| Bad
| Emit (c : Z)
| Enter (st : scan_state).

Definition normal_act (q c : Z) : scan_act :=
  if c =? q then Close
  else if c =? 92 then Enter Escape
  else if (c =? 10) || (c =? 13) then Bad
  else Emit c.

(** What the character after a backslash does; an unknown escape keeps
    the backslash. *)
Definition escape_act (c : Z) : option (pystr * scan_state) :=
  if c =? 10 then Some ([], Normal)
  else if (c =? 92) || (c =? 39) || (c =? 34) then Some ([c], Normal)
  else if c =? 97 then Some ([7], Normal)
  else if c =? 98 then Some ([8], Normal)
  else if c =? 102 then Some ([12], Normal)
  else if c =? 110 then Some ([10], Normal)
  else if c =? 114 then Some ([13], Normal)
  else if c =? 116 then Some ([9], Normal)
  else if c =? 118 then Some ([11], Normal)
  else if is_octal c then Some ([], Oct 2 (c - 48))
  else if c =? 120 then Some ([], Hex 2 0)
  else if c =? 117 then Some ([], Hex 4 0)
  else if c =? 85 then Some ([], Hex 8 0)
  else if c =? 78 then None
  else Some ([92; c], Normal).

Fixpoint scan_literal (q : Z) (st : scan_state) (s : pystr) : option pystr :=
  let normal c r :=
    match normal_act q c with
    | Close => match r with [] => Some [] | _ => None end
    | Bad => None
    | Emit x => cons x <$> scan_literal q Normal r
    | Enter st' => scan_literal q st' r
    end in
  match s with
  | [] => None
  | c :: r =>
      match st with
      | Normal => normal c r
      | Escape =>
          match escape_act c with
          | Some (out, st') => app out <$> scan_literal q st' r
          | None => None
          end
      | Hex (S k) acc =>
          match hex_value c with
          | Some d =>
              let v := acc * 16 + d in
              match k with
              | O => if v <=? 0x10FFFF
                     then cons v <$> scan_literal q Normal r
                     else None
              | S _ => scan_literal q (Hex k v) r
              end
          | None => None
          end
      | Hex O _ => None
      | Oct (S k) acc =>
          if is_octal c
          then let v := acc * 8 + (c - 48) in
               match k with
               | O => cons v <$> scan_literal q Normal r
               | S _ => scan_literal q (Oct k v) r
               end
          else cons acc <$> normal c r
      | Oct O acc => cons acc <$> normal c r
      end
  end.

Definition parse_str_literal (text : pystr) : option pystr :=
  match text with
  | q :: body =>
      if (q =? 39) || (q =? 34) then scan_literal q Normal body else None
  | [] => None
  end.

(** ** The syntax tree

    A tree as [ast.parse] returns it.  The node classes the engine tests
    for are spelled out; a node of any other class ([Module], [Expr],
    [Tuple], [BinOp], [keyword], ...) is [Other], with its child nodes in
    field order, its own text ([ast.unparse] of it, as a function of the
    unparser's backslash-avoiding mode) and its precedence level. *)

Record pos := Pos {
  lineno : Z;
  col_offset : Z;
  end_lineno : Z;
  end_col_offset : Z
}.

(** The value of a [Constant]: a string, or any other value, given by
    its [repr] and by whether it is an [int]. *)
Inductive constant :=
| CStr (s : pystr)
| CValue (text : pystr) (is_int : bool).

#[warnings="-register-all"]
Inductive node :=
| Name (p : pos) (id : pystr)
| Constant (p : pos) (value : constant) (kind_u : bool)
| Attribute (p : pos) (value : node) (attr : pystr)
| Call (p : pos) (func : node) (args : list node) (keywords : list node)
| JoinedStr (p : pos) (values : list node)
| FormattedValue (p : pos) (value : node) (conversion : Z)
    (format_spec : option node)
| Other (p : pos) (prec : Z) (text : bool -> option pystr)
    (fields : list node).

Definition node_pos (n : node) : pos :=
  match n with
  | Name p _ | Constant p _ _ | Attribute p _ _ | Call p _ _ _
  | JoinedStr p _ | FormattedValue p _ _ _ | Other p _ _ _ => p
  end.

(** [(node.lineno, node.col_offset)] *)
Definition location_key (p : pos) : Z * Z := (lineno p, col_offset p).

(** A [Module] has no position, and neither have the nodes the
    transformer builds, which are unparsed and never visited. *)
Definition no_pos : pos := Pos 0 0 0 0.

(** ** [ast.unparse] (CPython 3.11, [ast._Unparser]) *)

Definition PREC_TEST : Z := 4.
Definition PREC_OR : Z := 5.
Definition PREC_ATOM : Z := 18.

(** [f'!{chr(conversion)}'] when there is a conversion; [chr] raises
    outside the range of code points. *)
Definition conversion_suffix (conversion : Z) : option pystr :=
  if conversion =? -1 then Some []
  else if (0 <=? conversion) && (conversion <? 0x110000)
       then Some (py "!" ++ [conversion])
       else None.

Definition quote1 : pystr := [39].
Definition quote2 : pystr := [34].
Definition ALL_QUOTES : list pystr := [quote1; quote2; [34; 34; 34]; [39; 39; 39]].
Definition is_multi_quote (q : pystr) : bool := (length q =? 3)%nat.

(** [c.encode("unicode_escape")] for one character the helper escapes. *)
Definition unicode_escape (c : Z) : pystr :=
  if c =? 92 then [92; 92]
  else if c =? 9 then py "\t"
  else if c =? 10 then py "\n"
  else if c =? 13 then py "\r"
  else hex_escape c.

(** Stable sort of the quote kinds on the key [q[0] == last]. *)
Definition sort_quotes (last : Z) (qs : list pystr) : list pystr :=
  let hit q := match q with c :: _ => c =? last | [] => false end in
  filter (fun q => hit q = false) qs ++ filter (fun q => hit q = true) qs.

Section Unparse.
Context `{UnicodeData}.

(** [_str_literal_helper]; [None] is its failed assertion. *)
Definition str_literal_helper (s : pystr) (quote_types : list pystr)
    (escape_special_whitespace : bool) : option (pystr * list pystr) :=
  let escape_char c :=
    if negb escape_special_whitespace && ((c =? 10) || (c =? 9)) then [c]
    else if (c =? 92) || negb (char_isprintable c) then unicode_escape c
    else [c] in
  let escaped := concat (map escape_char s) in
  let possible :=
    if char_in 10 escaped then filter (fun q => is_multi_quote q = true) quote_types
    else quote_types in
  let possible := filter (fun q => contains escaped q = false) possible in
  match possible with
  | [] =>
      let r := repr s in
      let q0 := default 0 (head r) in
      let quote := default [q0] (head (filter (fun q => char_in q0 q = true) quote_types)) in
      Some (py_slice r 1 (-1), [quote])
  | _ =>
      match last escaped with
      | None => Some (escaped, possible)
      | Some l =>
          let possible := sort_quotes l possible in
          match possible with
          | (c :: _ as q) :: _ =>
              if c =? l
              then if is_multi_quote q
                   then Some (removelast escaped ++ [92; l], possible)
                   else None
              else Some (escaped, possible)
          | _ => Some (escaped, possible)
          end
      end
  end.

(** [_write_str_avoiding_backslashes] *)
Definition write_str_avoiding_backslashes (s : pystr) : option pystr :=
  '(s', qs) ← str_literal_helper s ALL_QUOTES false;
  q ← head qs;
  Some (q ++ s' ++ q).

(** [visit_Constant] *)
Definition write_constant (avoid : bool) (v : constant) (kind_u : bool)
    : option pystr :=
  match v with
  | CStr s =>
      t ← (if avoid then write_str_avoiding_backslashes s else Some (repr s));
      Some ((if kind_u then py "u" else []) ++ t)
  | CValue t _ => Some t
  end.

Definition is_int_constant (n : node) : bool :=
  match n with
  | Constant _ (CValue _ true) _ => true
  | _ => false
  end.

Definition is_constant (n : node) : bool :=
  match n with Constant _ _ _ => true | _ => false end.

(** The text between the braces of [visit_FormattedValue], from the
    unparsed expression and format specifier. *)
Definition formatted_value_text (expr : pystr) (conversion : Z)
    (spec : option pystr) : option pystr :=
  if char_in 92 expr then None
  else
    conv ← conversion_suffix conversion;
    Some (py "{" ++ (if startswith expr (py "{") then py " " else []) ++ expr
          ++ conv
          ++ match spec with Some t => py ":" ++ t | None => [] end
          ++ py "}").

(** The quoting loop of [visit_JoinedStr] over the buffered parts. *)
Fixpoint quote_parts (parts : list (pystr * bool)) (quote_types : list pystr)
    : option (list pystr * list pystr) :=
  match parts with
  | [] => Some ([], quote_types)
  | (v, is_const) :: rest =>
      '(v', qs) ← str_literal_helper v quote_types is_const;
      '(vs, qs') ← quote_parts rest qs;
      Some (v' :: vs, qs')
  end.

(** [unparse_at avoid ctx n]: what an unparser in mode [avoid] writes
    for [n] at precedence [ctx]; [fstring_inner] is
    [_write_fstring_inner].  [None] stands for a raised [ValueError]. *)
Fixpoint unparse_at (avoid : bool) (ctx : Z) (n : node) {struct n}
    : option pystr :=
  match n with
  | Name _ id => Some id
  | Constant _ v ku => write_constant avoid v ku
  | Attribute _ v a =>
      t ← unparse_at avoid PREC_ATOM v;
      Some (t ++ (if is_int_constant v then py " " else []) ++ py "." ++ a)
  | Call _ f args kws =>
      let each := fix each (l : list node) : option (list pystr) :=
        match l with
        | [] => Some []
        | x :: r => t ← unparse_at avoid PREC_TEST x; ts ← each r; Some (t :: ts)
        end in
      tf ← unparse_at avoid PREC_ATOM f;
      ta ← each args;
      tk ← each kws;
      Some (tf ++ py "(" ++ join (py ", ") (ta ++ tk) ++ py ")")
  | JoinedStr _ values =>
      let each := fix each (l : list node) : option (list (pystr * bool)) :=
        match l with
        | [] => Some []
        | x :: r => t ← fstring_inner x; ts ← each r; Some ((t, is_constant x) :: ts)
        end in
      parts ← each values;
      if avoid
      then t ← write_str_avoiding_backslashes (concat (map fst parts));
           Some (py "f" ++ t)
      else '(vs, qs) ← quote_parts parts ALL_QUOTES;
           q ← head qs;
           Some (py "f" ++ q ++ concat vs ++ q)
  | FormattedValue _ v conv spec =>
      expr ← unparse_at true PREC_OR v;
      match spec with
      | Some s => t ← fstring_inner s; formatted_value_text expr conv (Some t)
      | None => formatted_value_text expr conv None
      end
  | Other _ prec text _ =>
      t ← text avoid;
      Some (if prec <? ctx then py "(" ++ t ++ py ")" else t)
  end
with fstring_inner (n : node) {struct n} : option pystr :=
  match n with
  | JoinedStr _ values =>
      (fix each (l : list node) : option pystr :=
        match l with
        | [] => Some []
        | x :: r => t ← fstring_inner x; ts ← each r; Some (t ++ ts)
        end) values
  | Constant _ (CStr s) _ =>
      Some (replace_char 125 (py "}}") (replace_char 123 (py "{{") s))
  | FormattedValue _ v conv spec =>
      expr ← unparse_at true PREC_OR v;
      match spec with
      | Some s => t ← fstring_inner s; formatted_value_text expr conv (Some t)
      | None => formatted_value_text expr conv None
      end
  | _ => None
  end.

(** [ast.unparse(node)] *)
Definition unparse (n : node) : option pystr := unparse_at false PREC_TEST n.
End Unparse.

(** ** The string classifier: [FStringAnalyzer._is_user_facing_string] *)

Definition pure_formatting_patterns : list pystr :=
  [py "="; py "-"; [0x2500]; [0x2510]; [0x2518]; [0x250C]; [0x2514];
   [0x256D]; [0x256E]; [0x2570]; [0x256F];
   py "---"; py "----"; py "-----"; py "------";
   py "==="; py "===="; py "====="; py "======";
   py "___"; py "____"; py "_____"; py "______"].

Definition output_formatting : list pystr :=
  [py "--- stderr ---"; py "--- stdout ---"; py "--------------";
   py "--------------------------------"; py "========================";
   py "~~~~~~~~~~~~~~~~~~~~~~~~~~~~~~~~"].

(** The pictographs, as the code points of the source file; the warning
    sign carries its variation selector. *)
Definition single_emoji_formatting : list pystr :=
  [[0x1F525]; [0x1F30D]; [0x2705]; [0x26A0; 0xFE0F]; [0x1F527]; [0x1F680];
   [0x1F9F9]; [0x1F52C]; [0x1F3AF]; [0x1F4E6]; [0x1F50D]; [0x274C]].

Definition technical_patterns : list pystr :=
  [py ".py"; py ".json"; py ".dist-info"; py ".egg-info"; py ".lock"; py ".tmp";
   py "omnipkg:pkg:"; py "omnipkg:snapshot:"; py "bubble_version:"; py "active_version";
   py "import "; py "from "; py "def "; py "class "; py "try:"; py "except "; py "finally:";
   py "if "; py "else:"; py "elif "; py "for "; py "while "; py "return "; py "yield ";
   py "with "; py "as "; py "pass"; py "break"; py "continue"; py "raise "; py "assert ";
   py "lambda "; [102; 34]; py "f'"; py ".__"; py "sys.path"; py "os.environ"].

Definition user_emojis : list pystr :=
  [[0x2705]; [0x274C]; [0x26A0; 0xFE0F]; [0x1F50D]; [0x1F4E6]; [0x1F3AF];
   [0x1F527]; [0x1F9F9]; [0x1F680]; [0x1F52C]].

(** The argument of [word.strip(...)] in the meaningful-text test. *)
Definition emoji_strip_chars : pystr :=
  [0x1F525; 0x1F30D; 0x2705; 0x26A0; 0xFE0F; 0x1F527; 0x1F9F9; 0x1F680;
   0x1F52C; 0x1F3AF; 0x1F4E6; 0x1F50D; 0x274C].

Definition user_facing_patterns : list pystr :=
  [py "error"; py "warning"; py "success"; py "failed"; py "complete"; py "install";
   py "remove"; py "update"; py "found"; py "missing"; py "version"; py "package";
   py "dependency"; py "conflict"; py "press enter"; py "are you sure"; py "continue";
   py "cancel"; py "proceed"; py "select"; py "choice"; py "skipping"; py "restoring";
   py "clearing"; py "verification"; py "cleanup"; py "test"; py "switching"].

Definition py_nl : pystr := [10].

Definition nonempty (s : pystr) : bool :=
  match s with [] => false | _ => true end.

Section Classifier.
Context `{UnicodeData}.

Definition is_user_facing_string (content context : pystr) : bool :=
  let content_lower := lower content in
  let context_lower := lower (strip context) in
  let content_stripped := strip content in
  (* 1. pure formatting patterns *)
  if str_in content_stripped pure_formatting_patterns then false
  else if single_char_set content_stripped
          && char_in (default 0 (head content_stripped)) (py "=-_~") then false
  (* 2. common output formatting patterns *)
  else if str_in (strip content_lower) (map lower output_formatting) then false
  (* 3. standalone emoji fragments *)
  else
  let content_no_whitespace := concat (split content) in
  if str_in content_no_whitespace single_emoji_formatting
     || ((length content_no_whitespace <=? 3)%nat
         && forallb (fun c => char_in c (concat single_emoji_formatting))
              content_no_whitespace)
  then false
  (* 4. pure whitespace *)
  else if str_eqb (strip content) []
          || str_in content [py_nl; py_nl ++ py_nl; [9]; py " "] then false
  (* 5. technical patterns *)
  else if existsb (contains content_lower) technical_patterns then false
  (* 6. path-like strings *)
  else if (char_in 47 content || char_in 92 content) && negb (char_in 32 content)
  then false
  else
  (* accept 1: pictograph with text *)
  let has_emoji := existsb (contains content) user_emojis in
  let has_meaningful_text :=
    (0 <? length (filter (fun word => nonempty (strip_chars emoji_strip_chars word) = true)
                    (split content)))%nat in
  if has_emoji && has_meaningful_text then true
  (* accept 2: user-facing keywords *)
  else if (2 <? length (split content))%nat
          && existsb (contains content_lower) user_facing_patterns then true
  (* accept 3: print/input context *)
  else if existsb (startswith context_lower) [py "print("; py "input("; py "_("]
  then true
  else
  (* accept 4: sentences *)
  let words := split content in
  if (3 <=? length words)%nat
     && existsb (fun c => char_in c content) (py ".,!?:")
     && negb (forallb (fun word => isupper word || isdigit word) words)
  then true
  else false.
End Classifier.

(** ** The parser

    Decoding and parsing are the interpreter's; the engine calls them and
    the repository does not contain them.  [None] stands for the raised
    [UnicodeDecodeError] or [SyntaxError]. *)
Class Parser := {
  decode_utf8 : pybytes -> option pystr;
  ast_parse : pystr -> option node;
  ast_parse_expr : pystr -> option node
}.

(** ** The source analyzer: [FStringAnalyzer] *)

(** An entry of [strings_to_convert]: a dict with ['type'] either
    ['Constant'] or ['JoinedStr']. *)
Inductive candidate :=
| CandConstant (location : Z * Z) (original_line : pystr) (value : pystr)
| CandJoinedStr (location : Z * Z) (template : pystr)
    (variables : list pystr) (original_line : pystr).

Definition cand_location (c : candidate) : Z * Z :=
  match c with
  | CandConstant l _ _ | CandJoinedStr l _ _ _ => l
  end.

Definition is_literal_candidate (c : candidate) : bool :=
  match c with CandConstant _ _ _ => true | _ => false end.

Record analyzer := Analyzer {
  strings_to_convert : list candidate;
  translated_locations : gset (Z * Z)
}.

Definition new_analyzer : analyzer := Analyzer [] ∅.

(** Lines 72-80 of [visit_Call]: a call of [_], or an attribute of such a
    call, called. *)
Definition is_translation_call (func : node) : bool :=
  match func with
  | Name _ id => str_eqb id (py "_")
  | Attribute _ (Call _ (Name _ id) _ _) _ => str_eqb id (py "_")
  | _ => false
  end.

Definition user_facing_funcs : list pystr :=
  [py "print"; py "input"; py "echo"; py "prompt"].

Definition func_name (func : node) : pystr :=
  match func with
  | Name _ id => id
  | Attribute _ _ attr => attr
  | _ => []
  end.

Section Analyzer.
Context `{UnicodeData}.
Variable source_lines : list pystr.

(** The loop over [node.args] of a user-facing call. *)
Fixpoint scan_args (args : list node) (st : analyzer) : option analyzer :=
  match args with
  | [] => Some st
  | Constant p (CStr value) _ :: rest =>
      let key := location_key p in
      if bool_decide (key ∈ translated_locations st) then scan_args rest st
      else
        original_line ← py_getitem source_lines (lineno p - 1);
        if is_user_facing_string value original_line
        then scan_args rest
               (Analyzer
                  (strings_to_convert st ++ [CandConstant key (strip original_line) value])
                  ({[key]} ∪ translated_locations st))
        else scan_args rest st
  | _ :: rest => scan_args rest st
  end.

(** The placeholder of one [FormattedValue]. *)
Definition placeholder (conversion : Z) (format_spec : option node)
    : option pystr :=
  conv ← conversion_suffix conversion;
  spec ← match format_spec with
         | Some s => t ← unparse s; Some (py ":" ++ t)
         | None => Some []
         end;
  Some (py "{" ++ conv ++ spec ++ py "}").

(** The loop over [node.values]: [content_parts] and [variables].  A
    [Constant] part that is no string makes [''.join] raise. *)
Fixpoint joined_parts (values : list node) : option (list pystr * list pystr) :=
  match values with
  | [] => Some ([], [])
  | v :: rest =>
      '(part, vars) ←
        match v with
        | Constant _ (CStr s) _ => Some (s, [])
        | Constant _ (CValue _ _) _ => None
        | FormattedValue _ e conversion format_spec =>
            ph ← placeholder conversion format_spec;
            var ← unparse e;
            Some (ph, [var])
        | other => t ← unparse other; Some (t, [])
        end;
      '(parts, vars') ← joined_parts rest;
      Some (part :: parts, vars ++ vars')
  end.

Definition visit_JoinedStr (p : pos) (values : list node) (st : analyzer)
    : option analyzer :=
  let key := location_key p in
  if bool_decide (key ∈ translated_locations st) then Some st
  else
    '(content_parts, variables) ← joined_parts values;
    let template := concat content_parts in
    original_line ← py_getitem source_lines (lineno p - 1);
    if is_user_facing_string template original_line
    then Some (Analyzer
                 (strings_to_convert st
                    ++ [CandJoinedStr key template variables (strip original_line)])
                 (translated_locations st))
    else Some st.

(** [NodeVisitor.visit]: [visit_Call] and [visit_JoinedStr] where the
    class defines them, [generic_visit] elsewhere. *)
Fixpoint visit (n : node) (st : analyzer) {struct n} : option analyzer :=
  let visit_each := fix each (l : list node) (st : analyzer) : option analyzer :=
    match l with
    | [] => Some st
    | x :: r => st' ← visit x st; each r st'
    end in
  match n with
  | Call p func args keywords =>
      if is_translation_call func
      then Some (Analyzer (strings_to_convert st)
                   ({[location_key p]} ∪ translated_locations st))
      else
        st1 ← (if str_in (func_name func) user_facing_funcs
               then scan_args args st else Some st);
        st2 ← visit func st1;
        st3 ← visit_each args st2;
        visit_each keywords st3
  | JoinedStr p values => visit_JoinedStr p values st
  | Name _ _ | Constant _ _ _ => Some st
  | Attribute _ value _ => visit value st
  | FormattedValue _ value _ format_spec =>
      st1 ← visit value st;
      match format_spec with
      | Some s => visit s st1
      | None => Some st1
      end
  | Other _ _ _ fields => visit_each fields st
  end.
End Analyzer.

Section Transformer.
Context `{UnicodeData} `{Parser}.

(** [FStringAnalyzer(source_code).visit(tree)], then
    [strings_to_convert], as [analyze_file] returns it. *)
Definition analyze (source_code : pystr) (tree : node) : option (list candidate) :=
  st ← visit (splitlines source_code) tree new_analyzer;
  Some (strings_to_convert st).

(** ** The expression builder: [FStringTransformer] *)

(** An entry of [conversions_made]. *)
Record conversion := Conversion {
  start_line : Z;
  start_col : Z;
  end_line : Z;
  end_col : Z;
  original_text : pystr;
  replacement_text : pystr;
  conv_template : pystr;
  conv_variables : list pystr
}.

(** [{s['location']: s for s in strings_to_convert}] *)
Definition candidate_table (cands : list candidate) : gmap (Z * Z) candidate :=
  foldl (fun m c => <[cand_location c := c]> m) ∅ cands.

(** [_(<s>)] as a tree. *)
Definition translation_call (s : pystr) : node :=
  Call no_pos (Name no_pos (py "_")) [Constant no_pos (CStr s) false] [].

(** [target_info] and [new_node] for a node, when it is a target. *)
Definition new_node_for (table : gmap (Z * Z) candidate) (n : node)
    : option (option (candidate * node)) :=
  match n with
  | JoinedStr p _ =>
      match table !! location_key p with
      | Some (CandJoinedStr _ template variables _ as target_info) =>
          match variables with
          | [] => Some (Some (target_info, translation_call template))
          | _ =>
              format_args ← mapM ast_parse_expr variables;
              Some (Some (target_info,
                          Call no_pos
                            (Attribute no_pos (translation_call template) (py "format"))
                            format_args []))
          end
      | _ => Some None
      end
  | Constant p (CStr value) _ =>
      match table !! location_key p with
      | Some (CandConstant _ _ _ as target_info) =>
          Some (Some (target_info, translation_call value))
      | _ => Some None
      end
  | _ => Some None
  end.

Definition conversion_of (n : node) (target_info : candidate) (code : pystr)
    : conversion :=
  let p := node_pos n in
  match target_info with
  | CandConstant _ original_line _ =>
      Conversion (lineno p) (col_offset p) (end_lineno p) (end_col_offset p)
        original_line code [] []
  | CandJoinedStr _ template variables original_line =>
      Conversion (lineno p) (col_offset p) (end_lineno p) (end_col_offset p)
        original_line code template variables
  end.

(** The part of [generic_visit] after the children: the conversion the
    node adds to [conversions_made], if any. *)
Definition record_conversion (table : gmap (Z * Z) candidate) (n : node)
    : option (list conversion) :=
  target ← new_node_for table n;
  match target with
  | Some (target_info, new_node) =>
      replacement_code ← unparse new_node;
      Some [conversion_of n target_info replacement_code]
  | None => Some []
  end.

(** [FStringTransformer.generic_visit], for every node: the children
    first, then the node itself. *)
Fixpoint transform (table : gmap (Z * Z) candidate) (n : node)
    (made : list conversion) {struct n} : option (list conversion) :=
  let each := fix each (l : list node) (made : list conversion)
      : option (list conversion) :=
    match l with
    | [] => Some made
    | x :: r => made' ← transform table x made; each r made'
    end in
  made1 ←
    match n with
    | Name _ _ | Constant _ _ _ => Some made
    | Attribute _ value _ => transform table value made
    | Call _ func args keywords =>
        m1 ← transform table func made;
        m2 ← each args m1;
        each keywords m2
    | JoinedStr _ values => each values made
    | FormattedValue _ value _ format_spec =>
        m1 ← transform table value made;
        match format_spec with
        | Some s => transform table s m1
        | None => Some m1
        end
    | Other _ _ _ fields => each fields made
    end;
  new ← record_conversion table n;
  Some (made1 ++ new).
End Transformer.

(** ** The patch engine: [ASTFStringConverter.convert_file] *)

Definition byte_of_Z (z : Z) : byte := default x00 (Byte.of_N (Z.to_N z)).

(** [s.encode('utf-8')]; a surrogate makes it raise. *)
Definition utf8_encode_char (c : Z) : option (list Z) :=
  if c <? 0 then None
  else if c <? 0x80 then Some [c]
  else if c <? 0x800 then Some [0xC0 + c / 64; 0x80 + c mod 64]
  else if (0xD800 <=? c) && (c <=? 0xDFFF) then None
  else if c <? 0x10000
       then Some [0xE0 + c / 4096; 0x80 + (c / 64) mod 64; 0x80 + c mod 64]
  else if c <? 0x110000
       then Some [0xF0 + c / 262144; 0x80 + (c / 4096) mod 64;
                  0x80 + (c / 64) mod 64; 0x80 + c mod 64]
  else None.

Definition utf8_encode (s : pystr) : option pybytes :=
  chunks ← mapM utf8_encode_char s;
  Some (map byte_of_Z (concat chunks)).

Definition is_lf (b : byte) : bool := Byte.eqb b x0a.
Definition is_cr (b : byte) : bool := Byte.eqb b x0d.

(** [bytes.splitlines(keepends=True)]: lines end at LF, CR or CR LF and
    keep their line end.  [cur] holds the current line, reversed. *)
Fixpoint splitlines_keepends_from (cur : pybytes) (s : pybytes) : list pybytes :=
  match s with
  | [] => match cur with [] => [] | _ => [rev cur] end
  | c :: r =>
      if is_lf c then rev (c :: cur) :: splitlines_keepends_from [] r
      else if is_cr c
      then match r with
           | c2 :: r2 =>
               if is_lf c2
               then rev (c2 :: c :: cur) :: splitlines_keepends_from [] r2
               else rev (c :: cur) :: splitlines_keepends_from [] r
           | [] => [rev (c :: cur)]
           end
      else splitlines_keepends_from (c :: cur) r
  end.

Definition splitlines_keepends (s : pybytes) : list pybytes :=
  splitlines_keepends_from [] s.

(** The loop that builds [line_start_indices] after its first entry. *)
Fixpoint line_starts_from (current_pos : Z) (lines : list pybytes) : list Z :=
  match lines with
  | [] => []
  | line :: rest =>
      let current_pos := current_pos + Z.of_nat (length line) in
      current_pos :: line_starts_from current_pos rest
  end.

Definition line_start_indices (source_bytes : pybytes) : list Z :=
  0 :: line_starts_from 0 (splitlines_keepends source_bytes).

(** The sort key [(x['start_line'], x['start_col'])], compared as Python
    compares tuples. *)
Definition sort_key (c : conversion) : Z * Z := (start_line c, start_col c).

Definition key_lt (a b : Z * Z) : bool :=
  (a.1 <? b.1) || ((a.1 =? b.1) && (a.2 <? b.2)).

(** [sorted(..., key=..., reverse=True)]: descending and stable, entries
    with equal keys keep their order. *)
Fixpoint insert_desc (x : conversion) (l : list conversion) : list conversion :=
  match l with
  | [] => [x]
  | y :: r =>
      if key_lt (sort_key x) (sort_key y) then y :: insert_desc x r
      else x :: l
  end.

Definition sorted_reverse (l : list conversion) : list conversion :=
  foldr insert_desc [] l.

(** An entry of [all_conversions]. *)
Record ConversionResult := {
  file_path : pystr;
  line_number : Z;
  original_code : pystr;
  converted_code : pystr;
  fstring_content : pystr;
  variables_used : list pystr;
  confidence : pystr
}.

(** The local state of the replacement loop, with the entries the loop
    has appended to [self.all_conversions]. *)
Record patch_state := PatchState {
  new_source_parts : list pybytes;
  last_pos : Z;
  appended : list ConversionResult
}.

Section PatchLoop.
Variable path : pystr.
Variable source_bytes : pybytes.
Variable line_starts : list Z.

(** The absolute byte index of a (line, column) pair. *)
Definition byte_index (line col : Z) : option Z :=
  start ← py_getitem line_starts (line - 1);
  Some (start + col).

(** One iteration of [for rep in replacements]; [None] is a raised
    [IndexError] or [UnicodeEncodeError]. *)
Definition patch_step (rep : conversion) (st : patch_state) : option patch_state :=
  start_idx ← byte_index (start_line rep) (start_col rep);
  end_idx ← byte_index (end_line rep) (end_col rep);
  if last_pos st <=? start_idx then Some st
  else
    encoded ← utf8_encode (replacement_text rep);
    Some (PatchState
            (new_source_parts st
               ++ [py_slice source_bytes end_idx (last_pos st)] ++ [encoded])
            start_idx
            (appended st
               ++ [{| file_path := path;
                      line_number := start_line rep;
                      original_code := original_text rep;
                      converted_code := replacement_text rep;
                      fstring_content := conv_template rep;
                      variables_used := conv_variables rep;
                      confidence := py "high" |}])).

(** The loop; the flag tells whether it ran to its end.  An iteration
    that raises has not yet touched [self.all_conversions]. *)
Fixpoint patch_loop (replacements : list conversion) (st : patch_state)
    : patch_state * bool :=
  match replacements with
  | [] => (st, true)
  | rep :: rest =>
      match patch_step rep st with
      | Some st' => patch_loop rest st'
      | None => (st, false)
      end
  end.

(** [b"".join(reversed(new_source_parts))] after the prefix of the file
    has been appended. *)
Definition reassemble (st : patch_state) : pybytes :=
  concat (rev (new_source_parts st ++ [py_slice source_bytes 0 (last_pos st)])).
End PatchLoop.

(** Lines 501-553: from the file's bytes and [conversions_made] to
    [final_source_bytes], with what the loop appended to
    [self.all_conversions]. *)
Definition apply_replacements (path : pystr) (source_bytes : pybytes)
    (conversions_made : list conversion)
    : option pybytes * list ConversionResult :=
  let replacements := sorted_reverse conversions_made in
  let line_starts := line_start_indices source_bytes in
  let start := PatchState [] (Z.of_nat (length source_bytes)) [] in
  match patch_loop path source_bytes line_starts replacements start with
  | (st, true) => (Some (reassemble source_bytes st), appended st)
  | (st, false) => (None, appended st)
  end.

Record stats := Stats {
  files_scanned : Z;
  files_with_fstrings : Z;
  files_modified : Z;
  fstrings_found : Z;
  fstrings_converted : Z;
  backups_created : Z
}.

Record converter := Converter {
  dry_run : bool;
  backup : bool;
  cstats : stats;
  all_conversions : list ConversionResult
}.

(** Opening a file for writing and writing to it are the operating
    system's, and either can fail.  [open(path, 'wb')] empties the file
    before anything is written, so a write that breaks off leaves the
    bytes that got through. *)
Inductive write_result :=
| Written
| OpenRefused
| WriteBroken (written : nat).

(** What becomes of an attempt to write [data] to [path]. *)
Class Disk := {
  write_outcome : gmap pystr pybytes -> pystr -> pybytes -> write_result
}.

(** What [convert_file] prints. *)
Inductive message :=
| ErrorDecoding (path : pystr)
| ErrorConverting (path : pystr).

(** The result of a [convert_file] call: the returned flag, the converter
    and the files afterwards, what was printed, and the value of the
    local [final_source_bytes] when the call got that far. *)
Record convert_outcome := Outcome {
  returned : bool;
  self_after : converter;
  files_after : gmap pystr pybytes;
  printed : list message;
  final_source_bytes : option pybytes
}.

Section Converter.
Context `{UnicodeData} `{Parser} `{Disk}.

Definition with_conversions (self : converter) (more : list ConversionResult)
    : converter :=
  Converter (dry_run self) (backup self) (cstats self) (all_conversions self ++ more).

Definition convert_file (self : converter) (files : gmap pystr pybytes)
    (path : pystr) (fstrings : list candidate) : convert_outcome :=
  let failed self' := Outcome false self' files [ErrorConverting path] None in
  match fstrings with
  | [] => Outcome false self files [] None
  | _ =>
  match files !! path with
  | None => failed self
  | Some source_bytes =>
  match decode_utf8 source_bytes with
  | None => Outcome false self files [ErrorDecoding path] None
  | Some source_code =>
  match ast_parse source_code with
  | None => failed self
  | Some tree =>
  match transform (candidate_table fstrings) tree [] with
  | None => failed self
  | Some [] => Outcome false self files [] None
  | Some conversions_made =>
  match apply_replacements path source_bytes conversions_made with
  | (None, more) => failed (with_conversions self more)
  | (Some final, more) =>
      let s := cstats self in
      let converted := fstrings_converted s + Z.of_nat (length conversions_made) in
      if dry_run self
      then Outcome true
             (Converter true (backup self)
                (Stats (files_scanned s) (files_with_fstrings s) (files_modified s)
                   (fstrings_found s) converted (backups_created s))
                (all_conversions self ++ more))
             files [] (Some final)
      else
        match write_outcome files path final with
        | Written =>
            Outcome true
              (Converter false (backup self)
                 (Stats (files_scanned s) (files_with_fstrings s) (files_modified s + 1)
                    (fstrings_found s) converted (backups_created s))
                 (all_conversions self ++ more))
              (<[path := final]> files) [] (Some final)
        | OpenRefused =>
            Outcome false (with_conversions self more) files
              [ErrorConverting path] (Some final)
        | WriteBroken written =>
            Outcome false (with_conversions self more)
              (<[path := take written final]> files)
              [ErrorConverting path] (Some final)
        end
  end end end end end end.
End Converter.

(** ** One file of a run: the body of the loop of [scan_and_convert] *)

(** Reading a file in text mode turns CR LF and CR into LF. *)
Fixpoint universal_newlines (s : pystr) : pystr :=
  match s with
  | [] => []
  | c :: r =>
      if c =? 13
      then match r with
           | c2 :: r2 => if c2 =? 10 then 10 :: universal_newlines r2
                         else 10 :: universal_newlines r
           | [] => [10]
           end
      else c :: universal_newlines r
  end.

Section Run.
Context `{UnicodeData} `{Parser} `{Disk}.

(** [analyze_file]: [None] when the visitor raises, which nothing
    catches. *)
Definition analyze_file (self : converter) (files : gmap pystr pybytes)
    (path : pystr) : option (list candidate * converter) :=
  match files !! path ≫= decode_utf8 with
  | None => Some ([], self)
  | Some raw =>
      let source_code := universal_newlines raw in
      match ast_parse source_code with
      | None => Some ([], self)
      | Some tree =>
          found ← analyze source_code tree;
          let s := cstats self in
          let s' :=
            match found with
            | [] => Stats (files_scanned s + 1) (files_with_fstrings s)
                      (files_modified s) (fstrings_found s)
                      (fstrings_converted s) (backups_created s)
            | _ => Stats (files_scanned s + 1) (files_with_fstrings s + 1)
                     (files_modified s)
                     (fstrings_found s + Z.of_nat (length found))
                     (fstrings_converted s) (backups_created s)
            end in
          Some (found, Converter (dry_run self) (backup self) s' (all_conversions self))
      end
  end.

(** Analyse one file and, when there are candidates, convert it. *)
Definition scan_file (self : converter) (files : gmap pystr pybytes)
    (path : pystr) : option (converter * gmap pystr pybytes) :=
  '(fstrings, self1) ← analyze_file self files path;
  match fstrings with
  | [] => Some (self1, files)
  | _ =>
      let o := convert_file self1 files path fstrings in
      Some (self_after o, files_after o)
  end.
End Run.

Definition set_dry_run (b : bool) (self : converter) : converter :=
  Converter b (backup self) (cstats self) (all_conversions self).

(** ** The patch engine as the specification words it

    A replacement is a byte range [[start, stop)] with the bytes that take
    its place; the result of patching is the file with each range replaced
    and everything else kept, read off from left to right. *)
Record span := Span {
  span_start : Z;
  span_stop : Z;
  span_bytes : pybytes
}.

Definition bytes_between (src : pybytes) (a b : Z) : pybytes :=
  take (Z.to_nat (b - a)) (drop (Z.to_nat a) src).

Fixpoint splice_from (src : pybytes) (cursor : Z) (spans : list span) (limit : Z)
    : pybytes :=
  match spans with
  | [] => bytes_between src cursor limit
  | sp :: rest =>
      bytes_between src cursor (span_start sp) ++ span_bytes sp
        ++ splice_from src (span_stop sp) rest limit
  end.

Definition splice (src : pybytes) (spans : list span) : pybytes :=
  splice_from src 0 spans (Z.of_nat (length src)).

(** Non-empty ranges, left to right, none reaching into the next, all
    between [cursor] and [limit]. *)
Fixpoint spans_in_order (cursor : Z) (spans : list span) (limit : Z) : Prop :=
  match spans with
  | [] => cursor <= limit
  | sp :: rest =>
      cursor <= span_start sp /\ span_start sp < span_stop sp /\
      spans_in_order (span_stop sp) rest limit
  end.

(** The byte range and bytes a recorded conversion stands for. *)
Definition span_of (src : pybytes) (rep : conversion) : option span :=
  let idx := line_start_indices src in
  s ← byte_index idx (start_line rep) (start_col rep);
  e ← byte_index idx (end_line rep) (end_col rep);
  b ← utf8_encode (replacement_text rep);
  Some (Span s e b).

(** A (line, column) pair that points into its line: the line exists and
    the column does not pass the end of the line. *)
Definition in_line (idx : list Z) (line col : Z) : Prop :=
  1 <= line /\ 0 <= col /\
  exists a b, idx !! Z.to_nat (line - 1) = Some a /\
              idx !! Z.to_nat line = Some b /\ a + col <= b.

Definition starts_in_line (src : pybytes) (rep : conversion) : Prop :=
  in_line (line_start_indices src) (start_line rep) (start_col rep).

(** Ascending order of candidates by (line, column). *)
Definition key_le (a b : Z * Z) : bool := negb (key_lt b a).

Definition candidates_ascending (l : list candidate) : Prop :=
  Sorted (fun a b => key_le (cand_location a) (cand_location b) = true) l.

(** Every node of a tree, the tree itself first. *)
Fixpoint nodes_of (n : node) : list node :=
  let each := fix each (l : list node) : list node :=
    match l with
    | [] => []
    | x :: r => nodes_of x ++ each r
    end in
  n :: match n with
       | Name _ _ | Constant _ _ _ => []
       | Attribute _ v _ => nodes_of v
       | Call _ f args kws => nodes_of f ++ each args ++ each kws
       | JoinedStr _ vs => each vs
       | FormattedValue _ v _ spec =>
           nodes_of v ++ match spec with Some s => nodes_of s | None => [] end
       | Other _ _ _ fs => each fs
       end.

(** [func] is the bare name [name], or an attribute [name] of any
    object. *)
Definition callee_named (func : node) (name : pystr) : Prop :=
  (exists q, func = Name q name) \/ (exists q obj, func = Attribute q obj name).

(** ** Worked inputs

    Small files with their trees as CPython 3.11 parses them (positions
    included), and the tables and parser restricted to what these files
    need. *)

(** An ASCII literal in which a backquote stands for the double quote. *)
Definition pyq (s : string) : pystr :=
  map (fun c => if c =? 96 then 34 else c) (py s).

Definition ascii_bytes (s : pystr) : pybytes := map byte_of_Z s.

(** The Unicode tables on text whose characters above U+007F are caseless
    printable symbols (pictographs, box drawing). *)
Definition symbols_only : UnicodeData :=
  {| lower_cp c := [c];
     lower_or_title_cp _ := false;
     upper_cp _ := false;
     digit_cp _ := false;
     printable_cp _ := true |}.

(** Decoding, on ASCII bytes. *)
Definition decode_ascii (bs : pybytes) : option pystr :=
  if forallb (fun b => (Byte.to_N b <? 128)%N) bs
  then Some (map (fun b => Z.of_N (Byte.to_N b)) bs)
  else None.

Definition python_keywords : list pystr :=
  map py ["False"; "None"; "True"; "and"; "as"; "assert"; "async"; "await";
          "break"; "class"; "continue"; "def"; "del"; "elif"; "else"; "except";
          "finally"; "for"; "from"; "global"; "if"; "import"; "in"; "is";
          "lambda"; "nonlocal"; "not"; "or"; "pass"; "raise"; "return"; "try";
          "while"; "with"; "yield"]%string.

Definition ident_start (c : Z) : bool :=
  ascii_upper c || ascii_lower c || (c =? 95).

Definition is_identifier (s : pystr) : bool :=
  match s with
  | [] => false
  | c :: r =>
      ident_start c && forallb (fun d => ident_start d || ascii_digit d) r
      && negb (str_in s python_keywords)
  end.

(** [ast.parse(text, mode='eval').body], on a bare ASCII identifier. *)
Definition parse_identifier (s : pystr) : option node :=
  if is_identifier s
  then Some (Name (Pos 1 0 1 (Z.of_nat (length s))) s)
  else None.

(** A parser that knows the listed files. *)
Definition table_parser (known : list (pystr * node)) : Parser :=
  {| decode_utf8 := decode_ascii;
     ast_parse src := snd <$> find (fun e => str_eqb e.1 src) known;
     ast_parse_expr := parse_identifier |}.

(** A disk on which every write goes through, and one on which no file
    can be opened for writing. *)
Definition writable : Disk := {| write_outcome _ _ _ := Written |}.
Definition read_only : Disk := {| write_outcome _ _ _ := OpenRefused |}.

(** A module or statement node: its text is never put in parentheses. *)
Definition block (p : pos) (text : pystr) (fields : list node) : node :=
  Other p PREC_ATOM (fun _ => Some text) fields.

(** A tuple display ([_Precedence.TUPLE] is 2). *)
Definition tuple (p : pos) (text : pystr) (elts : list node) : node :=
  Other p 2 (fun _ => Some text) elts.

Module Tuple_file.
(** [f"Error: {x} failed badly", f"hi {y}"] *)
Definition source : pystr := pyq "f`Error: {x} failed badly`, f`hi {y}`" ++ [10].

Definition first_pos : pos := Pos 1 0 1 26.

Definition first_values : list node :=
  [Constant (Pos 1 0 1 26) (CStr (py "Error: ")) false;
   FormattedValue (Pos 1 0 1 26) (Name (Pos 1 10 1 11) (py "x")) (-1) None;
   Constant (Pos 1 0 1 26) (CStr (py " failed badly")) false].

Definition first : node := JoinedStr first_pos first_values.

(** The candidate the analyzer records for the first f-string. *)
Definition first_info : candidate :=
  CandJoinedStr (1, 0) (py "Error: {} failed badly") [py "x"]
    (pyq "f`Error: {x} failed badly`, f`hi {y}`").

Definition second (col : Z) : node :=
  JoinedStr (Pos 1 col 1 (col + 9))
    [Constant (Pos 1 col 1 (col + 9)) (CStr (py "hi ")) false;
     FormattedValue (Pos 1 col 1 (col + 9))
       (Name (Pos 1 (col + 6) 1 (col + 7)) (py "y")) (-1) None].

Definition tree : node :=
  block no_pos (py "(f'Error: {x} failed badly', f'hi {y}')")
    [block (Pos 1 0 1 37) (py "(f'Error: {x} failed badly', f'hi {y}')")
       [tuple (Pos 1 0 1 37) (py "f'Error: {x} failed badly', f'hi {y}'")
          [first; second 28]]].

(** The file after one run:
    [_('Error: {} failed badly').format(x), f"hi {y}"] *)
Definition converted : pystr :=
  pyq "_('Error: {} failed badly').format(x), f`hi {y}`" ++ [10].

Definition emitted : node :=
  Call (Pos 1 0 1 37)
    (Attribute (Pos 1 0 1 34)
       (Call (Pos 1 0 1 27) (Name (Pos 1 0 1 1) (py "_"))
          [Constant (Pos 1 2 1 26) (CStr (py "Error: {} failed badly")) false] [])
       (py "format"))
    [Name (Pos 1 35 1 36) (py "x")] [].

Definition converted_tree : node :=
  block no_pos (py "(_('Error: {} failed badly').format(x), f'hi {y}')")
    [block (Pos 1 0 1 48) (py "(_('Error: {} failed badly').format(x), f'hi {y}')")
       [tuple (Pos 1 0 1 48) (py "_('Error: {} failed badly').format(x), f'hi {y}'")
          [emitted; second 39]]].

Definition parser : Parser :=
  table_parser [(source, tree); (converted, converted_tree)].

Definition path : pystr := py "messages.py".
Definition files : gmap pystr pybytes := {[ path := ascii_bytes source ]}.
Definition self : converter := Converter false false (Stats 0 0 0 0 0 0) [].
End Tuple_file.

Module Print_file.
(** [print(f"Error: {x} happened here", "Hello world again")] *)
Definition source : pystr :=
  pyq "print(f`Error: {x} happened here`, `Hello world again`)" ++ [10].

Definition tree : node :=
  block no_pos (py "print(f'Error: {x} happened here', 'Hello world again')")
    [block (Pos 1 0 1 55) (py "print(f'Error: {x} happened here', 'Hello world again')")
       [Call (Pos 1 0 1 55) (Name (Pos 1 0 1 5) (py "print"))
          [JoinedStr (Pos 1 6 1 33)
             [Constant (Pos 1 6 1 33) (CStr (py "Error: ")) false;
              FormattedValue (Pos 1 6 1 33) (Name (Pos 1 16 1 17) (py "x")) (-1) None;
              Constant (Pos 1 6 1 33) (CStr (py " happened here")) false];
           Constant (Pos 1 35 1 54) (CStr (py "Hello world again")) false]
          []]].
End Print_file.

Module Chained_file.
(** [_("Saved").prompt("Please enter your name now")] *)
Definition source : pystr :=
  pyq "_(`Saved`).prompt(`Please enter your name now`)" ++ [10].

Definition call : node :=
  Call (Pos 1 0 1 47)
    (Attribute (Pos 1 0 1 17)
       (Call (Pos 1 0 1 10) (Name (Pos 1 0 1 1) (py "_"))
          [Constant (Pos 1 2 1 9) (CStr (py "Saved")) false] [])
       (py "prompt"))
    [Constant (Pos 1 18 1 46) (CStr (py "Please enter your name now")) false] [].

Definition tree : node :=
  block no_pos (py "_('Saved').prompt('Please enter your name now')")
    [block (Pos 1 0 1 47) (py "_('Saved').prompt('Please enter your name now')") [call]].
End Chained_file.

Module Patch_inputs.
(** Two lines, [ab"cd"ef] and [gh"ij"]. *)
Definition source : pybytes := ascii_bytes (pyq "ab`cd`ef" ++ [10] ++ pyq "gh`ij`" ++ [10]).

Definition rep (l c l' c' : Z) (text : string) : conversion :=
  Conversion l c l' c' [] (py text) [] [].

(** The two string literals, the later one listed first. *)
Definition disjoint : list conversion :=
  [rep 2 2 2 6 "_('ij')"; rep 1 2 1 6 "_('cd')"].

(** Two replacements that start at the same byte. *)
Definition conflicting : list conversion :=
  [rep 1 2 1 6 "_('cd')"; rep 1 2 1 6 "_('CD')"].
End Patch_inputs.

(** The boundary cases of the classifier that are not plain ASCII
    literals. *)
Definition check_mark_message : pystr := 0x2705 :: py " Operation complete".
Definition continue_question : pystr := py "Are you sure you want to continue?".

Module Format_spec.
(** The one part of [f"{x:>8.3f}"]: its format specifier is a
    [JoinedStr] of its own. *)
Definition spec : node :=
  JoinedStr (Pos 1 0 1 12) [Constant (Pos 1 0 1 12) (CStr (py ">8.3f")) false].

Definition part : node :=
  FormattedValue (Pos 1 0 1 12) (Name (Pos 1 3 1 4) (py "x")) (-1) (Some spec).

(** The one part of [f"{x!r}"]. *)
Definition repr_part : node :=
  FormattedValue (Pos 1 0 1 8) (Name (Pos 1 3 1 4) (py "x")) 114 None.
End Format_spec.

(** ** Notions the statements use *)

(** A [str] holds code points of the Unicode range. *)
Definition valid_code_point (c : Z) : Prop := 0 <= c <= 0x10FFFF.

(** The embedded expressions of an f-string, left to right. *)
Definition embedded (values : list node) : list node :=
  omap (fun v => match v with
                 | FormattedValue _ e _ _ => Some e
                 | _ => None
                 end) values.

(** The string whose literal the conversion of node [n] carries: the
    value of a string constant, the template of an f-string. *)
Definition literal_value (n : node) (target_info : candidate) : pystr :=
  match n, target_info with
  | Constant _ (CStr value) _, _ => value
  | _, CandJoinedStr _ template _ _ => template
  | _, CandConstant _ _ value => value
  end.

Section ReadsBack.
Context `{UnicodeData} `{Parser}.

(** The parser reads the unparsed text of [e] back as an expression
    that unparses to the same text. *)
Definition reads_back (e : node) : Prop :=
  forall v, unparse e = Some v ->
    exists a, ast_parse_expr v = Some a /\ unparse a = Some v.
End ReadsBack.

Module Escape_input.
(** [print("It's a \"test\"\\\n")] with a bell character and a
    pictograph added: both quotes, a backslash, a newline, a control
    character and a character outside ASCII. *)
Definition value : pystr :=
  pyq "It's a `test`" ++ [92; 10; 7; 0x1F525].

Definition constant_node : node :=
  Constant (Pos 1 6 1 30) (CStr value) false.

Definition info : candidate := CandConstant (1, 6) (py "print(...)") value.
End Escape_input.

(** The nodes [visit] is called on: the traversal stops at an existing
    translation call and at an f-string. *)
Fixpoint visited (n : node) : list node :=
  let each := fix each (l : list node) : list node :=
    match l with
    | [] => []
    | x :: r => visited x ++ each r
    end in
  n :: match n with
       | Name _ _ | Constant _ _ _ | JoinedStr _ _ => []
       | Attribute _ v _ => visited v
       | Call _ f args kws =>
           if is_translation_call f then []
           else visited f ++ each args ++ each kws
       | FormattedValue _ v _ spec =>
           visited v ++ match spec with Some s => visited s | None => [] end
       | Other _ _ _ fs => each fs
       end.

(** Where a candidate comes from: an f-string the traversal reaches, or
    a string constant among the direct arguments of a user-facing call
    the traversal reaches. *)
Definition origin (tree : node) (c : candidate) : Prop :=
  (exists p values template vars line,
     JoinedStr p values ∈ visited tree /\
     c = CandJoinedStr (location_key p) template vars line) \/
  (exists p func args kws pa value ku line,
     Call p func args kws ∈ visited tree /\
     is_translation_call func = false /\
     str_in (func_name func) user_facing_funcs = true /\
     Constant pa (CStr value) ku ∈ args /\
     c = CandConstant (location_key pa) line value).

Section Rerun.
Context `{UnicodeData} `{Parser} `{Disk}.

(** The loop of [generic_visit] over a list of nodes. *)
Definition visit_list (source_lines : list pystr) : list node -> analyzer -> option analyzer :=
  fix each (l : list node) (st : analyzer) : option analyzer :=
    match l with
    | [] => Some st
    | x :: r => st' ← visit source_lines x st; each r st'
    end.

(** The candidates a second run finds in the file a first run has
    left. *)
Definition rerun_candidates (self : converter) (files : gmap pystr pybytes)
    (path : pystr) : option (list candidate) :=
  '(self1, files1) ← scan_file self files path;
  fst <$> analyze_file self1 files1 path.
End Rerun.

(** [c] is a Literal candidate for a string constant that is a direct
    argument of a call the traversal reaches: a call that is no existing
    translation call and whose callee is named [print], [input], [echo]
    or [prompt]. *)
Definition from_sink_argument (tree : node) (c : candidate) : Prop :=
  exists p func args kws name pa value ku line,
    Call p func args kws ∈ visited tree /\
    is_translation_call func = false /\
    name ∈ [py "print"; py "input"; py "echo"; py "prompt"] /\
    callee_named func name /\
    Constant pa (CStr value) ku ∈ args /\
    c = CandConstant (location_key pa) line value.

(** The arguments of a call stand at pairwise different positions. *)
Definition distinct_positions (args : list node) : Prop :=
  NoDup ((fun arg => location_key (node_pos arg)) <$> args).

(** Whatever a visit of [n] has added to [strings_to_convert] has its
    origin in [n]. *)
Definition comes_from (n : node) (st st' : analyzer) : Prop :=
  forall c, c ∈ strings_to_convert st' -> c ∈ strings_to_convert st \/ origin n c.

(** [a] does not sort after [b] in the descending order of the keys. *)
Definition key_ge (a b : conversion) : Prop :=
  key_lt (sort_key a) (sort_key b) = false.

Module Spec_file.
(** [print(f"{x:>8.3f} is the total")]: in CPython 3.11 the format
    specifier's [JoinedStr] has the position of the f-string it belongs
    to. *)
Definition source : pystr := pyq "print(f`{x:>8.3f} is the total`)" ++ [10].

Definition fstring : node :=
  JoinedStr (Pos 1 6 1 31)
    [FormattedValue (Pos 1 6 1 31) (Name (Pos 1 9 1 10) (py "x")) (-1)
       (Some (JoinedStr (Pos 1 6 1 31)
                [Constant (Pos 1 6 1 31) (CStr (py ">8.3f")) false]));
     Constant (Pos 1 6 1 31) (CStr (py " is the total")) false].

Definition tree : node :=
  block no_pos (py "print(f'{x:>8.3f} is the total')")
    [block (Pos 1 0 1 32) (py "print(f'{x:>8.3f} is the total')")
       [Call (Pos 1 0 1 32) (Name (Pos 1 0 1 5) (py "print")) [fstring] []]].

(** A candidate list that names the f-string. *)
Definition candidates : list candidate :=
  [CandJoinedStr (1, 6) (py "{:f'>8.3f'} is the total") [py "x"]
     (pyq "print(f`{x:>8.3f} is the total`)")].

Definition parser : Parser := table_parser [(source, tree)].
Definition path : pystr := py "totals.py".
Definition files : gmap pystr pybytes := {[ path := ascii_bytes source ]}.
Definition self : converter := Converter false false (Stats 0 0 0 0 0 0) [].
End Spec_file.

(** The byte index of the start of a conversion, [0] where the line does
    not exist. *)
Definition start_offset (src : pybytes) (rep : conversion) : Z :=
  default 0 (byte_index (line_start_indices src) (start_line rep) (start_col rep)).

(** ** The rest of [core/converter.py]

    The parts of the module around the pipeline: the confidence
    heuristic, the listing of the files of a run, the backups, the loop
    of [scan_and_convert] and the grouping of the report. *)

(** [ASTFStringConverter.__init__] *)
Definition new_converter (dry_run backup : bool) : converter :=
  Converter dry_run backup (Stats 0 0 0 0 0 0) [].

(** *** [FStringAnalyzer._assess_confidence] *)

Section Confidence.
Context `{UnicodeData}.

Definition assess_confidence (content context : pystr) : pystr :=
  if existsb (contains (lower context))
       [py "print"; py "click.echo"; py "rich.print"; py "logging"]
  then py "high"
  else if existsb (contains (lower content))
            [py "error"; py "warning"; py "success"; py "failed"]
  then py "high"
  else if (20 <? length content)%nat then py "medium"
  else py "low".
End Confidence.

(** The three levels in their order. *)
Definition confidence_rank (level : pystr) : Z :=
  if str_eqb level (py "high") then 2
  else if str_eqb level (py "medium") then 1
  else 0.

(** *** The entries of [strings_to_convert] *)

(** The text the classifier has judged: ['value'] or ['template']. *)
Definition cand_text (c : candidate) : pystr :=
  match c with
  | CandConstant _ _ value => value
  | CandJoinedStr _ template _ _ => template
  end.

(** ['original_line'] *)
Definition cand_line (c : candidate) : pystr :=
  match c with
  | CandConstant _ original_line _ | CandJoinedStr _ _ _ original_line => original_line
  end.

Definition cand_is_joined (c : candidate) : bool := negb (is_literal_candidate c).

(** *** The loop of [NodeTransformer.generic_visit] over a list of nodes *)

Section TransformList.
Context `{UnicodeData} `{Parser}.

Definition transform_list (table : gmap (Z * Z) candidate)
    : list node -> list conversion -> option (list conversion) :=
  fix each (l : list node) (made : list conversion) : option (list conversion) :=
    match l with
    | [] => Some made
    | x :: r => made' ← transform table x made; each r made'
    end.

(** What a visit of [n] adds to [conversions_made]: conversions recorded
    at nodes of [n]. *)
Definition adds_from (table : gmap (Z * Z) candidate) (n : node)
    (made made' : list conversion) : Prop :=
  exists new, made' = made ++ new /\
    Forall (fun conv => exists m, m ∈ nodes_of n /\
                                  record_conversion table m = Some [conv]) new.
End TransformList.

(** A string node: the two classes [generic_visit] looks at. *)
Definition is_string_node (n : node) : bool :=
  match n with
  | JoinedStr _ _ | Constant _ (CStr _) _ => true
  | _ => false
  end.

(** The class of node a candidate of each ['type'] stands for. *)
Definition same_class (n : node) (c : candidate) : bool :=
  match n, c with
  | JoinedStr _ _, CandJoinedStr _ _ _ _ => true
  | Constant _ (CStr _) _, CandConstant _ _ _ => true
  | _, _ => false
  end.

(** *** Paths and the file system

    [pathlib], [shutil] and the directory listing are the interpreter's
    and the operating system's.  A path is written as its string; the
    operations on paths the module calls are taken as parameters, and the
    file system is the store of file contents the converter reads and
    writes, together with the answer to whether a file can be created. *)
Class PathLib := {
  (** [path.parts] *)
  path_parts : pystr -> list pystr;
  (** [path.name] *)
  path_name : pystr -> pystr;
  (** [path.relative_to(other)]; [None] is the raised [ValueError]. *)
  relative_to : pystr -> pystr -> option pystr;
  (** [path / other] *)
  joinpath : pystr -> pystr -> pystr;
  (** [list(Path(directory).rglob('*.py'))], in the order the system
      lists them. *)
  rglob_py : gmap pystr pybytes -> pystr -> list pystr;
  (** Whether [path.parent.mkdir(parents=True, exist_ok=True)] and the
      opening of [path] for writing succeed. *)
  can_create : gmap pystr pybytes -> pystr -> bool
}.

Definition EXCLUDED_DIRS : list pystr :=
  [py ".git"; py "__pycache__"; py "venv"; py ".venv"; py "node_modules";
   py ".tox"; py "build"; py "dist"; py ".eggs"; py "dev_tools"; py "_vendor"].

(** The hard-coded directories of [create_backups]. *)
Definition backup_root : pystr := py "/home/minds3t/i18n_tools/backups".
Definition project_root : pystr := py "/home/minds3t/omnipkg".

(** What [create_backups] prints. *)
Inductive backup_message :=
| CreatingBackups
| CouldNotBackUp (name : pystr)
| CreatedBackups (count : Z) (dir : pystr).

Section Files.
Context `{PathLib}.

(** [any(excluded in py_file.parts for excluded in EXCLUDED_DIRS)] *)
Definition in_excluded_dir (py_file : pystr) : bool :=
  existsb (fun excluded => str_in excluded (path_parts py_file)) EXCLUDED_DIRS.

(** [list(get_python_files(directories))] *)
Definition get_python_files (files : gmap pystr pybytes) (directories : list pystr)
    : list pystr :=
  concat (map (fun directory =>
                 filter (fun py_file => in_excluded_dir py_file = false)
                   (rglob_py files directory))
            directories).

(** [shutil.copy2(src, dst)] after the [mkdir] of the target's parent;
    [None] is any of the exceptions: the source cannot be read, source
    and target are the same file, the target cannot be created. *)
Definition copy2 (files : gmap pystr pybytes) (src dst : pystr)
    : option (gmap pystr pybytes) :=
  content ← files !! src;
  if str_eqb src dst || negb (can_create files dst) then None
  else Some (<[dst := content]> files).

Section Backups.
Variable source_dirs : list pystr.
(** [datetime.now().strftime('%Y%m%d_%H%M%S')] *)
Variable stamp : pystr.

Definition backup_dir : pystr := joinpath backup_root (py "backup_" ++ stamp).

(** The body of the loop of [create_backups], on the counter
    [stats['backups_created']], the file system and the output. *)
Definition backup_step (acc : Z * gmap pystr pybytes * list backup_message)
    (py_file : pystr) : Z * gmap pystr pybytes * list backup_message :=
  let '(created, files, out) := acc in
  match rel_path ← relative_to py_file project_root;
        copy2 files py_file (joinpath backup_dir rel_path) with
  | Some files' => (created + 1, files', out)
  | None => (created, files, out ++ [CouldNotBackUp (path_name py_file)])
  end.

Definition create_backups (self : converter) (files : gmap pystr pybytes)
    : converter * gmap pystr pybytes * list backup_message :=
  if negb (backup self) then (self, files, [])
  else
    let python_files := get_python_files files source_dirs in
    let s := cstats self in
    let '(created, files', out) :=
      foldl backup_step (backups_created s, files, [CreatingBackups]) python_files in
    (Converter (dry_run self) (backup self)
       (Stats (files_scanned s) (files_with_fstrings s) (files_modified s)
          (fstrings_found s) (fstrings_converted s) created)
       (all_conversions self),
     files',
     out ++ (if 0 <? created then [CreatedBackups created backup_dir] else [])).
End Backups.

(** The first of [source_dirs] the path is relative to: the
    [for ... try ... break] loop of [generate_report]. *)
Fixpoint first_relative (source_dirs : list pystr) (path : pystr) : option pystr :=
  match source_dirs with
  | [] => None
  | src_dir :: rest =>
      match relative_to path src_dir with
      | Some rel => Some rel
      | None => first_relative rest path
      end
  end.
End Files.

(** *** [scan_and_convert]

    The state of a run is the converter and the file system; what the run
    prints is left out.  [None] is an exception that leaves
    [scan_and_convert]. *)
Section ScanAndConvert.
Context `{UnicodeData} `{Parser} `{Disk} `{PathLib}.
Variable source_dirs : list pystr.
Variable stamp : pystr.

(** [for py_file in python_files: ...] *)
Fixpoint scan_files (python_files : list pystr) (self : converter)
    (files : gmap pystr pybytes) : option (converter * gmap pystr pybytes) :=
  match python_files with
  | [] => Some (self, files)
  | py_file :: rest =>
      '(self', files') ← scan_file self files py_file;
      scan_files rest self' files'
  end.

Definition scan_and_convert (self : converter) (files : gmap pystr pybytes)
    : option (converter * gmap pystr pybytes) :=
  let '(self1, files1) :=
    if dry_run self then (self, files)
    else let '(self1, files1, _) := create_backups source_dirs stamp self files in
         (self1, files1) in
  scan_files (get_python_files files1 source_dirs) self1 files1.
End ScanAndConvert.

(** *** The grouping of [generate_report] *)

(** [by_file[file_key].append(conv)], with a new key placed last, as a
    [dict] keeps its keys. *)
Fixpoint add_to_group (file_key : pystr) (conv : ConversionResult)
    (by_file : list (pystr * list ConversionResult))
    : list (pystr * list ConversionResult) :=
  match by_file with
  | [] => [(file_key, [conv])]
  | (k, convs) :: rest =>
      if str_eqb k file_key then (k, convs ++ [conv]) :: rest
      else (k, convs) :: add_to_group file_key conv rest
  end.

Section Report.
Context `{PathLib}.
Variable source_dirs : list pystr.

(** The loop over [self.all_conversions].  [file_key] is a local of the
    function: when no source directory fits it keeps the value of the
    iteration before, and is unbound ([None] as result) when there was
    none. *)
Fixpoint group_conversions (convs : list ConversionResult) (file_key : option pystr)
    (by_file : list (pystr * list ConversionResult))
    : option (list (pystr * list ConversionResult)) :=
  match convs with
  | [] => Some by_file
  | conv :: rest =>
      match (match first_relative source_dirs (file_path conv) with
             | Some k => Some k
             | None => file_key
             end) with
      | Some k => group_conversions rest (Some k) (add_to_group k conv by_file)
      | None => None
      end
  end.

(** [by_file] as [generate_report] prints it. *)
Definition by_file (self : converter) : option (list (pystr * list ConversionResult)) :=
  group_conversions (all_conversions self) None [].
End Report.

(** *** Paths as POSIX strings, for the worked inputs *)

(** The components between slashes; [cur] holds the current one,
    reversed. *)
Fixpoint components_from (cur : pystr) (s : pystr) : list pystr :=
  match s with
  | [] => match cur with [] => [] | _ => [rev cur] end
  | c :: r =>
      if c =? 47
      then match cur with
           | [] => components_from [] r
           | _ => rev cur :: components_from [] r
           end
      else components_from (c :: cur) r
  end.

Definition posix_parts (path : pystr) : list pystr :=
  (if startswith path (py "/") then [py "/"] else []) ++ components_from [] path.

Fixpoint strip_prefix (base parts : list pystr) : option (list pystr) :=
  match base, parts with
  | [], _ => Some parts
  | b :: base', p :: parts' => if str_eqb b p then strip_prefix base' parts' else None
  | _ :: _, [] => None
  end.

Definition endswith (s suffix : pystr) : bool := startswith (rev s) (rev suffix).

(** Absolute paths without [.] and [..], every file creatable. *)
Definition posix_paths : PathLib :=
  {| path_parts := posix_parts;
     path_name path := default [] (last (posix_parts path));
     relative_to path other :=
       join (py "/") <$> strip_prefix (posix_parts other) (posix_parts path);
     joinpath path other := path ++ py "/" ++ other;
     rglob_py files directory :=
       filter (fun f => bool_decide (is_Some (strip_prefix (posix_parts directory)
                                                (posix_parts f)))
                        && endswith f (py ".py"))
         (map fst (map_to_list files));
     can_create _ _ := true |}.

Module Project_files.
(** A package outside the hard-coded project root, with a vendored
    file. *)
Definition module_path : pystr := py "/srv/app/pkg/messages.py".
Definition vendored_path : pystr := py "/srv/app/pkg/_vendor/six.py".
Definition source_dirs : list pystr := [py "/srv/app/pkg"].
Definition stamp : pystr := py "20250101_120000".
Definition files : gmap pystr pybytes :=
  {[ module_path := ascii_bytes Tuple_file.source;
     vendored_path := ascii_bytes (py "x = 1") ]}.
(** The same package, checked out below a directory named [build]. *)
Definition build_dir : pystr := py "/srv/build/app/pkg".
Definition build_files : gmap pystr pybytes :=
  {[ py "/srv/build/app/pkg/messages.py" := ascii_bytes Tuple_file.source ]}.
End Project_files.

Module Home_files.
(** A package below the hard-coded project root. *)
Definition core_path : pystr := py "/home/minds3t/omnipkg/omnipkg/core.py".
Definition source_dirs : list pystr := [py "/home/minds3t/omnipkg/omnipkg"].
Definition files : gmap pystr pybytes := {[ core_path := ascii_bytes Tuple_file.source ]}.
End Home_files.

Module Print_analysis.
(** What the analyzer finds in [Print_file]: the string constant first,
    recorded by the loop over the arguments of [print], then the
    f-string. *)
Definition line : pystr := pyq "print(f`Error: {x} happened here`, `Hello world again`)".
Definition literal : candidate := CandConstant (1, 35) line (py "Hello world again").
Definition fstring : candidate :=
  CandJoinedStr (1, 6) (py "Error: {} happened here") [py "x"] line.
Definition found : list candidate := [literal; fstring].
(** The arguments of the call of [print] in [Print_file]. *)
Definition call_args : list node :=
  [JoinedStr (Pos 1 6 1 33)
     [Constant (Pos 1 6 1 33) (CStr (py "Error: ")) false;
      FormattedValue (Pos 1 6 1 33) (Name (Pos 1 16 1 17) (py "x")) (-1) None;
      Constant (Pos 1 6 1 33) (CStr (py " happened here")) false];
   Constant (Pos 1 35 1 54) (CStr (py "Hello world again")) false].
(** A state with an earlier entry and an earlier mark. *)
Definition before : analyzer := Analyzer [Tuple_file.first_info] {[ (1, 0) ]}.
Definition after : analyzer :=
  Analyzer (Tuple_file.first_info :: found) ({[ (1, 35) ]} ∪ {[ (1, 0) ]}).
End Print_analysis.

Module Tuple_conversion.
(** The conversion the transformer records for the first f-string of
    [Tuple_file]. *)
Definition made : conversion :=
  Conversion 1 0 1 26 (pyq "f`Error: {x} failed badly`, f`hi {y}`")
    (py "_('Error: {} failed badly').format(x)") (py "Error: {} failed badly") [py "x"].
End Tuple_conversion.

(** *** What a part of a run may do

    [run_step n self self' files files']: the flags are kept; at most [n]
    more files are counted as scanned, not more of them as holding
    candidates, and not more of those as modified; every file counted as
    holding candidates adds to [fstrings_found]; [fstrings_converted]
    does not fall and [backups_created] stays; [all_conversions] is
    extended; no file appears or disappears; and in a dry run no file
    changes and none is counted as modified. *)
Definition run_step (n : Z) (self self' : converter)
    (files files' : gmap pystr pybytes) : Prop :=
  let d f := f (cstats self') - f (cstats self) in
  dry_run self' = dry_run self /\ backup self' = backup self /\
  0 <= d files_modified /\ d files_modified <= d files_with_fstrings /\
  d files_with_fstrings <= d files_scanned /\ d files_scanned <= n /\
  d files_with_fstrings <= d fstrings_found /\
  0 <= d fstrings_converted /\ d backups_created = 0 /\
  all_conversions self `prefix_of` all_conversions self' /\
  dom files' = dom files /\
  (dry_run self = true -> files' = files /\ d files_modified = 0).

Module Report_input.
(** A converter after one conversion in [Project_files], and the groups
    of its report. *)
Definition result : ConversionResult :=
  {| file_path := Project_files.module_path;
     line_number := 1;
     original_code := pyq "f`Error: {x} failed badly`, f`hi {y}`";
     converted_code := py "_('Error: {} failed badly').format(x)";
     fstring_content := py "Error: {} failed badly";
     variables_used := [py "x"];
     confidence := py "high" |}.
Definition self : converter := Converter false true (Stats 1 1 1 1 1 0) [result].
Definition groups : list (pystr * list ConversionResult) := [(py "messages.py", [result])].
End Report_input.

(** * Theorems *)

#[local] Set Warnings "-clear-no-such-hyp".

Section DryRun.
Context `{UnicodeData} `{Parser} `{Disk}.

(** C8.  A preview ([dry_run]) and a real run of the same file with the
    same candidates see the same candidates, build the same
    [final_source_bytes] and record the same conversions; the preview
    returns [True] exactly when a buffer was built, and leaves the files
    as they are.  The real run differs in the write alone: when a buffer
    was built and the write goes through, it returns and prints what the
    preview does, counts the same conversions, counts the file as
    modified and leaves exactly that buffer in the file; when the write
    fails it prints the error, returns [False] and counts nothing, with
    the file untouched or, if the write broke off, holding the bytes that
    were written; when no buffer was built the two runs agree in
    everything. *)
Theorem dry_run_computes_the_same_buffer
    (self : converter) (files : gmap pystr pybytes) (path : pystr)
    (fstrings : list candidate) :
  let preview := convert_file (set_dry_run true self) files path fstrings in
  let real := convert_file (set_dry_run false self) files path fstrings in
  fst <$> analyze_file (set_dry_run true self) files path
    = fst <$> analyze_file (set_dry_run false self) files path /\
  final_source_bytes preview = final_source_bytes real /\
  all_conversions (self_after preview) = all_conversions (self_after real) /\
  files_after preview = files /\
  files_modified (cstats (self_after preview)) = files_modified (cstats self) /\
  (returned preview = true <-> is_Some (final_source_bytes preview)) /\
  match final_source_bytes real with
  | Some buffer =>
      match write_outcome files path buffer with
      | Written =>
          returned real = true /\ printed real = printed preview /\
          fstrings_converted (cstats (self_after real))
            = fstrings_converted (cstats (self_after preview)) /\
          files_modified (cstats (self_after real)) = files_modified (cstats self) + 1 /\
          files_after real = <[path := buffer]> files
      | OpenRefused =>
          returned real = false /\ printed real = [ErrorConverting path] /\
          cstats (self_after real) = cstats self /\
          files_after real = files
      | WriteBroken written =>
          returned real = false /\ printed real = [ErrorConverting path] /\
          cstats (self_after real) = cstats self /\
          files_after real = <[path := take written buffer]> files
      end
  | None =>
      returned real = returned preview /\ printed real = printed preview /\
      cstats (self_after real) = cstats (self_after preview) /\
      files_after real = files
  end.
Proof.
  cbv zeta. split.
  { unfold analyze_file.
    destruct (files !! path ≫= decode_utf8) as [raw|]; [|done].
    destruct (ast_parse (universal_newlines raw)) as [tree|]; [|done].
    destruct (analyze (universal_newlines raw) tree) as [found|]; [|done].
    done. }
  unfold convert_file.
  destruct fstrings as [|c cs]; [by repeat split; try intros [? [=]]|].
  destruct (files !! path) as [source_bytes|]; [|by repeat split; try intros [? [=]]].
  destruct (decode_utf8 source_bytes) as [source_code|];
    [|by repeat split; try intros [? [=]]].
  destruct (ast_parse source_code) as [tree|]; [|by repeat split; try intros [? [=]]].
  destruct (transform (candidate_table (c :: cs)) tree []) as [[|m made]|];
    [by repeat split; try intros [? [=]]| |by repeat split; try intros [? [=]]].
  destruct (apply_replacements path source_bytes (m :: made)) as [[final|] more];
    [|by repeat split; try intros [? [=]]].
  destruct (write_outcome files path final) eqn:Ew;
    cbn [set_dry_run dry_run final_source_bytes self_after files_after returned printed
         cstats all_conversions backup files_modified fstrings_converted
         with_conversions];
    rewrite Ew; (do 4 (split; [done|]));
    (split; [split; [intros _; by eexists|done]|]); done.
Qed.
End DryRun.

(** The first f-string of [Tuple_file]: preview and real run build the
    converted file, and the real run leaves it on a disk that can be
    written. *)
Lemma dry_run_computes_the_same_buffer_witness :
  let real := @convert_file symbols_only Tuple_file.parser writable
                (set_dry_run false Tuple_file.self) Tuple_file.files Tuple_file.path
                [Tuple_file.first_info] in
  final_source_bytes real = Some (ascii_bytes Tuple_file.converted) /\
  returned real = true /\
  files_after real
  = <[Tuple_file.path := ascii_bytes Tuple_file.converted]> Tuple_file.files.
Proof.
  cbv zeta.
  destruct (@dry_run_computes_the_same_buffer symbols_only Tuple_file.parser writable
              Tuple_file.self Tuple_file.files Tuple_file.path [Tuple_file.first_info])
    as (_ & Hbuffer & _ & _ & _ & _ & Hreal).
  assert (Hpreview :
    final_source_bytes
      (@convert_file symbols_only Tuple_file.parser writable
         (set_dry_run true Tuple_file.self) Tuple_file.files Tuple_file.path
         [Tuple_file.first_info])
    = Some (ascii_bytes Tuple_file.converted)) by (vm_compute; reflexivity).
  rewrite <- Hbuffer, Hpreview in Hreal. cbn [write_outcome writable] in Hreal.
  destruct Hreal as (Hret & _ & _ & _ & Hfiles).
  split; [by rewrite <- Hbuffer|]. split; [exact Hret|exact Hfiles].
Defined.

(** ** The classifier on the boundary cases of the specification *)


Section ClassifierCases.
Context `{UnicodeData}.

Lemma lower_check_mark_message :
  lower_cp 0x2705 = [0x2705] ->
  lower check_mark_message = 0x2705 :: py " operation complete".
Proof.
  intros Hcp. unfold lower, check_mark_message.
  cbn [map py]. unfold lower_char at 1. cbn [ascii_upper is_ascii].
  rewrite Hcp. reflexivity.
Qed.

(** C3.  Whatever the context line: ["----"] and ["import os"] are
    rejected and the check-mark message is accepted, as the
    specification lists them; ["Are you sure you want to continue?"] is
    rejected, because it contains the technical pattern [continue]. *)
Theorem classifier_boundary_cases (context : pystr) :
  lower_cp 0x2705 = [0x2705] ->
  is_user_facing_string (py "----") context = false /\
  is_user_facing_string check_mark_message context = true /\
  is_user_facing_string (py "import os") context = false /\
  is_user_facing_string continue_question context = false.
Proof.
  intros Hcp. split; [|split; [|split]].
  - vm_compute. reflexivity.
  - unfold is_user_facing_string. cbv zeta.
    rewrite (lower_check_mark_message Hcp).
    vm_compute. reflexivity.
  - vm_compute. reflexivity.
  - vm_compute. reflexivity.
Qed.
End ClassifierCases.

(** The boundary cases with the tables of the worked inputs. *)
Lemma classifier_boundary_cases_witness :
  @lower_cp symbols_only 0x2705 = [0x2705] /\
  (@is_user_facing_string symbols_only (py "----") (py "input(") = false /\
   @is_user_facing_string symbols_only check_mark_message (py "input(") = true /\
   @is_user_facing_string symbols_only (py "import os") (py "input(") = false /\
   @is_user_facing_string symbols_only continue_question (py "input(") = false).
Proof.
  split; [reflexivity|].
  apply (@classifier_boundary_cases symbols_only (py "input(")). reflexivity.
Defined.

(** ** Placeholders *)

Section Placeholders.
Context `{UnicodeData}.

(** C4.  The conversion flag of [{x!r}] reaches the template as [{!r}].
    The format specifier of [{x:>8.3f}] does not reach it verbatim:
    [ast.unparse] renders the specifier's own [JoinedStr] as an f-string
    literal, so the placeholder is [{:f'>8.3f'}] and not [{:>8.3f}]. *)
Theorem format_spec_placeholder :
  joined_parts [Format_spec.repr_part] = Some ([py "{!r}"], [py "x"]) /\
  joined_parts [Format_spec.part] = Some ([py "{:f'>8.3f'}"], [py "x"]) /\
  placeholder (-1) (Some Format_spec.spec) <> Some (py "{:>8.3f}").
Proof.
  split; [|split]; [vm_compute; reflexivity..|].
  vm_compute. discriminate.
Qed.
End Placeholders.

(** ** [repr] and the reading of a literal are inverse *)

Lemma hex_value_digit (d : Z) :
  0 <= d < 16 -> hex_value (hex_digit d) = Some d.
Proof.
  intros Hd. unfold hex_value, hex_digit, ascii_digit.
  destruct (d <? 10) eqn:E.
  - apply Z.ltb_lt in E.
    replace ((48 <=? 48 + d) && (48 + d <=? 57)) with true
      by (symmetry; apply andb_true_iff; split; apply Z.leb_le; lia).
    f_equal. lia.
  - apply Z.ltb_ge in E.
    replace ((48 <=? 87 + d) && (87 + d <=? 57)) with false
      by (symmetry; apply andb_false_iff; right; apply Z.leb_gt; lia).
    replace ((97 <=? 87 + d) && (87 + d <=? 102)) with true
      by (symmetry; apply andb_true_iff; split; apply Z.leb_le; lia).
    f_equal. lia.
Qed.

(** Reading [m] of the digits that are still expected. *)
Lemma scan_hex_prefix (q : Z) (m j : nat) (acc w : Z) (rest : pystr) :
  0 <= w < 16 ^ Z.of_nat m ->
  scan_literal q (Hex (m + S j) acc) (hex_fixed m w ++ rest)
  = scan_literal q (Hex (S j) (acc * 16 ^ Z.of_nat m + w)) rest.
Proof.
  revert j acc w rest. induction m as [|m IH]; intros j acc w rest Hw.
  - cbn [hex_fixed app Nat.add]. f_equal. f_equal.
    change (16 ^ Z.of_nat 0) with 1 in *. lia.
  - cbn [hex_fixed]. rewrite <- app_assoc. cbn [app].
    replace (S m + S j)%nat with (m + S (S j))%nat by lia.
    assert (H16 : 16 ^ Z.of_nat (S m) = 16 * 16 ^ Z.of_nat m).
    { rewrite Nat2Z.inj_succ, Z.pow_succ_r by lia. reflexivity. }
    assert (Hdm := Z.div_mod w 16 ltac:(lia)).
    assert (Hm := Z.mod_pos_bound w 16 ltac:(lia)).
    rewrite IH by (split; [apply Z.div_pos; lia | apply Z.div_lt_upper_bound; lia]).
    cbn [scan_literal]. rewrite hex_value_digit by lia.
    f_equal. f_equal. rewrite H16. lia.
Qed.

(** Reading all the digits of an escape. *)
Lemma scan_hex_all (q : Z) (k : nat) (v : Z) (rest : pystr) :
  0 <= v < 16 ^ Z.of_nat (S k) -> v <= 0x10FFFF ->
  scan_literal q (Hex (S k) 0) (hex_fixed (S k) v ++ rest)
  = cons v <$> scan_literal q Normal rest.
Proof.
  intros Hv Hmax.
  assert (H16 : 16 ^ Z.of_nat (S k) = 16 * 16 ^ Z.of_nat k).
  { rewrite Nat2Z.inj_succ, Z.pow_succ_r by lia. reflexivity. }
  assert (Hdm := Z.div_mod v 16 ltac:(lia)).
  assert (Hm := Z.mod_pos_bound v 16 ltac:(lia)).
  cbn [hex_fixed]. rewrite <- app_assoc. cbn [app].
  replace (S k) with (k + 1)%nat at 1 by lia.
  rewrite scan_hex_prefix
    by (split; [apply Z.div_pos; lia | apply Z.div_lt_upper_bound; lia]).
  cbn [scan_literal]. rewrite hex_value_digit by lia.
  replace ((0 * 16 ^ Z.of_nat k + v `div` 16) * 16 + v `mod` 16) with v by lia.
  destruct (v <=? 0x10FFFF) eqn:E; [reflexivity|].
  apply Z.leb_gt in E. lia.
Qed.

Lemma scan_emit (q c : Z) (rest : pystr) :
  normal_act q c = Emit c ->
  scan_literal q Normal (c :: rest) = cons c <$> scan_literal q Normal rest.
Proof. intros Hact. cbn [scan_literal]. rewrite Hact. reflexivity. Qed.

Lemma scan_escape (q e : Z) (out : pystr) (st : scan_state) (rest : pystr) :
  q <> 92 -> escape_act e = Some (out, st) ->
  scan_literal q Normal (92 :: e :: rest) = app out <$> scan_literal q st rest.
Proof.
  intros Hq Hesc. cbn [scan_literal]. unfold normal_act.
  destruct (92 =? q) eqn:E; [apply Z.eqb_eq in E; lia|].
  cbn [Z.eqb Pos.eqb]. rewrite Hesc. reflexivity.
Qed.

Section ReprRoundTrip.
Context `{UnicodeData}.

Lemma scan_repr_char (q c : Z) (rest : pystr) :
  q = 39 \/ q = 34 -> valid_code_point c ->
  scan_literal q Normal (repr_char q c ++ rest)
  = cons c <$> scan_literal q Normal rest.
Proof.
  intros Hq [Hc0 Hc1]. unfold repr_char.
  destruct ((c =? q) || (c =? 92)) eqn:E1.
  { cbn [app]. rewrite (scan_escape q c [c] Normal); [reflexivity|lia|].
    apply orb_true_iff in E1. rewrite !Z.eqb_eq in E1.
    destruct E1 as [->| ->]; [destruct Hq as [->| ->]|]; reflexivity. }
  apply orb_false_iff in E1. rewrite !Z.eqb_neq in E1. destruct E1 as [Hcq Hc92].
  destruct (c =? 9) eqn:E2.
  { apply Z.eqb_eq in E2. subst c.
    apply (scan_escape q 116 [9] Normal); [lia|reflexivity]. }
  destruct (c =? 10) eqn:E3.
  { apply Z.eqb_eq in E3. subst c.
    apply (scan_escape q 110 [10] Normal); [lia|reflexivity]. }
  destruct (c =? 13) eqn:E4.
  { apply Z.eqb_eq in E4. subst c.
    apply (scan_escape q 114 [13] Normal); [lia|reflexivity]. }
  apply Z.eqb_neq in E2, E3, E4.
  assert (Hemit : normal_act q c = Emit c).
  { unfold normal_act.
    destruct (c =? q) eqn:Ea; [apply Z.eqb_eq in Ea; lia|].
    destruct (c =? 92) eqn:Eb; [apply Z.eqb_eq in Eb; lia|].
    destruct (c =? 10) eqn:Ec; [apply Z.eqb_eq in Ec; lia|].
    destruct (c =? 13) eqn:Ed; [apply Z.eqb_eq in Ed; lia|].
    reflexivity. }
  assert (Hx : forall r, c <= 0xff ->
    scan_literal q Normal ((py "\x" ++ hex_fixed 2 c) ++ r)
    = cons c <$> scan_literal q Normal r).
  { intros r Hle. cbn [py]. change (N_of_ascii "\") with 92%N.
    change (Z.of_N 92) with 92. rewrite <- app_assoc.
    change ([92; Z.of_N (N_of_ascii "x")] ++ hex_fixed 2 c ++ r)
      with (92 :: 120 :: hex_fixed 2 c ++ r).
    rewrite (scan_escape q 120 [] (Hex 2 0)); [|lia|reflexivity].
    cbn [app]. rewrite scan_hex_all; [destruct (scan_literal q Normal r); reflexivity| |lia].
    change (16 ^ Z.of_nat 2) with 256. lia. }
  destruct ((c <? 32) || (c =? 127)) eqn:E5.
  { apply Hx. apply orb_true_iff in E5.
    rewrite Z.ltb_lt, Z.eqb_eq in E5. lia. }
  destruct (c <? 127) eqn:E6.
  { cbn [app]. apply scan_emit, Hemit. }
  destruct (char_isprintable c) eqn:E7.
  { cbn [app]. apply scan_emit, Hemit. }
  unfold hex_escape.
  destruct (c <=? 0xff) eqn:E8.
  { apply Hx. apply Z.leb_le in E8. lia. }
  destruct (c <=? 0xffff) eqn:E9.
  { apply Z.leb_le in E9. rewrite <- app_assoc.
    change (py "\u" ++ hex_fixed 4 c ++ rest)
      with (92 :: 117 :: hex_fixed 4 c ++ rest).
    rewrite (scan_escape q 117 [] (Hex 4 0)); [|lia|reflexivity].
    cbn [app]. rewrite scan_hex_all; [destruct (scan_literal q Normal rest); reflexivity| |lia].
    change (16 ^ Z.of_nat 4) with 65536. lia. }
  rewrite <- app_assoc.
  change (py "\U" ++ hex_fixed 8 c ++ rest)
    with (92 :: 85 :: hex_fixed 8 c ++ rest).
  rewrite (scan_escape q 85 [] (Hex 8 0)); [|lia|reflexivity].
  cbn [app]. rewrite scan_hex_all; [destruct (scan_literal q Normal rest); reflexivity| |lia].
  change (16 ^ Z.of_nat 8) with 4294967296. lia.
Qed.

Lemma scan_repr_body (q : Z) (s : pystr) :
  q = 39 \/ q = 34 -> Forall valid_code_point s ->
  scan_literal q Normal (concat (map (repr_char q) s) ++ [q]) = Some s.
Proof.
  intros Hq Hs. induction Hs as [|c s Hc Hs IH].
  - cbn [map concat app scan_literal]. unfold normal_act.
    rewrite Z.eqb_refl. reflexivity.
  - cbn [map concat]. rewrite <- app_assoc.
    rewrite scan_repr_char by assumption. rewrite IH. reflexivity.
Qed.

Lemma parse_repr (s : pystr) :
  Forall valid_code_point s -> parse_str_literal (repr s) = Some s.
Proof.
  intros Hs. unfold repr, parse_str_literal.
  assert (Hq : repr_quote s = 39 \/ repr_quote s = 34).
  { unfold repr_quote. destruct (char_in 39 s && negb (char_in 34 s)); auto. }
  destruct Hq as [Hq|Hq]; rewrite Hq; cbn [Z.eqb Pos.eqb orb];
    rewrite <- Hq; apply scan_repr_body; auto.
Qed.
End ReprRoundTrip.

(** ** What the transformer emits *)

Section Emitted.
Context `{UnicodeData}.

Lemma unparse_call (avoid : bool) (ctx : Z) (p : pos) (f : node)
    (args kws : list node) :
  unparse_at avoid ctx (Call p f args kws)
  = (tf ← unparse_at avoid PREC_ATOM f;
     ta ← mapM (unparse_at avoid PREC_TEST) args;
     tk ← mapM (unparse_at avoid PREC_TEST) kws;
     Some (tf ++ py "(" ++ join (py ", ") (ta ++ tk) ++ py ")")).
Proof. reflexivity. Qed.

Lemma unparse_translation_call_at (ctx : Z) (s : pystr) :
  unparse_at false ctx (translation_call s) = Some (py "_(" ++ repr s ++ py ")").
Proof.
  unfold translation_call. rewrite unparse_call.
  cbn [unparse_at mapM mbind option_bind mret option_ret write_constant app join].
  reflexivity.
Qed.

Lemma unparse_translation_call (s : pystr) :
  unparse (translation_call s) = Some (py "_(" ++ repr s ++ py ")").
Proof. apply unparse_translation_call_at. Qed.

Lemma unparse_format_call (s : pystr) (args : list node) (texts : list pystr) :
  mapM unparse args = Some texts ->
  unparse (Call no_pos (Attribute no_pos (translation_call s) (py "format")) args [])
  = Some (py "_(" ++ repr s ++ py ").format(" ++ join (py ", ") texts ++ py ")").
Proof.
  intros Hargs. unfold unparse in *. rewrite unparse_call.
  cbn [unparse_at]. rewrite unparse_translation_call_at.
  change (mapM (unparse_at false PREC_TEST) args) with (mapM (fun n => unparse_at false PREC_TEST n) args).
  rewrite Hargs.
  cbn [mbind option_bind mapM mret option_ret is_int_constant translation_call].
  rewrite app_nil_r. f_equal. rewrite <- !app_assoc. reflexivity.
Qed.
End Emitted.

Section Fidelity.
Context `{UnicodeData} `{Parser}.

Lemma embedded_cons (v : node) (values : list node) :
  embedded (v :: values)
  = match v with
    | FormattedValue _ e _ _ => e :: embedded values
    | _ => embedded values
    end.
Proof. by destruct v. Qed.

Lemma joined_parts_variables (values : list node) (parts vars : list pystr) :
  joined_parts values = Some (parts, vars) ->
  mapM unparse (embedded values) = Some vars.
Proof.
  revert parts vars. induction values as [|v values IH]; intros parts vars Hj.
  - cbn in Hj. by inversion Hj.
  - cbn [joined_parts] in Hj. rewrite embedded_cons.
    destruct (joined_parts values) as [[ps vs]|] eqn:Hrest.
    + specialize (IH _ _ eq_refl).
      destruct v as [p id|p [s|t i] ku|p v a|p f args kws|p vs'|p e conv spec|p prec text fs];
        simplify_option_eq; try done.
    + destruct v as [p id|p [s|t i] ku|p v a|p f args kws|p vs'|p e conv spec|p prec text fs];
        simplify_option_eq; try done;
        repeat match goal with x : _ * _ |- _ => destruct x end; done.
Qed.

Lemma parse_variables (es : list node) (vars : list pystr) :
  mapM unparse es = Some vars ->
  Forall reads_back es ->
  exists args, mapM ast_parse_expr vars = Some args /\ mapM unparse args = Some vars.
Proof.
  rewrite mapM_Some. intros Hvars. induction Hvars as [|e v es vars He Hes IH]; intros Hrb.
  - by exists [].
  - inversion Hrb as [|? ? Hrb1 Hrb2]; subst.
    destruct (Hrb1 v He) as (a & Ha & Hua).
    destruct (IH Hrb2) as (args & Hargs & Hus).
    exists (a :: args). cbn [mapM]. rewrite Ha, Hargs, Hua, Hus. done.
Qed.

Lemma app_singleton_self {A} (l : list A) (x : A) : l <> l ++ [x].
Proof.
  intros E. apply (f_equal length) in E. rewrite length_app in E.
  cbn in E. lia.
Qed.

(** What [visit_JoinedStr] appends when it appends something. *)
Lemma visit_JoinedStr_accepts (source_lines : list pystr) (p : pos)
    (values : list node) (st st' : analyzer) (c : candidate) :
  visit_JoinedStr source_lines p values st = Some st' ->
  strings_to_convert st' = strings_to_convert st ++ [c] ->
  exists parts vars line,
    joined_parts values = Some (parts, vars) /\
    c = CandJoinedStr (location_key p) (concat parts) vars line.
Proof.
  unfold visit_JoinedStr. intros Hv Hc.
  destruct (bool_decide _).
  { inversion Hv; subst. by apply app_singleton_self in Hc. }
  destruct (joined_parts values) as [[parts vars]|]; [|done].
  cbn in Hv. destruct (py_getitem _ _) as [line|]; [|done]. cbn in Hv.
  destruct (is_user_facing_string _ _).
  - inversion Hv; subst. cbn in Hc. apply app_inv_head in Hc.
    inversion Hc. by eauto.
  - inversion Hv; subst. by apply app_singleton_self in Hc.
Qed.

(** C5.  When the analyzer accepts an f-string with N > 0 embedded
    expressions, and the parser reads each of them back, the transformer
    emits [_(<template>).format(a_1, ..., a_N)]: exactly N positional
    arguments, the i-th of which has the text of the i-th embedded
    expression of the source, left to right. *)
Theorem interpolation_fidelity (source_lines : list pystr) (p : pos)
    (values : list node) (st st' : analyzer) (c : candidate)
    (table : gmap (Z * Z) candidate) :
  visit_JoinedStr source_lines p values st = Some st' ->
  strings_to_convert st' = strings_to_convert st ++ [c] ->
  table !! location_key p = Some c ->
  embedded values <> [] ->
  Forall reads_back (embedded values) ->
  exists template vars args line,
    c = CandJoinedStr (location_key p) template vars line /\
    mapM unparse (embedded values) = Some vars /\
    mapM unparse args = Some vars /\
    length args = length (embedded values) /\
    new_node_for table (JoinedStr p values)
    = Some (Some (c, Call no_pos
                       (Attribute no_pos (translation_call template) (py "format"))
                       args [])) /\
    record_conversion table (JoinedStr p values)
    = Some [Conversion (lineno p) (col_offset p) (end_lineno p) (end_col_offset p)
              line
              (py "_(" ++ repr template ++ py ").format("
                 ++ join (py ", ") vars ++ py ")")
              template vars].
Proof.
  intros Hv Hc Htable Hn Hrb.
  destruct (visit_JoinedStr_accepts _ _ _ _ _ _ Hv Hc) as (parts & vars & line & Hj & ->).
  apply joined_parts_variables in Hj.
  destruct (parse_variables _ _ Hj Hrb) as (args & Hargs & Hus).
  assert (Hlen : length args = length (embedded values)).
  { apply length_mapM in Hus, Hj. lia. }
  assert (Hnode : new_node_for table (JoinedStr p values)
    = Some (Some (CandJoinedStr (location_key p) (concat parts) vars line,
                  Call no_pos
                    (Attribute no_pos (translation_call (concat parts)) (py "format"))
                    args []))).
  { cbn [new_node_for]. rewrite Htable.
    destruct vars as [|v vars].
    - apply length_mapM in Hj. destruct (embedded values); done.
    - rewrite Hargs. done. }
  exists (concat parts), vars, args, line.
  repeat split; try done.
  unfold record_conversion. rewrite Hnode. cbn [mbind option_bind].
  rewrite (unparse_format_call _ _ _ Hus). done.
Qed.

(** C6.  The replacement text of every conversion starts with [_(]
    followed by [repr] of the string it wraps (the constant's value, or
    the f-string's template), and reading that literal back gives the
    string again, character for character. *)
Theorem emitted_literal_round_trips (table : gmap (Z * Z) candidate)
    (n : node) (target_info : candidate) (new_node : node) (code : pystr) :
  new_node_for table n = Some (Some (target_info, new_node)) ->
  unparse new_node = Some code ->
  Forall valid_code_point (literal_value n target_info) ->
  exists tail,
    code = py "_(" ++ repr (literal_value n target_info) ++ tail /\
    parse_str_literal (repr (literal_value n target_info))
    = Some (literal_value n target_info).
Proof.
  intros Hnode Hcode Hvalid.
  assert (Hlit := parse_repr _ Hvalid).
  destruct n as [p id|p [s|t i] ku|p v a|p f args kws|p vs|p e conv spec|p prec text fs];
    cbn [new_node_for] in Hnode; try done.
  - destruct (table !! location_key p) as [[l o v|l t vars o]|]; try done.
    inversion Hnode; subst. rewrite unparse_translation_call in Hcode.
    inversion Hcode; subst. by exists (py ")").
  - destruct (table !! location_key p) as [[l o v|l t vars o]|]; try done.
    destruct vars as [|v vars].
    + inversion Hnode; subst. rewrite unparse_translation_call in Hcode.
      inversion Hcode; subst. by exists (py ")").
    + destruct (mapM ast_parse_expr (v :: vars)) as [format_args|] eqn:Hargs; [|done].
      inversion Hnode; subst.
      destruct (mapM unparse format_args) as [texts|] eqn:Htexts.
      * rewrite (unparse_format_call _ _ _ Htexts) in Hcode.
        inversion Hcode; subst.
        by exists (py ").format(" ++ join (py ", ") texts ++ py ")").
      * unfold unparse in Hcode, Htexts. rewrite unparse_call in Hcode.
        cbn [unparse_at] in Hcode. rewrite unparse_translation_call_at in Hcode.
        change (mapM (unparse_at false PREC_TEST) format_args)
          with (mapM (fun n => unparse_at false PREC_TEST n) format_args) in Hcode.
        rewrite Htexts in Hcode. done.
Qed.
End Fidelity.

Lemma interpolation_fidelity_witness :
  exists template vars args line,
    Tuple_file.first_info = CandJoinedStr (1, 0) template vars line /\
    mapM (@unparse symbols_only) (embedded Tuple_file.first_values) = Some vars /\
    mapM (@unparse symbols_only) args = Some vars /\
    length args = 1%nat /\
    @new_node_for Tuple_file.parser (candidate_table [Tuple_file.first_info])
      (JoinedStr Tuple_file.first_pos Tuple_file.first_values)
    = Some (Some (Tuple_file.first_info,
                  Call no_pos
                    (Attribute no_pos (translation_call template) (py "format"))
                    args [])) /\
    @record_conversion symbols_only Tuple_file.parser
      (candidate_table [Tuple_file.first_info])
      (JoinedStr Tuple_file.first_pos Tuple_file.first_values)
    = Some [Conversion 1 0 1 26 line
              (py "_(" ++ @repr symbols_only template ++ py ").format("
                 ++ join (py ", ") vars ++ py ")")
              template vars].
Proof.
  apply (@interpolation_fidelity symbols_only Tuple_file.parser
           (splitlines Tuple_file.source) Tuple_file.first_pos Tuple_file.first_values
           new_analyzer (Analyzer [Tuple_file.first_info] ∅)).
  - vm_compute. reflexivity.
  - reflexivity.
  - vm_compute. reflexivity.
  - discriminate.
  - constructor; [|constructor]. intros v Hv. vm_compute in Hv.
    injection Hv as <-. exists (Name (Pos 1 0 1 1) (py "x")).
    split; vm_compute; reflexivity.
Defined.

Lemma emitted_literal_round_trips_witness :
  exists tail,
    py "_(" ++ @repr symbols_only Escape_input.value ++ py ")"
    = py "_(" ++ @repr symbols_only Escape_input.value ++ tail /\
    parse_str_literal (@repr symbols_only Escape_input.value)
    = Some Escape_input.value.
Proof.
  apply (@emitted_literal_round_trips symbols_only Tuple_file.parser
           (candidate_table [Escape_input.info]) Escape_input.constant_node
           Escape_input.info (translation_call Escape_input.value)).
  - vm_compute. reflexivity.
  - vm_compute. reflexivity.
  - cbv - [Z.le]. repeat (constructor; [lia|]). constructor.
Defined.

(** ** Where candidates come from *)

Lemma node_ind_strong (P : node -> Prop)
    (HName : forall p id, P (Name p id))
    (HConstant : forall p v ku, P (Constant p v ku))
    (HAttribute : forall p v a, P v -> P (Attribute p v a))
    (HCall : forall p f args kws,
        P f -> Forall P args -> Forall P kws -> P (Call p f args kws))
    (HJoinedStr : forall p vs, Forall P vs -> P (JoinedStr p vs))
    (HFormattedValue : forall p v conv spec,
        P v -> (forall s, spec = Some s -> P s) -> P (FormattedValue p v conv spec))
    (HOther : forall p prec text fs, Forall P fs -> P (Other p prec text fs)) :
  forall n, P n.
Proof.
  fix IH 1. intros [p id|p v ku|p v a|p f args kws|p vs|p e conv spec|p prec text fs].
  - apply HName.
  - apply HConstant.
  - apply HAttribute, IH.
  - apply HCall; [apply IH| |].
    + induction args as [|x r IHr]; constructor; [apply IH|apply IHr].
    + induction kws as [|x r IHr]; constructor; [apply IH|apply IHr].
  - apply HJoinedStr. induction vs as [|x r IHr]; constructor; [apply IH|apply IHr].
  - apply HFormattedValue; [apply IH|].
    destruct spec as [s'|]; intros s Hs; [|discriminate].
    injection Hs as <-. apply IH.
  - apply HOther. induction fs as [|x r IHr]; constructor; [apply IH|apply IHr].
Qed.

Section Origin.
Context `{UnicodeData}.
Variable source_lines : list pystr.

Lemma visit_Call_eq (p : pos) (func : node) (args kws : list node) (st : analyzer) :
  visit source_lines (Call p func args kws) st
  = if is_translation_call func
    then Some (Analyzer (strings_to_convert st)
                 ({[location_key p]} ∪ translated_locations st))
    else
      st1 ← (if str_in (func_name func) user_facing_funcs
             then scan_args source_lines args st else Some st);
      st2 ← visit source_lines func st1;
      st3 ← visit_list source_lines args st2;
      visit_list source_lines kws st3.
Proof. reflexivity. Qed.

Lemma visit_Other_eq (p : pos) (prec : Z) (text : bool -> option pystr)
    (fs : list node) (st : analyzer) :
  visit source_lines (Other p prec text fs) st = visit_list source_lines fs st.
Proof. reflexivity. Qed.

Lemma visited_Call_eq (p : pos) (func : node) (args kws : list node) :
  visited (Call p func args kws)
  = Call p func args kws ::
    (if is_translation_call func then []
     else visited func ++ concat (map visited args) ++ concat (map visited kws)).
Proof.
  cbn [visited]. f_equal. destruct (is_translation_call func); [done|].
  f_equal. f_equal; [induction args as [|x r IH]|induction kws as [|x r IH]];
    cbn [map concat]; congruence.
Qed.

Lemma visited_Other_eq (p : pos) (prec : Z) (text : bool -> option pystr)
    (fs : list node) :
  visited (Other p prec text fs) = Other p prec text fs :: concat (map visited fs).
Proof.
  cbn [visited]. f_equal. induction fs as [|x r IH]; cbn [map concat]; congruence.
Qed.

(** The sink loop only adds string constants of the argument list. *)
Lemma scan_args_adds (args : list node) (st st' : analyzer) (c : candidate) :
  scan_args source_lines args st = Some st' ->
  c ∈ strings_to_convert st' ->
  c ∈ strings_to_convert st \/
  exists pa value ku line,
    Constant pa (CStr value) ku ∈ args /\
    c = CandConstant (location_key pa) line value.
Proof.
  revert st. induction args as [|a args IH]; intros st Hs Hc.
  - cbn in Hs. inversion Hs; subst. by left.
  - assert (Hskip : scan_args source_lines args st = Some st' ->
      c ∈ strings_to_convert st \/
      exists pa value ku line,
        Constant pa (CStr value) ku ∈ a :: args /\
        c = CandConstant (location_key pa) line value).
    { intros Hs'. destruct (IH _ Hs' Hc) as [?|(pa & value & ku & line & Hin & ->)];
        [by left|right]. exists pa, value, ku, line. split; [by right|done]. }
    destruct a as [p id|p [s|t i] ku|p v a|p f args' kws|p vs|p e conv spec|p prec text fs];
      cbn [scan_args] in Hs; try (by apply Hskip).
    destruct (bool_decide _); [by apply Hskip|].
    destruct (py_getitem _ _) as [line|]; [|done]. cbn in Hs.
    destruct (is_user_facing_string s line); [|by apply Hskip].
    destruct (IH _ Hs Hc) as [Hold|(pa & value & ku' & line' & Hin & ->)].
    + cbn in Hold. apply elem_of_app in Hold as [Hold|Hnew]; [by left|].
      apply list_elem_of_singleton in Hnew as ->. right.
      exists p, s, ku, (strip line). split; [by left|done].
    + right. exists pa, value, ku', line'. split; [by right|done].
Qed.

Lemma origin_mono (n m : node) (c : candidate) :
  visited n ⊆ visited m -> origin n c -> origin m c.
Proof.
  intros Hsub [(p & values & t & vars & line & Hin & ->)
              |(p & func & args & kws & pa & value & ku & line & Hin & Ht & Hf & Ha & ->)].
  - left. exists p, values, t, vars, line. split; [by apply Hsub|done].
  - right. exists p, func, args, kws, pa, value, ku, line.
    repeat split; try done. by apply Hsub.
Qed.

Lemma visit_list_comes_from (l : list node) :
  Forall (fun n => forall st st', visit source_lines n st = Some st' -> comes_from n st st') l ->
  forall st st', visit_list source_lines l st = Some st' ->
  forall c, c ∈ strings_to_convert st' ->
    c ∈ strings_to_convert st \/ exists n, n ∈ l /\ origin n c.
Proof.
  induction 1 as [|n l Hn Hl IH]; intros st st' Hv c Hc.
  - cbn in Hv. inversion Hv; subst. by left.
  - cbn [visit_list] in Hv.
    destruct (visit source_lines n st) as [st1|] eqn:H1; [|done]. cbn in Hv.
    destruct (IH _ _ Hv c Hc) as [Hold|(m & Hm & Ho)].
    + destruct (Hn _ _ H1 c Hold) as [?|Ho]; [by left|].
      right. exists n. split; [by left|done].
    + right. exists m. split; [by right|done].
Qed.

Lemma visited_in_concat (n : node) (l : list node) :
  n ∈ l -> visited n ⊆ concat (map visited l).
Proof.
  induction l as [|m l IH]; intros Hin; [by apply not_elem_of_nil in Hin|].
  cbn [map concat]. apply elem_of_cons in Hin as [->|Hin]; [set_solver|].
  specialize (IH Hin). set_solver.
Qed.

(** Every candidate a visit adds has its origin in the visited tree. *)
Lemma visit_comes_from (n : node) (st st' : analyzer) :
  visit source_lines n st = Some st' -> comes_from n st st'.
Proof.
  revert st st'.
  induction n as [p id|p v ku|p v a IHv|p f args kws IHf IHargs IHkws|p vs IHvs
                 |p e conv spec IHe IHspec|p prec text fs IHfs]
    using node_ind_strong; intros st st' Hv c Hc.
  - cbn in Hv. inversion Hv; subst. by left.
  - cbn in Hv. inversion Hv; subst. by left.
  - cbn [visit] in Hv. destruct (IHv _ _ Hv c Hc) as [?|Ho]; [by left|right].
    eapply origin_mono; [|done]. cbn [visited]. set_solver.
  - rewrite visit_Call_eq in Hv.
    destruct (is_translation_call f) eqn:Ht.
    { inversion Hv; subst. by left. }
    destruct (if str_in _ _ then _ else _) as [st1|] eqn:E1; [|done]. cbn in Hv.
    destruct (visit source_lines f st1) as [st2|] eqn:E2; [|done]. cbn in Hv.
    destruct (visit_list source_lines args st2) as [st3|] eqn:E3; [|done]. cbn in Hv.
    assert (Horig : c ∈ strings_to_convert st1 \/ origin (Call p f args kws) c).
    { destruct (visit_list_comes_from kws IHkws _ _ Hv c Hc) as [Hc3|(m & Hm & Ho)].
      - destruct (visit_list_comes_from args IHargs _ _ E3 c Hc3) as [Hc2|(m & Hm & Ho)].
        + destruct (IHf _ _ E2 c Hc2) as [?|Ho]; [by left|right].
          eapply origin_mono; [|done]. rewrite visited_Call_eq, Ht. set_solver.
        + right. eapply origin_mono; [|done]. rewrite visited_Call_eq, Ht.
          pose proof (visited_in_concat _ _ Hm). set_solver.
      - right. eapply origin_mono; [|done]. rewrite visited_Call_eq, Ht.
        pose proof (visited_in_concat _ _ Hm). set_solver. }
    destruct Horig as [Hc1|?]; [|by right].
    destruct (str_in (func_name f) user_facing_funcs) eqn:Hf.
    + destruct (scan_args_adds _ _ _ _ E1 Hc1) as [?|(pa & value & ku & line & Hin & ->)];
        [by left|right]. right.
      exists p, f, args, kws, pa, value, ku, line. repeat split; try done.
      rewrite visited_Call_eq. by left.
    + inversion E1; subst. by left.
  - cbn [visit] in Hv. unfold visit_JoinedStr in Hv.
    destruct (bool_decide _); [inversion Hv; subst; by left|].
    destruct (joined_parts vs) as [[parts vars]|]; [|done]. cbn in Hv.
    destruct (py_getitem _ _) as [line|]; [|done]. cbn in Hv.
    destruct (is_user_facing_string _ _); inversion Hv; subst; [|by left].
    cbn in Hc. apply elem_of_app in Hc as [?|Hnew]; [by left|].
    apply list_elem_of_singleton in Hnew as ->. right. left.
    exists p, vs, (concat parts), vars, (strip line). split; [by left|done].
  - cbn [visit] in Hv.
    destruct (visit source_lines e st) as [st1|] eqn:E1; [|done]. cbn in Hv.
    assert (Hn : c ∈ strings_to_convert st1 -> c ∈ strings_to_convert st \/
                 origin (FormattedValue p e conv spec) c).
    { intros Hc1. destruct (IHe _ _ E1 c Hc1) as [?|Ho]; [by left|right].
      eapply origin_mono; [|done]. cbn [visited]. set_solver. }
    destruct spec as [s|].
    + destruct (IHspec s eq_refl _ _ Hv c Hc) as [Hc1|Ho]; [by apply Hn|right].
      eapply origin_mono; [|done]. cbn [visited]. set_solver.
    + inversion Hv; subst. by apply Hn.
  - rewrite visit_Other_eq in Hv.
    destruct (visit_list_comes_from fs IHfs _ _ Hv c Hc) as [?|(m & Hm & Ho)]; [by left|right].
    eapply origin_mono; [|done]. rewrite visited_Other_eq.
    pose proof (visited_in_concat _ _ Hm). set_solver.
Qed.
End Origin.

Lemma str_in_elem_of (x : pystr) (l : list pystr) :
  str_in x l = true -> x ∈ l.
Proof.
  unfold str_in, str_eqb. intros Hx. apply existsb_exists in Hx as (y & Hy & Heq).
  apply bool_decide_eq_true in Heq as ->. by apply list_elem_of_In.
Qed.

Lemma elem_of_str_in (x : pystr) (l : list pystr) : x ∈ l -> str_in x l = true.
Proof.
  intros Hx. unfold str_in. apply existsb_exists. exists x.
  split; [by apply list_elem_of_In|]. unfold str_eqb. by apply bool_decide_eq_true.
Qed.

Lemma sink_callee_named (func : node) :
  str_in (func_name func) user_facing_funcs = true ->
  exists name, name ∈ user_facing_funcs /\ callee_named func name.
Proof.
  intros Hf. pose proof (str_in_elem_of _ _ Hf) as Hin.
  destruct func as [q id|q v ku|q obj attr|q f args kws|q vs|q e conv spec|q prec text fs];
    cbn [func_name] in Hin;
    try (exfalso; revert Hin; unfold user_facing_funcs;
         by rewrite !elem_of_cons, elem_of_nil; intros [?|[?|[?|[?|?]]]]).
  - exists id. split; [done|]. left. by exists q.
  - exists attr. split; [done|]. right. by exists q, obj.
Qed.

Lemma nodes_of_Call_eq (p : pos) (func : node) (args kws : list node) :
  nodes_of (Call p func args kws)
  = Call p func args kws ::
    nodes_of func ++ concat (map nodes_of args) ++ concat (map nodes_of kws).
Proof.
  cbn [nodes_of]. f_equal. f_equal.
  f_equal; [induction args as [|x r IH]|induction kws as [|x r IH]];
    cbn [map concat]; congruence.
Qed.

Lemma nodes_of_list_eq (l : list node) :
  (fix each (l : list node) : list node :=
     match l with
     | [] => []
     | x :: r => nodes_of x ++ each r
     end) l = concat (map nodes_of l).
Proof. induction l as [|x r IH]; cbn [map concat]; congruence. Qed.

Lemma concat_map_subseteq (f g : node -> list node) (l : list node) :
  Forall (fun n => f n ⊆ g n) l -> concat (map f l) ⊆ concat (map g l).
Proof. induction 1 as [|n l Hn Hl IH]; cbn [map concat]; set_solver. Qed.

(** The traversal only reaches nodes of the tree. *)
Lemma visited_subseteq_nodes (n : node) : visited n ⊆ nodes_of n.
Proof.
  induction n as [p id|p v ku|p v a IHv|p f args kws IHf IHargs IHkws|p vs IHvs
                 |p e conv spec IHe IHspec|p prec text fs IHfs]
    using node_ind_strong.
  - done.
  - done.
  - cbn [visited nodes_of]. set_solver.
  - rewrite visited_Call_eq, nodes_of_Call_eq.
    apply concat_map_subseteq in IHargs, IHkws.
    destruct (is_translation_call f); set_solver.
  - cbn [visited nodes_of]. set_solver.
  - cbn [visited nodes_of]. destruct spec as [s|].
    + specialize (IHspec s eq_refl). set_solver.
    + set_solver.
  - rewrite visited_Other_eq. cbn [nodes_of]. rewrite nodes_of_list_eq.
    apply concat_map_subseteq in IHfs. set_solver.
Qed.

(** ** Runs on the engine's own output *)

Section Idempotence.
Context `{UnicodeData}.

(** C2 as amended.  A call of [_], and any attribute of such a call
    that is called ([_(...).format(...)]), is recorded as handled and
    nothing below it is visited; what the transformer emits has that
    shape; and every candidate of an analysis stems from a node the
    traversal reaches, which is never one below such a call. *)
Theorem translation_calls_are_skipped :
  (forall (source_lines : list pystr) (p : pos) (func : node)
          (args kws : list node) (st : analyzer),
      is_translation_call func = true ->
      visit source_lines (Call p func args kws) st
      = Some (Analyzer (strings_to_convert st)
                ({[location_key p]} ∪ translated_locations st)) /\
      visited (Call p func args kws) = [Call p func args kws]) /\
  (forall (p q r : pos) (args kws : list node) (attr : pystr),
      is_translation_call (Name p (py "_")) = true /\
      is_translation_call (Attribute p (Call q (Name r (py "_")) args kws) attr) = true) /\
  (forall (source_lines : list pystr) (tree : node) (st : analyzer) (c : candidate),
      visit source_lines tree new_analyzer = Some st ->
      c ∈ strings_to_convert st ->
      origin tree c).
Proof.
  split; [|split].
  - intros source_lines p func args kws st Ht.
    rewrite visit_Call_eq, visited_Call_eq, Ht. done.
  - done.
  - intros source_lines tree st c Hv Hc.
    destruct (visit_comes_from source_lines tree _ _ Hv c Hc) as [Hold|Ho]; [|done].
    cbn in Hold. by apply not_elem_of_nil in Hold.
Qed.
End Idempotence.

Lemma translation_calls_are_skipped_witness :
  @visit symbols_only (splitlines Tuple_file.converted) Tuple_file.emitted new_analyzer
  = Some (Analyzer [] ({[ (1, 0) ]} ∪ ∅)) /\
  visited Tuple_file.emitted = [Tuple_file.emitted] /\
  origin Tuple_file.converted_tree
    (CandJoinedStr (1, 39) (py "hi {}") [py "y"]
       (pyq "_('Error: {} failed badly').format(x), f`hi {y}`")).
Proof.
  destruct (@translation_calls_are_skipped symbols_only) as (Hskip & _ & Horigin).
  split; [|split].
  - apply (Hskip (splitlines Tuple_file.converted) (Pos 1 0 1 37)). reflexivity.
  - apply (Hskip (splitlines Tuple_file.converted) (Pos 1 0 1 37) _ _ _ new_analyzer).
    reflexivity.
  - apply (Horigin (splitlines Tuple_file.converted) Tuple_file.converted_tree
             (Analyzer
                [CandJoinedStr (1, 39) (py "hi {}") [py "y"]
                   (pyq "_('Error: {} failed badly').format(x), f`hi {y}`")]
                {[ (1, 0) ]})).
    + vm_compute. reflexivity.
    + by left.
Defined.

(** C2 as stated fails: the second of two f-strings on one line is
    rejected while the line starts with an f-string, and accepted once the
    first run has made the line start with [_(]. *)
Lemma second_run_finds_a_new_candidate :
  @analyze_file symbols_only Tuple_file.parser Tuple_file.self Tuple_file.files
    Tuple_file.path
  ≫= (fun r => Some r.1)
  = Some [Tuple_file.first_info] /\
  (@scan_file symbols_only Tuple_file.parser writable Tuple_file.self Tuple_file.files
     Tuple_file.path
   ≫= fun r => r.2 !! Tuple_file.path)
  = Some (ascii_bytes Tuple_file.converted) /\
  @rerun_candidates symbols_only Tuple_file.parser writable Tuple_file.self Tuple_file.files
    Tuple_file.path
  = Some [CandJoinedStr (1, 39) (py "hi {}") [py "y"]
            (pyq "_('Error: {} failed badly').format(x), f`hi {y}`")].
Proof. split; [|split]; vm_compute; reflexivity. Qed.

(** ** The order of candidates and of replacements *)

Lemma key_lt_spec (a b : Z * Z) :
  key_lt a b = true <-> a.1 < b.1 \/ (a.1 = b.1 /\ a.2 < b.2).
Proof.
  unfold key_lt. rewrite orb_true_iff, andb_true_iff, !Z.ltb_lt, Z.eqb_eq. tauto.
Qed.

Lemma key_ge_spec (a b : Z * Z) :
  key_lt a b = false <-> b.1 < a.1 \/ (b.1 = a.1 /\ b.2 <= a.2).
Proof.
  rewrite <- not_true_iff_false, key_lt_spec. lia.
Qed.

Lemma key_ge_trans (a b c : conversion) : key_ge a b -> key_ge b c -> key_ge a c.
Proof. unfold key_ge. rewrite !key_ge_spec. lia. Qed.

Lemma insert_desc_perm (x : conversion) (l : list conversion) :
  insert_desc x l ≡ₚ x :: l.
Proof.
  induction l as [|y l IH]; [done|]. cbn [insert_desc].
  destruct (key_lt _ _); [|done]. rewrite IH. apply Permutation_swap.
Qed.

Lemma sorted_reverse_perm (l : list conversion) : sorted_reverse l ≡ₚ l.
Proof.
  induction l as [|x l IH]; [done|]. cbn [sorted_reverse foldr].
  rewrite insert_desc_perm. by f_equiv.
Qed.

Lemma insert_desc_sorted (x : conversion) (l : list conversion) :
  StronglySorted key_ge l -> StronglySorted key_ge (insert_desc x l).
Proof.
  induction 1 as [|y l Hl IH Hy]; cbn [insert_desc].
  - repeat constructor.
  - destruct (key_lt (sort_key x) (sort_key y)) eqn:E.
    + constructor; [done|]. rewrite insert_desc_perm. constructor; [|done].
      unfold key_ge. apply key_lt_spec in E. apply key_ge_spec. lia.
    + constructor; [by constructor|]. constructor; [done|].
      eapply Forall_impl; [exact Hy|]. intros z Hz. by eapply key_ge_trans.
Qed.

Lemma sorted_reverse_sorted (l : list conversion) :
  StronglySorted key_ge (sorted_reverse l).
Proof.
  induction l as [|x l IH]; [constructor|]. by apply insert_desc_sorted.
Qed.

(** C9 as amended.  The list the patch engine walks is the recorded
    conversions rearranged in descending order of (start line, start
    column): the order by position is made there, whatever order the
    analyzer returned its candidates in. *)
Theorem replacements_are_sorted_descending (conversions_made : list conversion) :
  sorted_reverse conversions_made ≡ₚ conversions_made /\
  StronglySorted
    (fun a b => key_lt (sort_key a) (sort_key b) = false)
    (sorted_reverse conversions_made).
Proof. split; [apply sorted_reverse_perm|apply sorted_reverse_sorted]. Qed.

(** C9 as stated fails: for a [print] call the string constant among the
    arguments is recorded before the f-string that precedes it on the
    line. *)
Lemma candidates_are_not_sorted :
  exists found,
    @analyze symbols_only Print_file.source Print_file.tree = Some found /\
    map cand_location found = [(1, 35); (1, 6)] /\
    ~ candidates_ascending found.
Proof.
  exists [CandConstant (1, 35)
            (pyq "print(f`Error: {x} happened here`, `Hello world again`)")
            (py "Hello world again");
          CandJoinedStr (1, 6) (py "Error: {} happened here") [py "x"]
            (pyq "print(f`Error: {x} happened here`, `Hello world again`)")].
  split; [vm_compute; reflexivity|]. split; [reflexivity|].
  intros Hs. inversion Hs as [|? ? _ Hrel]; subst.
  inversion Hrel as [|? ? Hle]; subst. vm_compute in Hle. discriminate.
Qed.

(** ** Conflicting replacements *)

Section Conflicts.
Variable path : pystr.
Variable source_bytes : pybytes.
Variable line_starts : list Z.

Lemma patch_loop_app (l1 l2 : list conversion) (st : patch_state) :
  patch_loop path source_bytes line_starts (l1 ++ l2) st
  = match patch_loop path source_bytes line_starts l1 st with
    | (st1, true) => patch_loop path source_bytes line_starts l2 st1
    | (st1, false) => (st1, false)
    end.
Proof.
  revert st. induction l1 as [|rep l1 IH]; intros st; [done|].
  cbn [app patch_loop]. destruct (patch_step _ _ _ _ _); [apply IH|done].
Qed.

Lemma patch_step_drop (rep : conversion) (st : patch_state) (start_idx end_idx : Z) :
  byte_index line_starts (start_line rep) (start_col rep) = Some start_idx ->
  byte_index line_starts (end_line rep) (end_col rep) = Some end_idx ->
  last_pos st <= start_idx ->
  patch_step path source_bytes line_starts rep st = Some st.
Proof.
  intros Hs He Hle. unfold patch_step. rewrite Hs, He. cbn.
  apply Z.leb_le in Hle. by rewrite Hle.
Qed.
End Conflicts.

Section Silent.
Context `{UnicodeData} `{Parser} `{Disk}.

(** C7 as amended.  A replacement whose start lies at or beyond the
    cursor when the loop reaches it is skipped: the loop ends in the same
    state, with the same parts, cursor and recorded conversions, as if
    the replacement had not been in the list, and the replacements after
    it are applied as usual.  Nothing is printed for it: a call of
    [convert_file] that returns [True] has printed nothing. *)
Theorem conflicting_replacement_is_skipped :
  (forall (path : pystr) (source_bytes : pybytes) (line_starts : list Z)
          (before after : list conversion) (rep : conversion)
          (st st1 : patch_state) (start_idx end_idx : Z),
      patch_loop path source_bytes line_starts before st = (st1, true) ->
      byte_index line_starts (start_line rep) (start_col rep) = Some start_idx ->
      byte_index line_starts (end_line rep) (end_col rep) = Some end_idx ->
      last_pos st1 <= start_idx ->
      patch_loop path source_bytes line_starts (before ++ rep :: after) st
      = patch_loop path source_bytes line_starts (before ++ after) st) /\
  (forall (self : converter) (files : gmap pystr pybytes) (path : pystr)
          (fstrings : list candidate),
      returned (convert_file self files path fstrings) = true ->
      printed (convert_file self files path fstrings) = []).
Proof.
  split.
  - intros path source_bytes line_starts before after rep st st1 s e Hb Hs He Hle.
    rewrite !patch_loop_app, Hb. cbn [patch_loop].
    by rewrite (patch_step_drop _ _ _ _ _ _ _ Hs He Hle).
  - intros self files path fstrings. unfold convert_file.
    destruct fstrings as [|c cs]; [done|].
    destruct (files !! path) as [source_bytes|]; [|done].
    destruct (decode_utf8 source_bytes) as [source_code|]; [|done].
    destruct (ast_parse source_code) as [tree|]; [|done].
    destruct (transform (candidate_table (c :: cs)) tree []) as [[|m made]|]; [done| |done].
    destruct (apply_replacements path source_bytes (m :: made)) as [[final|] more];
      [|done].
    destruct (dry_run self); [done|]. by destruct (write_outcome files path final).
Qed.
End Silent.

Lemma conflicting_replacement_is_skipped_witness :
  let start := PatchState [] 19 [] in
  patch_loop Spec_file.path Patch_inputs.source (line_start_indices Patch_inputs.source)
    Patch_inputs.conflicting start
  = patch_loop Spec_file.path Patch_inputs.source (line_start_indices Patch_inputs.source)
      [Patch_inputs.rep 1 2 1 6 "_('cd')"] start.
Proof.
  apply (proj1 (@conflicting_replacement_is_skipped symbols_only Spec_file.parser writable)
           Spec_file.path Patch_inputs.source (line_start_indices Patch_inputs.source)
           [Patch_inputs.rep 1 2 1 6 "_('cd')"] [] (Patch_inputs.rep 1 2 1 6 "_('CD')")
           (PatchState [] 19 [])
           (fst (patch_loop Spec_file.path Patch_inputs.source
                   (line_start_indices Patch_inputs.source)
                   [Patch_inputs.rep 1 2 1 6 "_('cd')"] (PatchState [] 19 [])))
           2 6).
  - vm_compute. reflexivity.
  - vm_compute. reflexivity.
  - vm_compute. reflexivity.
  - vm_compute. discriminate.
Defined.

(** C7 as stated fails on "logged": the transformer records the f-string
    and its format specifier, which share a position; the second
    replacement is dropped, the call succeeds and prints nothing. *)
Lemma dropped_replacement_is_not_logged :
  let o := @convert_file symbols_only Spec_file.parser writable Spec_file.self Spec_file.files
             Spec_file.path Spec_file.candidates in
  (length <$> @transform symbols_only Spec_file.parser
                (candidate_table Spec_file.candidates) Spec_file.tree [])
  = Some 2%nat /\
  returned o = true /\
  length (all_conversions (self_after o)) = 1%nat /\
  printed o = [].
Proof. vm_compute. repeat split; reflexivity. Qed.

(** ** The patch engine against the specification's reading *)

Lemma py_slice_between {A} (l : list A) (a b : Z) :
  0 <= a -> a <= b -> b <= Z.of_nat (length l) ->
  py_slice l a b = take (Z.to_nat (b - a)) (drop (Z.to_nat a) l).
Proof.
  intros Ha Hab Hb. unfold py_slice, slice_bound.
  destruct (a <? 0) eqn:Ea; [apply Z.ltb_lt in Ea; lia|].
  destruct (b <? 0) eqn:Eb; [apply Z.ltb_lt in Eb; lia|].
  rewrite !Z.min_l by lia. done.
Qed.

Lemma py_slice_all {A} (l : list A) : py_slice l 0 (Z.of_nat (length l)) = l.
Proof.
  rewrite py_slice_between by lia. rewrite Z.sub_0_r, Nat2Z.id. cbn [Z.to_nat drop].
  apply firstn_all.
Qed.

Lemma splice_from_snoc (src : pybytes) (cursor : Z) (spans : list span) (sp : span)
    (limit : Z) :
  splice_from src cursor (spans ++ [sp]) limit
  = splice_from src cursor spans (span_start sp) ++ span_bytes sp
      ++ bytes_between src (span_stop sp) limit.
Proof.
  revert cursor. induction spans as [|x spans IH]; intros cursor; cbn [app splice_from].
  - done.
  - rewrite IH, <- !app_assoc. done.
Qed.

Lemma spans_in_order_snoc (cursor : Z) (spans : list span) (sp : span) (limit : Z) :
  spans_in_order cursor (spans ++ [sp]) limit <->
  spans_in_order cursor spans (span_start sp) /\
  span_start sp < span_stop sp /\ span_stop sp <= limit.
Proof.
  revert cursor. induction spans as [|x spans IH]; intros cursor; cbn [app spans_in_order].
  - tauto.
  - rewrite IH. tauto.
Qed.

Lemma spans_in_order_le (cursor : Z) (spans : list span) (limit : Z) :
  spans_in_order cursor spans limit -> cursor <= limit.
Proof.
  revert cursor. induction spans as [|x spans IH]; intros cursor; cbn [spans_in_order].
  - done.
  - intros (H1 & H2 & H3). apply IH in H3. lia.
Qed.

Section Loop.
Variable path : pystr.
Variable src : pybytes.

Let idx := line_start_indices src.

(** Walking non-overlapping replacements from the last to the first
    builds, in reverse, what the specification reads off from left to
    right. *)
Lemma patch_loop_descending (asc : list conversion) (spans : list span)
    (st : patch_state) :
  Forall2 (fun rep sp => span_of src rep = Some sp) asc spans ->
  spans_in_order 0 spans (last_pos st) ->
  last_pos st <= Z.of_nat (length src) ->
  exists st',
    patch_loop path src idx (rev asc) st = (st', true) /\
    reassemble src st'
    = splice_from src 0 spans (last_pos st) ++ concat (rev (new_source_parts st)).
Proof.
  revert spans st. induction asc as [|rep asc IH] using rev_ind;
    intros spans st Hspans Horder Hlen.
  - apply Forall2_nil_inv_l in Hspans as ->. exists st. split; [done|].
    unfold reassemble. rewrite rev_app_distr. cbn [rev app concat splice_from].
    cbn in Horder. rewrite py_slice_between by lia. done.
  - apply Forall2_app_inv_l in Hspans as (spans' & last & Hspans' & Hlast & ->).
    apply Forall2_cons_inv_l in Hlast as (sp & nil & Hsp & Hnil & ->).
    apply Forall2_nil_inv_l in Hnil as ->.
    apply spans_in_order_snoc in Horder as (Horder' & Hne & Hstop).
    pose proof (spans_in_order_le _ _ _ Horder') as Hstart.
    rewrite rev_app_distr. cbn [rev app patch_loop].
    unfold span_of in Hsp. fold idx in Hsp.
    destruct (byte_index idx (start_line rep) (start_col rep)) as [s|] eqn:Es; [|done].
    destruct (byte_index idx (end_line rep) (end_col rep)) as [e|] eqn:Ee; [|done].
    destruct (utf8_encode (replacement_text rep)) as [b|] eqn:Eb; [|done].
    cbn in Hsp. inversion Hsp; subst sp. cbn [span_start span_stop span_bytes] in *.
    unfold patch_step. rewrite Es, Ee. cbn [mbind option_bind].
    destruct (last_pos st <=? s) eqn:Ecmp; [apply Z.leb_le in Ecmp; lia|].
    rewrite Eb. cbn [mbind option_bind].
    match goal with
    | |- context [patch_loop _ _ _ _ ?st1] =>
        destruct (IH spans' st1) as (st' & Hloop & Hre); [done|done|cbn; lia|]
    end.
    exists st'. split; [exact Hloop|].
    rewrite Hre. cbn [last_pos new_source_parts].
    rewrite splice_from_snoc. cbn [span_start span_stop span_bytes].
    rewrite !rev_app_distr. cbn [rev app concat].
    rewrite py_slice_between by lia. unfold bytes_between.
    rewrite <- !app_assoc. done.
Qed.
End Loop.

(** The line index never decreases. *)
Lemma line_starts_mono (lines : list pybytes) (pos : Z) (i j : nat) (a b : Z) :
  (i <= j)%nat ->
  (pos :: line_starts_from pos lines) !! i = Some a ->
  (pos :: line_starts_from pos lines) !! j = Some b ->
  a <= b.
Proof.
  revert pos i j a b. induction lines as [|line rest IH]; intros pos i j a b Hij Hi Hj.
  - cbn [line_starts_from] in *. destruct i, j; cbn in *; try lia; simplify_eq; lia.
  - cbn [line_starts_from] in *.
    destruct i as [|i], j as [|j]; cbn [lookup list_lookup] in *; try lia.
    + simplify_eq. lia.
    + inversion Hi; subst.
      assert (a + Z.of_nat (length line) <= b); [|lia].
      eapply (IH _ 0%nat j); [lia|done|done].
    + eapply (IH _ i j); [lia|done|done].
Qed.

Lemma py_getitem_nonneg {A} (l : list A) (i : Z) (a : A) :
  0 <= i -> l !! Z.to_nat i = Some a -> py_getitem l i = Some a.
Proof.
  intros Hi Hl. unfold py_getitem.
  pose proof (lookup_lt_Some _ _ _ Hl) as Hlt.
  replace ((0 <=? i) && (i <? Z.of_nat (length l))) with true; [done|].
  symmetry. apply andb_true_iff. rewrite Z.leb_le, Z.ltb_lt. lia.
Qed.

Lemma elem_of_rev {A} (l : list A) (x : A) : x ∈ rev l <-> x ∈ l.
Proof. rewrite !list_elem_of_In. symmetry. apply in_rev. Qed.

Section Offsets.
Variable src : pybytes.

(** Among positions that point into their lines, a smaller (line, column)
    key is a byte index that is not larger. *)
Lemma key_lt_offset_le (l1 c1 l2 c2 o1 o2 : Z) :
  in_line (line_start_indices src) l1 c1 ->
  in_line (line_start_indices src) l2 c2 ->
  byte_index (line_start_indices src) l1 c1 = Some o1 ->
  byte_index (line_start_indices src) l2 c2 = Some o2 ->
  key_lt (l1, c1) (l2, c2) = true ->
  o1 <= o2.
Proof.
  intros (Hl1 & Hc1 & a1 & b1 & Ha1 & Hb1 & Hin1) (Hl2 & Hc2 & a2 & b2 & Ha2 & Hb2 & Hin2)
    Ho1 Ho2 Hlt.
  unfold byte_index in Ho1, Ho2.
  rewrite (py_getitem_nonneg _ (l1 - 1) _ ltac:(lia) Ha1) in Ho1.
  rewrite (py_getitem_nonneg _ (l2 - 1) _ ltac:(lia) Ha2) in Ho2.
  cbn in Ho1, Ho2. simplify_eq.
  apply key_lt_spec in Hlt. cbn [fst snd] in Hlt.
  destruct Hlt as [Hlt|[-> Hlt]].
  - assert (b1 <= a2); [|lia].
    eapply (line_starts_mono _ 0 (Z.to_nat l1) (Z.to_nat (l2 - 1))); [lia|done|done].
  - simplify_eq. lia.
Qed.

Lemma later_start_sorts_first (a b : conversion) (sa sb : span) :
  starts_in_line src a -> starts_in_line src b ->
  span_of src a = Some sa -> span_of src b = Some sb ->
  start_offset src a < start_offset src b ->
  key_ge b a.
Proof.
  intros Ha Hb Hsa Hsb Hlt. unfold key_ge.
  destruct (key_lt (sort_key b) (sort_key a)) eqn:E; [exfalso|done].
  unfold span_of in Hsa, Hsb. unfold start_offset in Hlt.
  destruct (byte_index _ (start_line a) _) as [oa|] eqn:Ea; [|done].
  destruct (byte_index _ (start_line b) _) as [ob|] eqn:Eb; [|done].
  cbn in Hlt.
  pose proof (key_lt_offset_le _ _ _ _ _ _ Hb Ha Eb Ea E). lia.
Qed.

Lemma spans_start_ascending (asc : list conversion) (spans : list span) (cursor limit : Z) :
  Forall2 (fun rep sp => span_of src rep = Some sp) asc spans ->
  spans_in_order cursor spans limit ->
  StronglySorted (fun a b => start_offset src a < start_offset src b) asc /\
  Forall (fun a => cursor <= start_offset src a) asc.
Proof.
  intros Hf. revert cursor. induction Hf as [|rep sp asc spans Hsp Hf IH]; intros cursor Ho.
  - split; constructor.
  - cbn [spans_in_order] in Ho. destruct Ho as (Hc & Hne & Ho).
    destruct (IH _ Ho) as (Hss & Hall).
    assert (Hoff : start_offset src rep = span_start sp).
    { unfold span_of in Hsp. unfold start_offset.
      destruct (byte_index _ (start_line rep) _) as [s|]; [|done]. cbn in *.
      destruct (byte_index _ (end_line rep) _) as [e|]; [|done]. cbn in *.
      destruct (utf8_encode _); [|done]. cbn in Hsp. by inversion Hsp. }
    split.
    + constructor; [done|]. eapply Forall_impl; [exact Hall|]. cbn. intros; lia.
    + constructor; [lia|]. eapply Forall_impl; [exact Hall|]. cbn. intros; lia.
Qed.

Lemma start_offset_injective (l : list conversion) (x y : conversion) :
  StronglySorted (fun a b => start_offset src a < start_offset src b) l ->
  x ∈ l -> y ∈ l -> start_offset src x = start_offset src y -> x = y.
Proof.
  induction 1 as [|z l Hl IH Hz]; intros Hx Hy Heq.
  - by apply not_elem_of_nil in Hx.
  - rewrite Forall_forall in Hz.
    apply elem_of_cons in Hx as [->|Hx], Hy as [->|Hy]; [done| | |by apply IH].
    + apply Hz in Hy. lia.
    + apply Hz in Hx. lia.
Qed.

Lemma descending_keys (asc : list conversion) (spans : list span) :
  Forall (starts_in_line src) asc ->
  Forall2 (fun rep sp => span_of src rep = Some sp) asc spans ->
  StronglySorted (fun a b => start_offset src a < start_offset src b) asc ->
  StronglySorted key_ge (rev asc).
Proof.
  intros Hin Hf Hss. revert spans Hin Hf.
  induction Hss as [|x l Hl IH Hx]; intros spans Hin Hf; [constructor|].
  apply Forall2_cons_inv_l in Hf as (sx & spans' & Hsx & Hf & ->).
  apply Forall_cons in Hin as [Hinx Hin].
  cbn [rev]. apply StronglySorted_app.
  split; [|split; [by eapply IH|repeat constructor]].
  intros x1 x2 Hx1 Hx2. apply list_elem_of_singleton in Hx2 as ->.
  rewrite elem_of_rev in Hx1.
  destruct (proj1 (list_elem_of_lookup _ _) Hx1) as (i & Hi).
  destruct (Forall2_lookup_l _ _ _ _ _ Hf Hi) as (s1 & _ & Hs1).
  eapply later_start_sorts_first; [done| |done|done|].
  - rewrite Forall_forall in Hin. by apply Hin.
  - rewrite Forall_forall in Hx. by apply Hx.
Qed.

(** Sorting the replacements puts non-overlapping ones in the reverse of
    their order in the file. *)
Lemma sorted_reverse_of_disjoint (reps asc : list conversion) (spans : list span) :
  asc ≡ₚ reps ->
  Forall (starts_in_line src) reps ->
  Forall2 (fun rep sp => span_of src rep = Some sp) asc spans ->
  spans_in_order 0 spans (Z.of_nat (length src)) ->
  sorted_reverse reps = rev asc.
Proof.
  intros Hperm Hin Hf Ho.
  destruct (spans_start_ascending _ _ _ _ Hf Ho) as (Hss & _).
  assert (Hin' : Forall (starts_in_line src) asc) by (by rewrite Hperm).
  apply (StronglySorted_unique_strong key_ge).
  - intros x1 x2 Hx1 Hx2 H12 H21.
    rewrite sorted_reverse_perm, <- Hperm in Hx1. rewrite elem_of_rev in Hx2.
    apply (start_offset_injective asc); [done..|].
    unfold key_ge in H12, H21. apply key_ge_spec in H12, H21.
    unfold start_offset. unfold sort_key in *. cbn [fst snd] in *.
    replace (start_line x1) with (start_line x2) by lia.
    replace (start_col x1) with (start_col x2) by lia. done.
  - apply sorted_reverse_sorted.
  - by eapply descending_keys.
  - rewrite sorted_reverse_perm, <- Hperm. apply Permutation_rev.
Qed.
End Offsets.

(** C1.  With no replacement the output is the input.  With replacements
    that each point into the file and do not overlap, in whatever order
    they are listed, the output is the input with each replaced range
    giving way to the replacement's bytes and every byte outside the
    ranges kept, in place. *)
Theorem patch_engine_guarantee (path : pystr) (src : pybytes) :
  fst (apply_replacements path src []) = Some src /\
  forall (reps asc : list conversion) (spans : list span),
    asc ≡ₚ reps ->
    Forall (starts_in_line src) reps ->
    mapM (span_of src) asc = Some spans ->
    spans_in_order 0 spans (Z.of_nat (length src)) ->
    fst (apply_replacements path src reps) = Some (splice src spans).
Proof.
  split.
  - unfold apply_replacements. cbn [sorted_reverse foldr patch_loop fst].
    unfold reassemble. cbn [new_source_parts last_pos app rev concat].
    by rewrite py_slice_all, app_nil_r.
  - intros reps asc spans Hperm Hin Hspans Ho.
    apply mapM_Some_1 in Hspans.
    unfold apply_replacements.
    rewrite (sorted_reverse_of_disjoint src reps asc spans) by done.
    destruct (patch_loop_descending path src asc spans
                (PatchState [] (Z.of_nat (length src)) []))
      as (st' & Hloop & Hre); [done|done|cbn; lia|].
    rewrite Hloop. cbn [fst]. rewrite Hre. cbn [new_source_parts last_pos rev concat].
    by rewrite app_nil_r.
Qed.

Lemma patch_engine_guarantee_witness :
  fst (apply_replacements Spec_file.path Patch_inputs.source Patch_inputs.disjoint)
  = Some (ascii_bytes (pyq "ab_('cd')ef" ++ [10] ++ pyq "gh_('ij')" ++ [10])).
Proof.
  apply (proj2 (patch_engine_guarantee Spec_file.path Patch_inputs.source)
           Patch_inputs.disjoint (rev Patch_inputs.disjoint)
           [Span 2 6 (ascii_bytes (py "_('cd')")); Span 11 15 (ascii_bytes (py "_('ij')"))]).
  - symmetry. apply Permutation_rev.
  - constructor; [|constructor; [|constructor]];
      unfold starts_in_line, in_line; cbn [start_line start_col Patch_inputs.rep].
    + split; [lia|]. split; [lia|]. exists 9, 16.
      split; [vm_compute; reflexivity|]. split; [vm_compute; reflexivity|lia].
    + split; [lia|]. split; [lia|]. exists 0, 9.
      split; [vm_compute; reflexivity|]. split; [vm_compute; reflexivity|lia].
  - vm_compute. reflexivity.
  - cbn. lia.
Defined.

(** * More of the converter

    Further properties of the classifier, the analyzer, the transformer
    and the patch engine as wholes, and of the run that drives them. *)

(** ** The classifier *)

Lemma lstrip_by_head (f : Z -> bool) (s : pystr) (c : Z) (r : pystr) :
  lstrip_by f s = c :: r -> f c = false.
Proof.
  induction s as [|a s IH]; [done|]. cbn [lstrip_by].
  destruct (f a) eqn:E; [done|]. intros Heq. by inversion Heq; subst.
Qed.

Lemma lstrip_by_nil (f : Z -> bool) (s : pystr) :
  lstrip_by f s = [] -> forallb f s = true.
Proof.
  induction s as [|a s IH]; [done|]. cbn [lstrip_by forallb].
  destruct (f a); [done|]. intros Heq. inversion Heq.
Qed.

Lemma forallb_rev {A} (f : A -> bool) (l : list A) :
  forallb f (rev l) = forallb f l.
Proof.
  induction l as [|a l IH]; [done|]. cbn [rev forallb].
  rewrite forallb_app, IH. cbn. rewrite andb_true_r. apply andb_comm.
Qed.

Lemma strip_by_nil (f : Z -> bool) (s : pystr) :
  strip_by f s = [] -> forallb f s = true.
Proof.
  unfold strip_by. intros Hs.
  assert (Hr : lstrip_by f (rev (lstrip_by f s)) = []).
  { destruct (lstrip_by f (rev (lstrip_by f s))) as [|c r]; [done|].
    cbn [rev] in Hs. by destruct (rev r). }
  apply lstrip_by_nil in Hr. rewrite forallb_rev in Hr.
  destruct (lstrip_by f s) as [|c r] eqn:E.
  - by apply lstrip_by_nil.
  - apply lstrip_by_head in E. cbn [forallb] in Hr. by rewrite E in Hr.
Qed.

Lemma split_from_all_space (s : pystr) :
  forallb isspace s = true -> split_from [] s = [].
Proof.
  induction s as [|c s IH]; [done|]. cbn [forallb split_from].
  intros [Hc Hs]%andb_true_iff. rewrite Hc. by apply IH.
Qed.

Lemma single_char_set_replicate (c : Z) (n : nat) :
  single_char_set (replicate (S n) c) = true.
Proof.
  cbn [replicate single_char_set]. induction n as [|n IH]; [done|].
  cbn [replicate forallb]. by rewrite Z.eqb_refl.
Qed.

Section ClassifierRules.
Context `{UnicodeData}.

(** X1.  A string that is empty or consists of whitespace only is never
    user-facing, whatever the line it stands on. *)
Theorem whitespace_is_never_user_facing (content context : pystr) :
  strip content = [] -> is_user_facing_string content context = false.
Proof.
  intros Hs. pose proof (split_from_all_space _ (strip_by_nil _ _ Hs)) as Hsplit.
  unfold is_user_facing_string. cbv zeta. fold (split content) in Hsplit.
  rewrite Hsplit. cbn [concat length forallb Nat.leb andb]. rewrite orb_true_r.
  repeat match goal with
         | |- (if ?b then false else _) = false => destruct b; [reflexivity|]
         end.
  reflexivity.
Qed.

(** X2.  A string that is, apart from surrounding whitespace, one of the
    characters [=], [-], [_], [~] repeated any number of times is never
    user-facing. *)
Theorem formatting_runs_are_rejected (content context : pystr) (c : Z) (n : nat) :
  strip content = replicate (S n) c ->
  char_in c (py "=-_~") = true ->
  is_user_facing_string content context = false.
Proof.
  intros Hs Hc. unfold is_user_facing_string. cbv zeta. rewrite Hs.
  rewrite single_char_set_replicate.
  change (default 0 (head (replicate (S n) c))) with c. rewrite Hc.
  cbn [andb]. by destruct (str_in _ _).
Qed.

(** X3.  The reject rules come first: a string that contains one of the
    technical patterns (in any letter case), or that contains a slash or
    backslash and no space, is never user-facing, however many
    user-facing keywords or pictographs it holds and whatever its
    line. *)
Theorem reject_rules_take_precedence (content context : pystr) :
  existsb (contains (lower content)) technical_patterns = true \/
  (char_in 47 content || char_in 92 content) && negb (char_in 32 content) = true ->
  is_user_facing_string content context = false.
Proof.
  intros Hrule. unfold is_user_facing_string. cbv zeta.
  repeat match goal with
         | |- (if ?b then false else _) = false => destruct b eqn:?; [reflexivity|]
         end.
  destruct Hrule; congruence.
Qed.

(** X4.  A string of at most two words that holds none of the
    pictographs is user-facing only on a line that starts with
    [print(], [input(] or [_(]. *)
Theorem short_strings_need_a_sink_context (content context : pystr) :
  existsb (contains content) user_emojis = false ->
  (length (split content) <= 2)%nat ->
  existsb (startswith (lower (strip context))) [py "print("; py "input("; py "_("] = false ->
  is_user_facing_string content context = false.
Proof.
  intros Hemoji Hwords Hctx. unfold is_user_facing_string. cbv zeta.
  rewrite Hemoji, Hctx.
  replace (2 <? length (split content))%nat with false
    by (symmetry; apply Nat.ltb_ge; lia).
  replace (3 <=? length (split content))%nat with false
    by (symmetry; apply Nat.leb_gt; lia).
  cbn [andb].
  repeat match goal with
         | |- (if ?b then false else _) = false => destruct b; [reflexivity|]
         end.
  reflexivity.
Qed.
End ClassifierRules.

Lemma whitespace_is_never_user_facing_witness :
  @is_user_facing_string symbols_only [32; 9; 10; 32] (py "print(x)") = false.
Proof.
  apply (@whitespace_is_never_user_facing symbols_only). reflexivity.
Defined.

Lemma formatting_runs_are_rejected_witness :
  @is_user_facing_string symbols_only (py "  ~~~~~~~~~~~~ ") (py "print(x)") = false.
Proof.
  apply (@formatting_runs_are_rejected symbols_only _ _ 126 11); reflexivity.
Defined.

Lemma reject_rules_take_precedence_witness :
  @is_user_facing_string symbols_only
    (0x2705 :: py " Update complete: see Setup.PY for the version") (py "print(x)") = false.
Proof.
  apply (@reject_rules_take_precedence symbols_only). left. reflexivity.
Defined.

Lemma short_strings_need_a_sink_context_witness :
  @is_user_facing_string symbols_only (py "Error: failed") (py "return msg") = false.
Proof.
  apply (@short_strings_need_a_sink_context symbols_only); [reflexivity|vm_compute; lia|reflexivity].
Defined.

(** ** Invariants of the analyzer *)

Lemma py_getitem_elem_of {A} (l : list A) (i : Z) (x : A) :
  py_getitem l i = Some x -> x ∈ l.
Proof.
  unfold py_getitem. intros Hx.
  destruct (_ && _); [by eapply list_elem_of_lookup_2|].
  destruct (_ && _); [by eapply list_elem_of_lookup_2|done].
Qed.

Section AnalyzerInvariant.
Context `{UnicodeData}.
Variable source_lines : list pystr.

(** A property of the analyzer's state that marking a location keeps and
    that the two places that record a candidate keep. *)
Variable Inv : analyzer -> Prop.

Hypothesis Inv_mark : forall st key,
  Inv st -> Inv (Analyzer (strings_to_convert st) ({[key]} ∪ translated_locations st)).

Hypothesis Inv_constant : forall st p value line,
  location_key p ∉ translated_locations st ->
  py_getitem source_lines (lineno p - 1) = Some line ->
  is_user_facing_string value line = true ->
  Inv st ->
  Inv (Analyzer
         (strings_to_convert st ++ [CandConstant (location_key p) (strip line) value])
         ({[location_key p]} ∪ translated_locations st)).

Hypothesis Inv_joined : forall st p template variables line,
  location_key p ∉ translated_locations st ->
  py_getitem source_lines (lineno p - 1) = Some line ->
  is_user_facing_string template line = true ->
  Inv st ->
  Inv (Analyzer
         (strings_to_convert st
            ++ [CandJoinedStr (location_key p) template variables (strip line)])
         (translated_locations st)).

Lemma scan_args_preserves (args : list node) (st st' : analyzer) :
  Inv st -> scan_args source_lines args st = Some st' -> Inv st'.
Proof.
  revert st. induction args as [|a args IH]; intros st Hst Hs.
  - cbn in Hs. by inversion Hs; subst.
  - destruct a as [p id|p [s|t i] ku|p v a|p f args' kws|p vs|p e conv spec|p prec text fs];
      cbn [scan_args] in Hs; try (by eapply IH).
    destruct (bool_decide _) eqn:Ekey; [by eapply IH|].
    apply bool_decide_eq_false in Ekey.
    destruct (py_getitem _ _) as [line|] eqn:Eline; [|done]. cbn in Hs.
    destruct (is_user_facing_string s line) eqn:Euf; [|by eapply IH].
    eapply IH; [|exact Hs]. by apply Inv_constant.
Qed.

Lemma visit_JoinedStr_preserves (p : pos) (vs : list node) (st st' : analyzer) :
  Inv st -> visit_JoinedStr source_lines p vs st = Some st' -> Inv st'.
Proof.
  intros Hst Hv. unfold visit_JoinedStr in Hv.
  destruct (bool_decide _) eqn:Ekey; [by inversion Hv; subst|].
  apply bool_decide_eq_false in Ekey.
  destruct (joined_parts vs) as [[parts vars]|]; [|done]. cbn in Hv.
  destruct (py_getitem _ _) as [line|] eqn:Eline; [|done]. cbn in Hv.
  destruct (is_user_facing_string _ _) eqn:Euf; inversion Hv; subst; [|done].
  by apply Inv_joined.
Qed.

Lemma visit_list_preserves (l : list node) :
  Forall (fun n => forall st st', Inv st -> visit source_lines n st = Some st' -> Inv st') l ->
  forall st st', Inv st -> visit_list source_lines l st = Some st' -> Inv st'.
Proof.
  induction 1 as [|n l Hn Hl IH]; intros st st' Hst Hv.
  - cbn in Hv. by inversion Hv; subst.
  - cbn [visit_list] in Hv.
    destruct (visit source_lines n st) as [st1|] eqn:E1; [|done]. cbn in Hv.
    eapply IH; [|exact Hv]. by eapply Hn.
Qed.

Lemma visit_preserves (n : node) (st st' : analyzer) :
  Inv st -> visit source_lines n st = Some st' -> Inv st'.
Proof.
  revert st st'.
  induction n as [p id|p v ku|p v a IHv|p f args kws IHf IHargs IHkws|p vs IHvs
                 |p e conv spec IHe IHspec|p prec text fs IHfs]
    using node_ind_strong; intros st st' Hst Hv.
  - cbn in Hv. by inversion Hv; subst.
  - cbn in Hv. by inversion Hv; subst.
  - cbn [visit] in Hv. by eapply IHv.
  - rewrite visit_Call_eq in Hv.
    destruct (is_translation_call f).
    { inversion Hv; subst. by apply Inv_mark. }
    destruct (if str_in _ _ then _ else _) as [st1|] eqn:E1; [|done]. cbn in Hv.
    destruct (visit source_lines f st1) as [st2|] eqn:E2; [|done]. cbn in Hv.
    destruct (visit_list source_lines args st2) as [st3|] eqn:E3; [|done]. cbn in Hv.
    assert (Inv st1) as H1.
    { destruct (str_in _ _); [by eapply scan_args_preserves|by inversion E1; subst]. }
    eapply (visit_list_preserves kws); [done| |exact Hv].
    eapply (visit_list_preserves args); [done| |exact E3].
    by eapply IHf.
  - cbn [visit] in Hv. by eapply visit_JoinedStr_preserves.
  - cbn [visit] in Hv.
    destruct (visit source_lines e st) as [st1|] eqn:E1; [|done]. cbn in Hv.
    destruct spec as [s|].
    + eapply (IHspec s eq_refl); [|exact Hv]. by eapply IHe.
    + inversion Hv; subst. by eapply IHe.
  - rewrite visit_Other_eq in Hv. by eapply (visit_list_preserves fs).
Qed.
End AnalyzerInvariant.

(** ** Sinks *)

Section Sinks.
Context `{UnicodeData}.
Variable source_lines : list pystr.

Lemma scan_args_keeps (args : list node) (st st' : analyzer) (c : candidate) :
  scan_args source_lines args st = Some st' ->
  c ∈ strings_to_convert st -> c ∈ strings_to_convert st'.
Proof.
  intros Hs Hc. revert Hs.
  apply (scan_args_preserves source_lines (fun s => c ∈ strings_to_convert s)); [|done].
  intros s p value line _ _ _ Hin. cbn. apply elem_of_app. by left.
Qed.

Lemma visit_keeps (n : node) (st st' : analyzer) (c : candidate) :
  visit source_lines n st = Some st' ->
  c ∈ strings_to_convert st -> c ∈ strings_to_convert st'.
Proof.
  intros Hv Hc. revert Hv.
  apply (visit_preserves source_lines (fun s => c ∈ strings_to_convert s)); [| | |done].
  - by intros s key Hin.
  - intros s p value line _ _ _ Hin. cbn. apply elem_of_app. by left.
  - intros s p template variables line _ _ _ Hin. cbn. apply elem_of_app. by left.
Qed.

Lemma visit_list_keeps (l : list node) (st st' : analyzer) (c : candidate) :
  visit_list source_lines l st = Some st' ->
  c ∈ strings_to_convert st -> c ∈ strings_to_convert st'.
Proof.
  revert st. induction l as [|n l IH]; intros st Hv Hc.
  - cbn in Hv. by inversion Hv; subst.
  - cbn [visit_list] in Hv.
    destruct (visit source_lines n st) as [st1|] eqn:E1; [|done]. cbn in Hv.
    eapply IH; [exact Hv|]. by eapply visit_keeps.
Qed.

(** The loop over the arguments records an accepted string constant. *)
Lemma scan_args_records (args : list node) (st st' : analyzer)
    (pa : pos) (value : pystr) (ku : bool) (line : pystr) :
  scan_args source_lines args st = Some st' ->
  Constant pa (CStr value) ku ∈ args ->
  distinct_positions args ->
  location_key pa ∉ translated_locations st ->
  py_getitem source_lines (lineno pa - 1) = Some line ->
  is_user_facing_string value line = true ->
  CandConstant (location_key pa) (strip line) value ∈ strings_to_convert st'.
Proof.
  unfold distinct_positions.
  revert st. induction args as [|a args IH]; intros st Hs Hin Hnd Hkey Hline Huf;
    [by apply not_elem_of_nil in Hin|].
  rewrite fmap_cons in Hnd. apply NoDup_cons in Hnd as [Hhead Hnd].
  apply elem_of_cons in Hin as [<-|Hin].
  - cbn [scan_args] in Hs. rewrite bool_decide_eq_false_2 in Hs by done.
    rewrite Hline in Hs. cbn in Hs. rewrite Huf in Hs.
    eapply scan_args_keeps; [exact Hs|]. cbn. apply elem_of_app. right. by left.
  - assert (Hne : location_key (node_pos a) <> location_key pa).
    { intros Heq. apply Hhead. rewrite Heq.
      by apply (list_elem_of_fmap_2 (fun arg => location_key (node_pos arg)) _
                  (Constant pa (CStr value) ku)). }
    assert (Hskip : scan_args source_lines args st = Some st' ->
      CandConstant (location_key pa) (strip line) value ∈ strings_to_convert st')
      by (intros Hs'; by eapply IH).
    destruct a as [p id|p [s|t i] ku'|p v a|p f args' kws|p vs|p e conv spec|p prec text fs];
      cbn [scan_args] in Hs; try (by apply Hskip).
    destruct (bool_decide _); [by apply Hskip|].
    destruct (py_getitem source_lines (lineno p - 1)) as [line'|]; [|done]. cbn in Hs.
    destruct (is_user_facing_string s line'); [|by apply Hskip].
    eapply IH; try done. cbn. cbn [node_pos] in Hne. set_solver.
Qed.

(** C10 as amended.  Every Literal candidate of an analysis is a string
    constant among the direct arguments of a call the traversal reaches,
    a call that is no existing translation call and whose callee is
    named [print], [input], [echo] or [prompt], by bare identifier or by
    final attribute name.  Such a call is a sink whatever the object of
    the attribute is: a string constant among its arguments whose
    location is not yet marked, and which the classifier accepts on its
    line, is a candidate after the visit.  A call that is an existing
    translation call, [_(...)] or a called attribute of one, is no sink
    whatever its name: the visit marks its location and records
    nothing. *)
Theorem literal_candidates_come_from_sink_calls :
  (forall (tree : node) (st : analyzer) (c : candidate),
      visit source_lines tree new_analyzer = Some st ->
      c ∈ strings_to_convert st ->
      is_literal_candidate c = true ->
      from_sink_argument tree c) /\
  (forall (p : pos) (func : node) (args kws : list node) (st st' : analyzer)
          (name : pystr) (pa : pos) (value : pystr) (ku : bool) (line : pystr),
      visit source_lines (Call p func args kws) st = Some st' ->
      is_translation_call func = false ->
      name ∈ [py "print"; py "input"; py "echo"; py "prompt"] ->
      callee_named func name ->
      Constant pa (CStr value) ku ∈ args ->
      distinct_positions args ->
      location_key pa ∉ translated_locations st ->
      py_getitem source_lines (lineno pa - 1) = Some line ->
      is_user_facing_string value line = true ->
      CandConstant (location_key pa) (strip line) value ∈ strings_to_convert st') /\
  (forall (p : pos) (func : node) (args kws : list node) (st : analyzer),
      is_translation_call func = true ->
      visit source_lines (Call p func args kws) st
      = Some (Analyzer (strings_to_convert st)
                ({[location_key p]} ∪ translated_locations st))).
Proof.
  split; [|split].
  - intros tree st c Hv Hc Hlit.
    destruct (visit_comes_from source_lines tree _ _ Hv c Hc) as [Hold|Ho].
    { cbn in Hold. by apply not_elem_of_nil in Hold. }
    destruct Ho as [(p & values & t & vars & line & Hin & ->)
                   |(p & func & args & kws & pa & value & ku & line & Hin & Ht & Hf & Ha & ->)];
      [done|].
    destruct (sink_callee_named func Hf) as (name & Hname & Hcallee).
    by exists p, func, args, kws, name, pa, value, ku, line.
  - intros p func args kws st st' name pa value ku line Hv Ht Hname Hcallee Hin Hnd
      Hkey Hline Huf.
    rewrite visit_Call_eq, Ht in Hv.
    assert (Hf : str_in (func_name func) user_facing_funcs = true).
    { apply elem_of_str_in.
      destruct Hcallee as [(q & ->)|(q & obj & ->)]; exact Hname. }
    rewrite Hf in Hv.
    destruct (scan_args source_lines args st) as [st1|] eqn:E1; [|done]. cbn in Hv.
    destruct (visit source_lines func st1) as [st2|] eqn:E2; [|done]. cbn in Hv.
    destruct (visit_list source_lines args st2) as [st3|] eqn:E3; [|done]. cbn in Hv.
    eapply visit_list_keeps; [exact Hv|].
    eapply visit_list_keeps; [exact E3|].
    eapply visit_keeps; [exact E2|].
    by eapply scan_args_records.
  - intros p func args kws st Ht. by rewrite visit_Call_eq, Ht.
Qed.
End Sinks.

(** The call of [print] in [Print_file] and the chained call of
    [Chained_file]. *)
Lemma literal_candidates_come_from_sink_calls_witness :
  from_sink_argument Print_file.tree Print_analysis.literal /\
  Print_analysis.literal ∈ Print_analysis.found /\
  @visit symbols_only (splitlines Chained_file.source) Chained_file.call new_analyzer
  = Some (Analyzer [] ({[ (1, 0) ]} ∪ ∅)).
Proof.
  split; [|split].
  - refine (proj1 (@literal_candidates_come_from_sink_calls symbols_only
                     (splitlines Print_file.source))
              Print_file.tree (Analyzer Print_analysis.found {[ (1, 35) ]})
              Print_analysis.literal _ _ _).
    + vm_compute. reflexivity.
    + by left.
    + reflexivity.
  - refine (proj1 (proj2 (@literal_candidates_come_from_sink_calls symbols_only
                            (splitlines Print_file.source)))
              (Pos 1 0 1 55) (Name (Pos 1 0 1 5) (py "print")) Print_analysis.call_args []
              new_analyzer (Analyzer Print_analysis.found {[ (1, 35) ]})
              (py "print") (Pos 1 35 1 54) (py "Hello world again") false
              (pyq "print(f`Error: {x} happened here`, `Hello world again`)")
              _ _ _ _ _ _ _ _ _).
    + vm_compute. reflexivity.
    + reflexivity.
    + by left.
    + left. by exists (Pos 1 0 1 5).
    + right. by left.
    + unfold distinct_positions, Print_analysis.call_args.
      cbn [fmap list_fmap node_pos location_key lineno col_offset].
      apply NoDup_cons. split; [|apply NoDup_singleton].
      intros Hin. apply list_elem_of_singleton in Hin. discriminate Hin.
    + apply not_elem_of_empty.
    + vm_compute. reflexivity.
    + vm_compute. reflexivity.
  - apply (proj2 (proj2 (@literal_candidates_come_from_sink_calls symbols_only
                           (splitlines Chained_file.source)))).
    reflexivity.
Defined.

(** C10 as stated fails on "any object": in
    [_("Saved").prompt("Please enter your name now")] the callee is the
    attribute [prompt], the argument is a string constant the classifier
    accepts on its line, and the analysis finds nothing, because the call
    counts as an existing translation call. *)
Lemma chained_prompt_is_not_a_sink :
  (exists p func args kws pa ku,
     Chained_file.call = Call p func args kws /\
     callee_named func (py "prompt") /\
     Constant pa (CStr (py "Please enter your name now")) ku ∈ args) /\
  @is_user_facing_string symbols_only (py "Please enter your name now")
    (pyq "_(`Saved`).prompt(`Please enter your name now`)") = true /\
  @analyze symbols_only Chained_file.source Chained_file.tree = Some [].
Proof.
  split; [|split; vm_compute; reflexivity].
  eexists _, _, _, _, _, _. split; [reflexivity|]. split.
  - right. by eexists _, _.
  - by left.
Qed.

Section AnalyzerFacts.
Context `{UnicodeData}.

(** X5.  Visiting a tree only adds: the candidates recorded before are
    still there, in front and in their order, and no marked location is
    forgotten. *)
Theorem visit_only_appends (source_lines : list pystr) (n : node) (st st' : analyzer) :
  visit source_lines n st = Some st' ->
  strings_to_convert st `prefix_of` strings_to_convert st' /\
  translated_locations st ⊆ translated_locations st'.
Proof.
  apply (visit_preserves source_lines
           (fun s => strings_to_convert st `prefix_of` strings_to_convert s /\
                     translated_locations st ⊆ translated_locations s)).
  - intros s key [Hp Hs]. cbn. split; [done|set_solver].
  - intros s p value line _ _ _ [Hp Hs]. cbn. split; [|set_solver].
    by apply prefix_app_r.
  - intros s p template variables line _ _ _ [Hp Hs]. cbn. split; [|done].
    by apply prefix_app_r.
  - done.
Qed.

(** X6.  No string constant is recorded twice: the ['Constant']
    candidates of an analysis have pairwise different locations. *)
Theorem literal_candidates_are_distinct (source_code : pystr) (tree : node)
    (found : list candidate) :
  analyze source_code tree = Some found ->
  NoDup (cand_location <$> filter (fun c => is_literal_candidate c = true) found).
Proof.
  unfold analyze. intros Ha.
  destruct (visit (splitlines source_code) tree new_analyzer) as [st|] eqn:Ev; [|done].
  cbn in Ha. inversion Ha; subst. clear Ha.
  pose (Inv := fun s : analyzer =>
    NoDup (cand_location <$> filter (fun c => is_literal_candidate c = true)
                               (strings_to_convert s)) /\
    forall c, c ∈ strings_to_convert s -> is_literal_candidate c = true ->
              cand_location c ∈ translated_locations s).
  assert (Inv st) as [Hnd _]; [|done].
  apply (visit_preserves (splitlines source_code) Inv) with (n := tree) (st := new_analyzer);
    [| | | |done].
  - intros s key [Hnd Hm]. split; [done|]. cbn. intros c Hc Hl.
    specialize (Hm c Hc Hl). set_solver.
  - intros s p value line Hkey _ _ [Hnd Hm]. split; cbn.
    + rewrite filter_app, fmap_app. cbn.
      apply NoDup_app. split; [done|]. split; [|apply NoDup_singleton].
      intros loc Hloc Hnew. apply list_elem_of_singleton in Hnew.
      cbn in Hnew. subst loc.
      apply list_elem_of_fmap in Hloc as (c & Hc & Hin).
      apply list_elem_of_filter in Hin as [Hl Hin].
      apply Hkey. rewrite Hc. by apply Hm.
    + intros c [Hc|Hc]%elem_of_app Hl.
      * specialize (Hm c Hc Hl). set_solver.
      * apply list_elem_of_singleton in Hc as ->. cbn. set_solver.
  - intros s p template variables line _ _ _ [Hnd Hm]. split; cbn.
    + rewrite filter_app, fmap_app. cbn. by rewrite app_nil_r.
    + intros c [Hc|Hc]%elem_of_app Hl; [by apply Hm|].
      apply list_elem_of_singleton in Hc as ->. done.
  - split; [constructor|]. intros c Hc. by apply not_elem_of_nil in Hc.
Qed.

(** X7.  Nothing is selected that the classifier has not accepted: every
    candidate of an analysis names a line of the source, stripped, as its
    ['original_line'], and the classifier accepts the candidate's text
    on that line. *)
Theorem candidates_pass_the_classifier (source_code : pystr) (tree : node)
    (found : list candidate) (c : candidate) :
  analyze source_code tree = Some found ->
  c ∈ found ->
  exists line, line ∈ splitlines source_code /\
               cand_line c = strip line /\
               is_user_facing_string (cand_text c) line = true.
Proof.
  unfold analyze. intros Ha Hc.
  destruct (visit (splitlines source_code) tree new_analyzer) as [st|] eqn:Ev; [|done].
  cbn in Ha. inversion Ha; subst. clear Ha. revert c Hc.
  apply (visit_preserves (splitlines source_code)
           (fun s => forall c, c ∈ strings_to_convert s ->
              exists line, line ∈ splitlines source_code /\
                           cand_line c = strip line /\
                           is_user_facing_string (cand_text c) line = true))
    with (n := tree) (st := new_analyzer); [| | | |done].
  - intros s key Hs. exact Hs.
  - intros s p value line _ Hline Huf Hs c [Hc|Hc]%elem_of_app; [by apply Hs|].
    apply list_elem_of_singleton in Hc as ->. exists line.
    split; [by eapply py_getitem_elem_of|done].
  - intros s p template variables line _ Hline Huf Hs c [Hc|Hc]%elem_of_app; [by apply Hs|].
    apply list_elem_of_singleton in Hc as ->. exists line.
    split; [by eapply py_getitem_elem_of|done].
  - intros c Hc. by apply not_elem_of_nil in Hc.
Qed.
End AnalyzerFacts.

Lemma visit_only_appends_witness :
  strings_to_convert Print_analysis.before `prefix_of` strings_to_convert Print_analysis.after /\
  translated_locations Print_analysis.before ⊆ translated_locations Print_analysis.after.
Proof.
  apply (@visit_only_appends symbols_only (splitlines Print_file.source) Print_file.tree).
  vm_compute. reflexivity.
Defined.

Lemma literal_candidates_are_distinct_witness :
  NoDup (cand_location <$> filter (fun c => is_literal_candidate c = true) Print_analysis.found).
Proof.
  apply (@literal_candidates_are_distinct symbols_only Print_file.source Print_file.tree).
  vm_compute. reflexivity.
Defined.

Lemma candidates_pass_the_classifier_witness :
  exists line, line ∈ splitlines Print_file.source /\
               cand_line Print_analysis.fstring = strip line /\
               @is_user_facing_string symbols_only (cand_text Print_analysis.fstring) line = true.
Proof.
  apply (@candidates_pass_the_classifier symbols_only Print_file.source Print_file.tree
           Print_analysis.found).
  - vm_compute. reflexivity.
  - unfold Print_analysis.found. set_solver.
Defined.

(** ** The transformer *)

Lemma candidate_table_snoc (cands : list candidate) (c : candidate) :
  candidate_table (cands ++ [c]) = <[cand_location c := c]> (candidate_table cands).
Proof. unfold candidate_table. by rewrite foldl_app. Qed.

Lemma candidate_table_lookup (cands : list candidate) (loc : Z * Z) :
  candidate_table cands !! loc = last (filter (fun c => cand_location c = loc) cands).
Proof.
  induction cands as [|c cands IH] using rev_ind; [done|].
  rewrite candidate_table_snoc, filter_app.
  destruct (decide (cand_location c = loc)) as [Heq|Hne].
  - subst loc. rewrite lookup_insert_eq.
    rewrite (filter_cons_True _ c) by done. rewrite filter_nil.
    by rewrite last_snoc.
  - rewrite lookup_insert_ne by done. rewrite IH.
    rewrite (filter_cons_False _ c) by done. rewrite filter_nil.
    by rewrite app_nil_r.
Qed.

(** X8.  The table the transformer looks candidates up in holds, for a
    location, the last candidate of the list with that location: of two
    candidates with one location only the later one is converted. *)
Theorem candidate_table_last_wins (cands : list candidate) (loc : Z * Z) :
  candidate_table cands !! loc = last (filter (fun c => cand_location c = loc) cands).
Proof. apply candidate_table_lookup. Qed.

Lemma candidate_table_elem_of (cands : list candidate) (loc : Z * Z) (c : candidate) :
  candidate_table cands !! loc = Some c -> c ∈ cands /\ cand_location c = loc.
Proof.
  rewrite candidate_table_lookup. intros Hl.
  apply last_Some_elem_of in Hl. by apply list_elem_of_filter in Hl as [? ?].
Qed.

Section TransformerFacts.
Context `{UnicodeData} `{Parser}.
Variable table : gmap (Z * Z) candidate.

Lemma transform_eq (n : node) (made : list conversion) :
  transform table n made
  = (made1 ←
       match n with
       | Name _ _ | Constant _ _ _ => Some made
       | Attribute _ value _ => transform table value made
       | Call _ func args keywords =>
           m1 ← transform table func made;
           m2 ← transform_list table args m1;
           transform_list table keywords m2
       | JoinedStr _ values => transform_list table values made
       | FormattedValue _ value _ format_spec =>
           m1 ← transform table value made;
           match format_spec with
           | Some s => transform table s m1
           | None => Some m1
           end
       | Other _ _ _ fields => transform_list table fields made
       end;
     new ← record_conversion table n;
     Some (made1 ++ new)).
Proof. destruct n; reflexivity. Qed.

Lemma adds_from_weaken (n n' : node) (made made' : list conversion) :
  nodes_of n ⊆ nodes_of n' -> adds_from table n made made' -> adds_from table n' made made'.
Proof.
  intros Hsub (new & -> & Hall). exists new. split; [done|].
  eapply Forall_impl; [exact Hall|]. intros conv (m & Hm & Hr). exists m. split; [|done].
  by apply Hsub.
Qed.

Lemma adds_from_trans (n : node) (a b c : list conversion) :
  adds_from table n a b -> adds_from table n b c -> adds_from table n a c.
Proof.
  intros (n1 & -> & H1) (n2 & -> & H2). exists (n1 ++ n2).
  split; [by rewrite app_assoc|]. by apply Forall_app.
Qed.

Lemma adds_from_refl (n : node) (made : list conversion) : adds_from table n made made.
Proof. exists []. split; [by rewrite app_nil_r|constructor]. Qed.

Lemma nodes_of_in_list (n : node) (l : list node) :
  n ∈ l -> nodes_of n ⊆ concat (map nodes_of l).
Proof.
  induction l as [|m l IH]; intros Hin; [by apply not_elem_of_nil in Hin|].
  cbn [map concat]. apply elem_of_cons in Hin as [->|Hin]; [set_solver|].
  specialize (IH Hin). set_solver.
Qed.

Lemma transform_list_adds (parent : node) (l : list node) :
  concat (map nodes_of l) ⊆ nodes_of parent ->
  Forall (fun n => forall made made',
            transform table n made = Some made' -> adds_from table n made made') l ->
  forall made made', transform_list table l made = Some made' ->
                     adds_from table parent made made'.
Proof.
  intros Hsub Hall. revert Hsub.
  induction Hall as [|n l Hn Hl IH]; intros Hsub made made' Ht.
  - cbn in Ht. inversion Ht; subst. apply adds_from_refl.
  - cbn [transform_list] in Ht.
    destruct (transform table n made) as [m1|] eqn:E1; [|done]. cbn in Ht.
    cbn [map concat] in Hsub.
    eapply adds_from_trans.
    + eapply adds_from_weaken; [|by eapply Hn]. set_solver.
    + eapply IH; [set_solver|done].
Qed.

Lemma transform_adds (n : node) (made made' : list conversion) :
  transform table n made = Some made' -> adds_from table n made made'.
Proof.
  revert made made'.
  induction n as [p id|p v ku|p v a IHv|p f args kws IHf IHargs IHkws|p vs IHvs
                 |p e conv spec IHe IHspec|p prec text fs IHfs]
    using node_ind_strong; intros made made' Ht; rewrite transform_eq in Ht;
    match type of Ht with
    | (?children ≫= _) = _ => destruct children as [made1|] eqn:Ec; [|done]
    end;
    cbn [mbind option_bind] in Ht;
    match type of Ht with
    | context [record_conversion table ?n] =>
        destruct (record_conversion table n) as [new|] eqn:Er; [|done];
        cbn in Ht; inversion Ht; subst; clear Ht;
        assert (Hnew : adds_from table n made1 (made1 ++ new))
    end.
  all: try (exists new; split; [done|];
            unfold record_conversion in Er;
            destruct (new_node_for table _) as [[[ti nn]|]|] eqn:En; [|by inversion Er; subst|done];
            cbn in Er; destruct (unparse nn) as [code|] eqn:Eu; [|done];
            cbn in Er; inversion Er; subst;
            constructor; [|constructor];
            eexists; split; [by left|];
            unfold record_conversion; rewrite En; cbn; by rewrite Eu).
  all: eapply adds_from_trans; [|exact Hnew].
  - inversion Ec; subst. apply adds_from_refl.
  - inversion Ec; subst. apply adds_from_refl.
  - eapply adds_from_weaken; [|by eapply IHv]. cbn [nodes_of]. set_solver.
  - destruct (transform table f made) as [m1|] eqn:E1; [|done]. cbn in Ec.
    destruct (transform_list table args m1) as [m2|] eqn:E2; [|done]. cbn in Ec.
    eapply adds_from_trans; [|eapply adds_from_trans].
    + eapply adds_from_weaken; [|by eapply IHf]. rewrite nodes_of_Call_eq. set_solver.
    + eapply (transform_list_adds _ args); [|done|exact E2].
      rewrite nodes_of_Call_eq. set_solver.
    + eapply (transform_list_adds _ kws); [|done|exact Ec].
      rewrite nodes_of_Call_eq. set_solver.
  - eapply (transform_list_adds _ vs); [|done|exact Ec].
    cbn [nodes_of]. rewrite nodes_of_list_eq. set_solver.
  - destruct (transform table e made) as [m1|] eqn:E1; [|done]. cbn in Ec.
    eapply adds_from_trans.
    + eapply adds_from_weaken; [|by eapply IHe]. cbn [nodes_of]. set_solver.
    + destruct spec as [s|].
      * eapply adds_from_weaken; [|by eapply (IHspec s eq_refl)]. cbn [nodes_of]. set_solver.
      * inversion Ec; subst. apply adds_from_refl.
  - eapply (transform_list_adds _ fs); [|done|exact Ec].
    cbn [nodes_of]. rewrite nodes_of_list_eq. set_solver.
Qed.
End TransformerFacts.

Section Conversions.
Context `{UnicodeData} `{Parser}.

Lemma unparse_format_call_prefix (s : pystr) (args : list node) (code : pystr) :
  unparse (Call no_pos (Attribute no_pos (translation_call s) (py "format")) args [])
  = Some code ->
  startswith code (py "_(") = true.
Proof.
  unfold unparse. rewrite unparse_call. cbn [unparse_at].
  rewrite unparse_translation_call_at. cbn [mbind option_bind].
  destruct (mapM _ args) as [ta|]; [|done]. cbn. intros Hc. by inversion Hc; subst.
Qed.

Lemma record_conversion_inv (table : gmap (Z * Z) candidate) (m : node)
    (conv : conversion) :
  record_conversion table m = Some [conv] ->
  exists cand code,
    table !! location_key (node_pos m) = Some cand /\
    same_class m cand = true /\
    conv = conversion_of m cand code /\
    startswith code (py "_(") = true.
Proof.
  unfold record_conversion. intros Hr.
  destruct (new_node_for table m) as [[[ti nn]|]|] eqn:En; [|done|done]. cbn in Hr.
  destruct (unparse nn) as [code|] eqn:Eu; [|done]. cbn in Hr. inversion Hr; subst.
  exists ti, code.
  destruct m as [p id|p [s|t i] ku|p v a|p f args kws|p vs|p e c spec|p prec text fs];
    cbn [new_node_for] in En; try done; cbn [node_pos].
  - destruct (table !! location_key p) as [[l ol v|l t vars ol]|] eqn:El; [|done|done].
    inversion En; subst. rewrite unparse_translation_call in Eu. inversion Eu; subst.
    done.
  - destruct (table !! location_key p) as [[l ol v|l t vars ol]|] eqn:El; [done| |done].
    destruct vars as [|var vars].
    + inversion En; subst. rewrite unparse_translation_call in Eu. inversion Eu; subst.
      done.
    + destruct (mapM ast_parse_expr (var :: vars)) as [format_args|]; [|done].
      cbn in En. inversion En; subst.
      apply unparse_format_call_prefix in Eu. done.
Qed.

(** X9.  The transformer records a conversion only where a candidate
    says so: every entry of [conversions_made] carries the position of a
    string node of the tree, a candidate of the list has that location
    and is of the node's kind (an f-string for an f-string, a constant
    for a constant), and the entry's ['original_text'] is that
    candidate's line. *)
Theorem conversions_come_from_candidates (fstrings : list candidate) (tree : node)
    (made : list conversion) (conv : conversion) :
  transform (candidate_table fstrings) tree [] = Some made ->
  conv ∈ made ->
  exists n cand,
    n ∈ nodes_of tree /\ cand ∈ fstrings /\ same_class n cand = true /\
    cand_location cand = (start_line conv, start_col conv) /\
    node_pos n = Pos (start_line conv) (start_col conv) (end_line conv) (end_col conv) /\
    original_text conv = cand_line cand.
Proof.
  intros Ht Hin. apply transform_adds in Ht as (new & -> & Hall).
  rewrite app_nil_l in Hin. rewrite Forall_forall in Hall.
  destruct (Hall _ Hin) as (n & Hn & Hr).
  apply record_conversion_inv in Hr as (cand & code & Hl & Hc & -> & _).
  apply candidate_table_elem_of in Hl as [Hcand Hloc].
  exists n, cand. split; [done|]. split; [done|]. split; [done|].
  unfold conversion_of. destruct (node_pos n) as [l c el ec].
  destruct cand; cbn; cbn in Hloc; by rewrite Hloc.
Qed.

Lemma transform_texts (table : gmap (Z * Z) candidate)
    (tree : node) (made : list conversion) (conv : conversion) :
  transform table tree [] = Some made ->
  conv ∈ made ->
  startswith (replacement_text conv) (py "_(") = true.
Proof.
  intros Ht Hin. apply transform_adds in Ht as (new & -> & Hall).
  rewrite app_nil_l in Hin. rewrite Forall_forall in Hall.
  destruct (Hall _ Hin) as (n & Hn & Hr).
  apply record_conversion_inv in Hr as (cand & code & _ & _ & -> & Hcode).
  unfold conversion_of. by destruct cand.
Qed.

(** X10.  Every replacement text the transformer writes begins with
    [_(]: it is a call of the translation function, with or without a
    [.format(...)] after it. *)
Theorem replacements_are_translation_calls (table : gmap (Z * Z) candidate)
    (tree : node) (made : list conversion) (conv : conversion) :
  transform table tree [] = Some made ->
  conv ∈ made ->
  startswith (replacement_text conv) (py "_(") = true.
Proof. apply transform_texts. Qed.
End Conversions.

Lemma conversions_come_from_candidates_witness :
  exists n cand,
    n ∈ nodes_of Tuple_file.tree /\ cand ∈ [Tuple_file.first_info] /\
    same_class n cand = true /\
    cand_location cand = (1, 0) /\
    node_pos n = Pos 1 0 1 26 /\
    original_text Tuple_conversion.made = cand_line cand.
Proof.
  apply (@conversions_come_from_candidates symbols_only Tuple_file.parser
           [Tuple_file.first_info] Tuple_file.tree [Tuple_conversion.made]
           Tuple_conversion.made).
  - vm_compute. reflexivity.
  - by left.
Defined.

Lemma replacements_are_translation_calls_witness :
  startswith (py "_('Error: {} failed badly').format(x)") (py "_(") = true.
Proof.
  apply (@replacements_are_translation_calls symbols_only Tuple_file.parser
           (candidate_table [Tuple_file.first_info]) Tuple_file.tree
           [Tuple_conversion.made] Tuple_conversion.made).
  - vm_compute. reflexivity.
  - by left.
Defined.

(** ** The line index and the order of the replacements *)

Lemma splitlines_keepends_from_concat (cur s : pybytes) :
  concat (splitlines_keepends_from cur s) = rev cur ++ s.
Proof.
  revert cur. induction s as [s IH] using (induction_ltof1 _ (@length byte)).
  unfold ltof in IH. intros cur. destruct s as [|c r]; cbn [splitlines_keepends_from].
  - destruct cur; cbn [concat]; by rewrite ?app_nil_r.
  - destruct (is_lf c).
    { cbn [concat rev]. rewrite IH by (cbn; lia). cbn [rev app].
      by rewrite <- app_assoc. }
    destruct (is_cr c).
    + destruct r as [|c2 r2]; [cbn [concat rev]; by rewrite app_nil_r|].
      destruct (is_lf c2); cbn [concat rev]; rewrite IH by (cbn; lia); cbn [rev app];
        by rewrite <- ?app_assoc.
    + rewrite IH by (cbn; lia). cbn [rev]. by rewrite <- app_assoc.
Qed.

Lemma splitlines_keepends_from_nonempty (cur s : pybytes) :
  Forall (fun line => line <> []) (splitlines_keepends_from cur s).
Proof.
  assert (Hrev : forall (c : byte) l, rev (c :: l) <> []).
  { intros c l Hnil. apply (f_equal (@length _)) in Hnil.
    rewrite length_rev in Hnil. done. }
  revert cur. induction s as [s IH] using (induction_ltof1 _ (@length byte)).
  unfold ltof in IH. intros cur. destruct s as [|c r]; cbn [splitlines_keepends_from].
  - destruct cur; repeat constructor. apply Hrev.
  - destruct (is_lf c); [constructor; [apply Hrev|apply IH; cbn; lia]|].
    destruct (is_cr c); [|apply IH; cbn; lia].
    destruct r as [|c2 r2]; [repeat constructor; apply Hrev|].
    destruct (is_lf c2); constructor; try apply Hrev; apply IH; cbn; lia.
Qed.

Lemma line_starts_from_last (lines : list pybytes) (pos : Z) :
  last (pos :: line_starts_from pos lines)
  = Some (pos + Z.of_nat (length (concat lines))).
Proof.
  revert pos. induction lines as [|line rest IH]; intros pos.
  - cbn. f_equal. lia.
  - cbn [line_starts_from concat]. rewrite last_cons_cons, IH, length_app. f_equal. lia.
Qed.

Lemma line_starts_from_sorted (lines : list pybytes) (pos : Z) :
  Forall (fun line => line <> []) lines ->
  StronglySorted Z.lt (pos :: line_starts_from pos lines).
Proof.
  intros Hne. revert pos. induction Hne as [|line rest Hline Hrest IH]; intros pos.
  - repeat constructor.
  - cbn [line_starts_from]. specialize (IH (pos + Z.of_nat (length line))).
    assert (Hlt : pos < pos + Z.of_nat (length line)).
    { destruct line; [done|cbn; lia]. }
    constructor; [done|]. apply StronglySorted_inv in IH as [_ Hall].
    constructor; [done|]. eapply Forall_impl; [exact Hall|]. cbn. intros; lia.
Qed.

(** X11.  The line index starts at [0], ends at the length of the file
    and is strictly increasing, with one entry more than the file has
    lines; the lines it is built from, put together, are the file. *)
Theorem line_start_indices_span_the_file (source_bytes : pybytes) :
  concat (splitlines_keepends source_bytes) = source_bytes /\
  head (line_start_indices source_bytes) = Some 0 /\
  last (line_start_indices source_bytes) = Some (Z.of_nat (length source_bytes)) /\
  StronglySorted Z.lt (line_start_indices source_bytes) /\
  length (line_start_indices source_bytes)
  = S (length (splitlines_keepends source_bytes)).
Proof.
  assert (Hc : concat (splitlines_keepends source_bytes) = source_bytes)
    by apply (splitlines_keepends_from_concat []).
  split; [done|]. split; [done|]. unfold line_start_indices. split; [|split].
  - rewrite line_starts_from_last, Hc. f_equal.
  - apply line_starts_from_sorted, splitlines_keepends_from_nonempty.
  - cbn [length]. f_equal. clear Hc. generalize 0.
    induction (splitlines_keepends source_bytes) as [|l ls IH]; intros z; [done|].
    cbn [line_starts_from length]. f_equal. apply IH.
Qed.

Lemma NoDup_fmap_elem_inj {A B} (f : A -> B) (l : list A) (x y : A) :
  NoDup (f <$> l) -> x ∈ l -> y ∈ l -> f x = f y -> x = y.
Proof.
  induction l as [|a l IH]; intros Hnd Hx Hy Hf; [by apply not_elem_of_nil in Hx|].
  rewrite fmap_cons in Hnd. apply NoDup_cons in Hnd as [Ha Hnd].
  apply elem_of_cons in Hx as [->|Hx], Hy as [->|Hy]; [done| | |by apply IH].
  - exfalso. apply Ha. rewrite Hf. by apply list_elem_of_fmap_2.
  - exfalso. apply Ha. rewrite <- Hf. by apply list_elem_of_fmap_2.
Qed.

Lemma sorted_reverse_unique (reps reps' : list conversion) :
  reps ≡ₚ reps' -> NoDup (sort_key <$> reps) ->
  sorted_reverse reps = sorted_reverse reps'.
Proof.
  intros Hperm Hnd. apply (StronglySorted_unique_strong key_ge).
  - intros x1 x2 Hx1 Hx2 H12 H21.
    rewrite sorted_reverse_perm in Hx1. rewrite sorted_reverse_perm, <- Hperm in Hx2.
    apply (NoDup_fmap_elem_inj sort_key reps); [done..|].
    unfold key_ge in H12, H21. apply key_ge_spec in H12, H21.
    destruct (sort_key x1) as [l1 c1], (sort_key x2) as [l2 c2]. cbn [fst snd] in *.
    f_equal; lia.
  - apply sorted_reverse_sorted.
  - apply sorted_reverse_sorted.
  - by rewrite !sorted_reverse_perm.
Qed.

(** X12.  The order in which the transformer has recorded the
    conversions does not matter to the patch: two lists that hold the
    same conversions, no two of them with the same start position, give
    the same bytes and the same recorded results. *)
Theorem patch_is_order_independent (path : pystr) (source_bytes : pybytes)
    (reps reps' : list conversion) :
  reps ≡ₚ reps' ->
  NoDup (sort_key <$> reps) ->
  apply_replacements path source_bytes reps = apply_replacements path source_bytes reps'.
Proof.
  intros Hperm Hnd. unfold apply_replacements.
  by rewrite (sorted_reverse_unique reps reps').
Qed.

Lemma patch_is_order_independent_witness :
  apply_replacements Spec_file.path Patch_inputs.source Patch_inputs.disjoint
  = apply_replacements Spec_file.path Patch_inputs.source (rev Patch_inputs.disjoint).
Proof.
  apply patch_is_order_independent.
  - symmetry. apply Permutation_rev.
  - vm_compute. repeat constructor; set_solver.
Defined.

(** ** [convert_file] as a whole *)

Section PatchResults.
Variable path : pystr.
Variable source_bytes : pybytes.
Variable line_starts : list Z.

(** The loop only appends to [all_conversions], one entry at most for a
    replacement, each made from a replacement of the list. *)
Lemma patch_loop_appended (reps : list conversion) (st st' : patch_state) (ok : bool) :
  patch_loop path source_bytes line_starts reps st = (st', ok) ->
  exists more,
    appended st' = appended st ++ more /\
    (length more <= length reps)%nat /\
    Forall (fun r => file_path r = path /\ confidence r = py "high" /\
                     exists rep, rep ∈ reps /\
                                 line_number r = start_line rep /\
                                 converted_code r = replacement_text rep) more.
Proof.
  revert st. induction reps as [|rep reps IH]; intros st Hl.
  - cbn in Hl. inversion Hl; subst. exists []. rewrite app_nil_r.
    split; [done|]. split; [done|constructor].
  - cbn [patch_loop] in Hl.
    destruct (patch_step path source_bytes line_starts rep st) as [st1|] eqn:Es.
    + destruct (IH _ Hl) as (more & Happ & Hlen & Hall).
      assert (Hall' : Forall (fun r => file_path r = path /\ confidence r = py "high" /\
                       exists rep0, rep0 ∈ rep :: reps /\
                                    line_number r = start_line rep0 /\
                                    converted_code r = replacement_text rep0) more).
      { eapply Forall_impl; [exact Hall|]. intros r (? & ? & rep0 & ? & ? & ?).
        split; [done|]. split; [done|]. exists rep0. split; [by right|done]. }
      unfold patch_step in Es.
      destruct (byte_index _ (start_line rep) _) as [s|]; [|done]. cbn in Es.
      destruct (byte_index _ (end_line rep) _) as [e|]; [|done]. cbn in Es.
      destruct (last_pos st <=? s).
      * inversion Es; subst. exists more. split; [done|]. split; [cbn; lia|done].
      * destruct (utf8_encode _) as [enc|]; [|done]. cbn in Es. inversion Es; subst.
        cbn [appended] in Happ. eexists (_ :: more).
        split; [by rewrite Happ, <- app_assoc|]. split; [cbn; lia|].
        constructor; [|done]. cbn. split; [done|]. split; [done|].
        exists rep. split; [by left|done].
    + inversion Hl; subst. exists []. rewrite app_nil_r.
      split; [done|]. split; [cbn; lia|constructor].
Qed.
End PatchResults.

Section ConvertFile.
Context `{UnicodeData} `{Parser} `{Disk}.

(** X13.  A call of [convert_file] that returns [False] has changed no
    statistic.  It has built a buffer only when it is no dry run and the
    write of that buffer failed; the file then is untouched, or, when the
    write broke off, holds the bytes that were written.  In every other
    case the file system is what it was. *)
Theorem failed_conversion_keeps_the_statistics (self : converter)
    (files : gmap pystr pybytes) (path : pystr) (fstrings : list candidate) :
  let o := convert_file self files path fstrings in
  returned o = false ->
  cstats (self_after o) = cstats self /\
  dry_run (self_after o) = dry_run self /\
  backup (self_after o) = backup self /\
  match final_source_bytes o with
  | None => files_after o = files
  | Some buffer =>
      dry_run self = false /\
      (write_outcome files path buffer = OpenRefused /\ files_after o = files \/
       exists written,
         write_outcome files path buffer = WriteBroken written /\
         files_after o = <[path := take written buffer]> files)
  end.
Proof.
  cbv zeta. unfold convert_file.
  destruct fstrings as [|c cs]; [done|].
  destruct (files !! path) as [source_bytes|]; [|done].
  destruct (decode_utf8 source_bytes) as [source_code|]; [|done].
  destruct (ast_parse source_code) as [tree|]; [|done].
  destruct (transform (candidate_table (c :: cs)) tree []) as [[|m made]|]; [done| |done].
  destruct (apply_replacements path source_bytes (m :: made)) as [[final|] more]; [|done].
  destruct (dry_run self) eqn:Edry; [done|].
  destruct (write_outcome files path final) as [| |written] eqn:Ew; [done| |];
    cbn; intros _; rewrite ?Edry; repeat split; eauto.
Qed.

Lemma convert_file_frame (self : converter)
    (files : gmap pystr pybytes) (path : pystr) (fstrings : list candidate) :
  let o := convert_file self files path fstrings in
  dom (files_after o) = dom files /\
  forall other, other <> path -> files_after o !! other = files !! other.
Proof.
  cbv zeta. unfold convert_file.
  destruct fstrings as [|c cs]; [done|].
  destruct (files !! path) as [source_bytes|] eqn:Ef; [|done].
  destruct (decode_utf8 source_bytes) as [source_code|]; [|done].
  destruct (ast_parse source_code) as [tree|]; [|done].
  destruct (transform (candidate_table (c :: cs)) tree []) as [[|m made]|]; [done| |done].
  destruct (apply_replacements path source_bytes (m :: made)) as [[final|] more]; [|done].
  destruct (dry_run self); [done|]. apply elem_of_dom_2 in Ef.
  destruct (write_outcome files path final); cbn [files_after]; [|done|]; split;
    try (rewrite dom_insert_L; set_solver);
    intros other Hne; by rewrite lookup_insert_ne.
Qed.

(** X14.  [convert_file] writes to the one file it is given, and only
    when that file exists: it creates no file, deletes none, and leaves
    the content of every other file as it is. *)
Theorem convert_file_touches_one_file (self : converter)
    (files : gmap pystr pybytes) (path : pystr) (fstrings : list candidate) :
  let o := convert_file self files path fstrings in
  dom (files_after o) = dom files /\
  forall other, other <> path -> files_after o !! other = files !! other.
Proof. apply convert_file_frame. Qed.

(** X15.  [convert_file] only appends to [all_conversions]; every entry
    it appends names this file, has confidence ['high'] whatever the
    string, and shows a call of the translation function as the
    converted code.  When the call returns [True] the counter
    [fstrings_converted] has grown by at least the number of entries
    appended: replacements the patch loop has skipped are counted but
    not listed. *)
Theorem recorded_results_of_a_conversion (self : converter)
    (files : gmap pystr pybytes) (path : pystr) (fstrings : list candidate) :
  let o := convert_file self files path fstrings in
  exists more,
    all_conversions (self_after o) = all_conversions self ++ more /\
    Forall (fun r => file_path r = path /\ confidence r = py "high" /\
                     startswith (converted_code r) (py "_(") = true) more /\
    (returned o = true ->
     Z.of_nat (length more)
     <= fstrings_converted (cstats (self_after o)) - fstrings_converted (cstats self)).
Proof.
  cbv zeta. unfold convert_file.
  assert (Hnone : exists more : list ConversionResult,
    all_conversions self = all_conversions self ++ more /\
    Forall (fun r => file_path r = path /\ confidence r = py "high" /\
                     startswith (converted_code r) (py "_(") = true) more /\
    (false = true -> Z.of_nat (length more)
         <= fstrings_converted (cstats self) - fstrings_converted (cstats self))).
  { exists []. rewrite app_nil_r. split; [done|]. split; [constructor|done]. }
  destruct fstrings as [|c cs]; [done|].
  destruct (files !! path) as [source_bytes|] eqn:Ef; [|done].
  destruct (decode_utf8 source_bytes) as [source_code|]; [|done].
  destruct (ast_parse source_code) as [tree|]; [|done].
  destruct (transform (candidate_table (c :: cs)) tree []) as [[|m made]|] eqn:Et;
    [done| |done].
  unfold apply_replacements.
  destruct (patch_loop _ _ _ _ _) as [st ok] eqn:El.
  apply patch_loop_appended in El as (more & Happ & Hlen & Hall).
  cbn [appended app] in Happ. subst more.
  rewrite (Permutation_length (sorted_reverse_perm _)) in Hlen.
  assert (Hall' : Forall (fun r => file_path r = path /\ confidence r = py "high" /\
                     startswith (converted_code r) (py "_(") = true) (appended st)).
  { eapply Forall_impl; [exact Hall|]. intros r (? & ? & rep & Hrep & _ & Hcode).
    split; [done|]. split; [done|]. rewrite Hcode.
    rewrite sorted_reverse_perm in Hrep. by eapply transform_texts. }
  destruct ok.
  - destruct (dry_run self); [|destruct (write_outcome files path _)];
      cbn [self_after cstats fstrings_converted all_conversions returned
           with_conversions];
      exists (appended st); (split; [done|]); (split; [done|]);
      first [done|intros _; lia].
  - cbn. exists (appended st). split; [done|]. split; [done|]. done.
Qed.
End ConvertFile.

(** On a disk that refuses the write the conversion of [Tuple_file]
    fails with the buffer built. *)
Lemma failed_conversion_keeps_the_statistics_witness :
  let o := @convert_file symbols_only Tuple_file.parser read_only Tuple_file.self
             Tuple_file.files Tuple_file.path [Tuple_file.first_info] in
  final_source_bytes o = Some (ascii_bytes Tuple_file.converted) /\
  cstats (self_after o) = cstats Tuple_file.self /\
  dry_run (self_after o) = dry_run Tuple_file.self /\
  backup (self_after o) = backup Tuple_file.self /\
  match final_source_bytes o with
  | None => files_after o = Tuple_file.files
  | Some buffer =>
      dry_run Tuple_file.self = false /\
      (@write_outcome read_only Tuple_file.files Tuple_file.path buffer = OpenRefused /\
       files_after o = Tuple_file.files \/
       exists written,
         @write_outcome read_only Tuple_file.files Tuple_file.path buffer
         = WriteBroken written /\
         files_after o = <[Tuple_file.path := take written buffer]> Tuple_file.files)
  end.
Proof.
  cbv zeta. split; [vm_compute; reflexivity|].
  apply (@failed_conversion_keeps_the_statistics symbols_only Tuple_file.parser read_only).
  vm_compute. reflexivity.
Defined.

Lemma convert_file_touches_one_file_witness :
  files_after (@convert_file symbols_only Tuple_file.parser writable Tuple_file.self
                 Tuple_file.files Tuple_file.path [Tuple_file.first_info])
    !! Spec_file.path
  = Tuple_file.files !! Spec_file.path.
Proof.
  apply (proj2 (@convert_file_touches_one_file symbols_only Tuple_file.parser writable
                  Tuple_file.self Tuple_file.files Tuple_file.path
                  [Tuple_file.first_info])).
  intros Heq. vm_compute in Heq. discriminate Heq.
Defined.

Lemma recorded_results_of_a_conversion_witness :
  let o := @convert_file symbols_only Tuple_file.parser writable Tuple_file.self Tuple_file.files
             Tuple_file.path [Tuple_file.first_info] in
  exists more,
    all_conversions (self_after o) = all_conversions Tuple_file.self ++ more /\
    Forall (fun r => file_path r = Tuple_file.path /\ confidence r = py "high" /\
                     startswith (converted_code r) (py "_(") = true) more /\
    Z.of_nat (length more)
    <= fstrings_converted (cstats (self_after o))
       - fstrings_converted (cstats Tuple_file.self).
Proof.
  cbv zeta.
  destruct (@recorded_results_of_a_conversion symbols_only Tuple_file.parser writable
              Tuple_file.self Tuple_file.files Tuple_file.path [Tuple_file.first_info])
    as (more & Happ & Hall & Hcount).
  exists more. split; [exact Happ|]. split; [exact Hall|].
  apply Hcount. vm_compute. reflexivity.
Defined.

(** ** The run: [scan_and_convert] *)

Lemma run_step_refl (self : converter) (files : gmap pystr pybytes) :
  run_step 0 self self files files.
Proof.
  unfold run_step. cbv zeta. do 2 (split; [done|]). do 7 (split; [lia|]).
  split; [reflexivity|]. split; [done|]. intros _. split; [done|lia].
Qed.

Lemma run_step_mono (n m : Z) (self self' : converter) (files files' : gmap pystr pybytes) :
  n <= m -> run_step n self self' files files' -> run_step m self self' files files'.
Proof.
  unfold run_step. cbv zeta.
  intros Hnm (? & ? & ? & ? & ? & ? & ? & ? & ? & ? & ? & ?).
  do 5 (split; [done|]). split; [lia|]. by do 5 (split; [done|]).
Qed.

Lemma run_step_trans (n m : Z) (a b c : converter) (fa fb fc : gmap pystr pybytes) :
  run_step n a b fa fb -> run_step m b c fb fc -> run_step (n + m) a c fa fc.
Proof.
  unfold run_step. cbv zeta.
  intros (Hd1 & Hb1 & ? & ? & ? & ? & ? & ? & ? & Hp1 & Hdom1 & Hdry1)
         (Hd2 & Hb2 & ? & ? & ? & ? & ? & ? & ? & Hp2 & Hdom2 & Hdry2).
  split; [congruence|]. split; [congruence|].
  repeat (split; [lia|]).
  split; [by etrans|]. split; [congruence|].
  intros Hdr. destruct (Hdry1 Hdr) as [-> ?].
  rewrite <- Hd1 in Hdr. destruct (Hdry2 Hdr) as [-> ?]. split; [done|lia].
Qed.

Section RunFacts.
Context `{UnicodeData} `{Parser} `{Disk}.

Lemma scan_file_step (self self' : converter) (files files' : gmap pystr pybytes)
    (path : pystr) :
  scan_file self files path = Some (self', files') ->
  run_step 1 self self' files files' /\
  forall other, other <> path -> files' !! other = files !! other.
Proof.
  unfold scan_file, analyze_file. intros Hs.
  assert (Hsame : run_step 1 self self files files /\
                  forall other, other <> path -> files !! other = files !! other).
  { split; [|done]. eapply run_step_mono; [|apply run_step_refl]. lia. }
  destruct (files !! path ≫= decode_utf8) as [raw|] eqn:Er.
  2:{ cbn in Hs. by inversion Hs; subst. }
  destruct (ast_parse (universal_newlines raw)) as [tree|].
  2:{ cbn in Hs. by inversion Hs; subst. }
  destruct (analyze (universal_newlines raw) tree) as [[|c found]|]; [| |done].
  { cbn in Hs. inversion Hs; subst. split; [|done]. unfold run_step. cbn.
    repeat split; try done; lia. }
  cbn [mbind option_bind] in Hs. cbv beta iota zeta in Hs. clear Hsame.
  match type of Hs with
  | context [convert_file ?s files path (c :: found)] =>
      remember s as self1 eqn:E1;
      remember (convert_file self1 files path (c :: found)) as o eqn:Eo
  end.
  injection Hs as <- <-.
  split; [|rewrite Eo; apply (convert_file_frame self1)].
  destruct (convert_file_frame self1 files path (c :: found)) as [Hdom _].
  rewrite <- Eo in Hdom.
  assert (Hlen : 0 <= Z.of_nat (length found)) by lia.
  assert (Hfound : Z.of_nat (length (c :: found)) = 1 + Z.of_nat (length found))
    by (cbn [length]; lia).
  revert Hdom. rewrite Eo, E1. clear Eo E1. unfold convert_file, run_step. cbv zeta.
  rewrite Hfound.
  destruct (files !! path) as [source_bytes|];
    [|intros _; cbn; repeat split; try done; lia].
  destruct (decode_utf8 source_bytes) as [source_code|];
    [|intros _; cbn; repeat split; try done; lia].
  destruct (ast_parse source_code) as [tree'|];
    [|intros _; cbn; repeat split; try done; lia].
  destruct (transform _ tree' []) as [[|m made]|]; [| |];
    try (intros _; cbn; repeat split; try done; lia).
  destruct (apply_replacements path source_bytes (m :: made)) as [[final|] more].
  2:{ intros _; cbn. repeat split; try done; try lia. by apply prefix_app_r. }
  assert (Hmade : 0 <= Z.of_nat (length (m :: made))) by lia.
  cbn [dry_run].
  destruct (dry_run self) eqn:Edry; [|destruct (write_outcome files path final)];
    intros Hdom;
    cbn [self_after files_after cstats dry_run backup all_conversions
      files_scanned files_with_fstrings files_modified fstrings_found fstrings_converted
      backups_created with_conversions] in *; rewrite ?Edry;
    repeat split; try done; try lia; try (by apply prefix_app_r).
Qed.

Lemma scan_files_steps (python_files : list pystr) (self self' : converter)
    (files files' : gmap pystr pybytes) :
  scan_files python_files self files = Some (self', files') ->
  run_step (Z.of_nat (length python_files)) self self' files files' /\
  forall other, other ∉ python_files -> files' !! other = files !! other.
Proof.
  revert self files. induction python_files as [|py_file rest IH]; intros self files Hs.
  - cbn in Hs. inversion Hs; subst. split; [apply run_step_refl|done].
  - cbn [scan_files] in Hs.
    destruct (scan_file self files py_file) as [[self1 files1]|] eqn:E1; [|done].
    cbn in Hs. apply scan_file_step in E1 as [Hstep1 Hother1].
    apply IH in Hs as [Hsteps Hothers]. split.
    + replace (Z.of_nat (length (py_file :: rest)))
        with (1 + Z.of_nat (length rest)) by (cbn [length]; lia).
      by eapply run_step_trans.
    + intros other Hnot. apply not_elem_of_cons in Hnot as [Hne Hnot].
      rewrite Hothers by done. by apply Hother1.
Qed.
End RunFacts.

Section RunTheorems.
Context `{UnicodeData} `{Parser} `{Disk} `{PathLib}.

(** X16.  A dry run changes no file: when [scan_and_convert] of a
    converter with [dry_run] set comes to its end, the file system is
    what it was, no backup has been made and no file is counted as
    modified. *)
Theorem dry_run_changes_no_file (source_dirs : list pystr) (stamp : pystr)
    (self self' : converter) (files files' : gmap pystr pybytes) :
  dry_run self = true ->
  scan_and_convert source_dirs stamp self files = Some (self', files') ->
  files' = files /\ dry_run self' = true /\
  files_modified (cstats self') = files_modified (cstats self) /\
  backups_created (cstats self') = backups_created (cstats self).
Proof.
  intros Hdry. unfold scan_and_convert. rewrite Hdry. intros Hs.
  apply scan_files_steps in Hs as [Hstep _]. unfold run_step in Hstep. cbv zeta in Hstep.
  destruct Hstep as (Hd & _ & _ & _ & _ & _ & _ & _ & Hb & _ & _ & Hfiles).
  destruct (Hfiles Hdry) as [-> Hm]. split; [done|]. split; [congruence|]. lia.
Qed.

(** X17.  The counters of a run stay in step: over the loop of
    [scan_and_convert], not more files are counted as modified than as
    holding candidates, not more as holding candidates than as scanned,
    and not more as scanned than the loop was given; every file counted
    as holding candidates adds at least one to [fstrings_found]; no
    counter falls, and [all_conversions] is only extended. *)
Theorem scan_counters_stay_in_step (python_files : list pystr)
    (self self' : converter) (files files' : gmap pystr pybytes) :
  scan_files python_files self files = Some (self', files') ->
  let d f := f (cstats self') - f (cstats self) in
  0 <= d files_modified /\ d files_modified <= d files_with_fstrings /\
  d files_with_fstrings <= d files_scanned /\
  d files_scanned <= Z.of_nat (length python_files) /\
  d files_with_fstrings <= d fstrings_found /\
  0 <= d fstrings_converted /\
  all_conversions self `prefix_of` all_conversions self'.
Proof.
  intros Hs. apply scan_files_steps in Hs as [Hstep _].
  unfold run_step in Hstep. cbv zeta in *.
  destruct Hstep as (_ & _ & ? & ? & ? & ? & ? & ? & _ & ? & _ & _). done.
Qed.

(** X18.  The loop of [scan_and_convert] creates no file and deletes
    none, and a file that is not in its list keeps its content. *)
Theorem scan_keeps_the_set_of_files (python_files : list pystr)
    (self self' : converter) (files files' : gmap pystr pybytes) :
  scan_files python_files self files = Some (self', files') ->
  dom files' = dom files /\
  forall other, other ∉ python_files -> files' !! other = files !! other.
Proof.
  intros Hs. apply scan_files_steps in Hs as [Hstep Hother].
  unfold run_step in Hstep. cbv zeta in Hstep.
  destruct Hstep as (_ & _ & _ & _ & _ & _ & _ & _ & _ & _ & Hdom & _). done.
Qed.
End RunTheorems.

Lemma dry_run_changes_no_file_witness :
  exists self' files',
    @scan_and_convert symbols_only Tuple_file.parser writable posix_paths Project_files.source_dirs
      Project_files.stamp (new_converter true true) Project_files.files
    = Some (self', files') /\
    files' = Project_files.files /\ dry_run self' = true /\
    files_modified (cstats self') = 0 /\ backups_created (cstats self') = 0.
Proof.
  destruct (@scan_and_convert symbols_only Tuple_file.parser writable posix_paths
              Project_files.source_dirs Project_files.stamp (new_converter true true)
              Project_files.files) as [[self' files']|] eqn:E.
  - exists self', files'. split; [reflexivity|].
    apply (@dry_run_changes_no_file symbols_only Tuple_file.parser writable posix_paths
             Project_files.source_dirs Project_files.stamp (new_converter true true) self'
             Project_files.files files'); [reflexivity|exact E].
  - vm_compute in E. discriminate E.
Defined.

Lemma scan_counters_stay_in_step_witness :
  exists self' files',
    @scan_files symbols_only Tuple_file.parser writable [Project_files.module_path]
      (new_converter false true) Project_files.files = Some (self', files') /\
    0 <= files_modified (cstats self') - 0 /\
    files_modified (cstats self') - 0 <= files_with_fstrings (cstats self') - 0 /\
    files_with_fstrings (cstats self') - 0 <= files_scanned (cstats self') - 0 /\
    files_scanned (cstats self') - 0 <= 1 /\
    files_with_fstrings (cstats self') - 0 <= fstrings_found (cstats self') - 0 /\
    0 <= fstrings_converted (cstats self') - 0 /\
    [] `prefix_of` all_conversions self'.
Proof.
  destruct (@scan_files symbols_only Tuple_file.parser writable [Project_files.module_path]
              (new_converter false true) Project_files.files) as [[self' files']|] eqn:E.
  - exists self', files'. split; [reflexivity|].
    apply (@scan_counters_stay_in_step symbols_only Tuple_file.parser writable
             [Project_files.module_path] (new_converter false true) self'
             Project_files.files files' E).
  - vm_compute in E. discriminate E.
Defined.

Lemma scan_keeps_the_set_of_files_witness :
  exists self' files',
    @scan_files symbols_only Tuple_file.parser writable [Project_files.module_path]
      (new_converter false true) Project_files.files = Some (self', files') /\
    dom files' = dom Project_files.files /\
    forall other, other ∉ [Project_files.module_path] ->
                  files' !! other = Project_files.files !! other.
Proof.
  destruct (@scan_files symbols_only Tuple_file.parser writable [Project_files.module_path]
              (new_converter false true) Project_files.files) as [[self' files']|] eqn:E.
  - exists self', files'. split; [reflexivity|].
    apply (@scan_keeps_the_set_of_files symbols_only Tuple_file.parser writable
             [Project_files.module_path] (new_converter false true) self'
             Project_files.files files' E).
  - vm_compute in E. discriminate E.
Defined.

(** ** The files of a run and their backups *)

Lemma elem_of_concat {A} (x : A) (ls : list (list A)) :
  x ∈ concat ls -> exists l, x ∈ l /\ l ∈ ls.
Proof.
  induction ls as [|l ls IH]; cbn [concat]; intros Hx; [by apply not_elem_of_nil in Hx|].
  apply elem_of_app in Hx as [Hx|Hx].
  - exists l. split; [done|by left].
  - destruct (IH Hx) as (l' & ? & ?). exists l'. split; [done|by right].
Qed.

Lemma filter_none {A} (P : A -> Prop) `{forall x, Decision (P x)} (l : list A) :
  Forall (fun x => ~ P x) l -> filter P l = [].
Proof.
  induction 1 as [|x l Hx Hl IH]; [done|]. by rewrite filter_cons_False.
Qed.

Section FileFacts.
Context `{PathLib}.

Lemma in_excluded_dir_true (py_file excluded : pystr) :
  excluded ∈ EXCLUDED_DIRS -> excluded ∈ path_parts py_file ->
  in_excluded_dir py_file = true.
Proof.
  intros He Hp. unfold in_excluded_dir. apply existsb_exists. exists excluded.
  split; [by apply list_elem_of_In|by apply elem_of_str_in].
Qed.

(** X19.  No file that [get_python_files] yields has one of the excluded
    names among the parts of its path.  The parts of the directory that
    is searched count as well: when the directory itself lies in or below
    a directory with an excluded name, such as [build] or [venv], nothing
    is yielded at all. *)
Theorem excluded_directories_are_skipped (files : gmap pystr pybytes) :
  (forall directories py_file excluded,
     py_file ∈ get_python_files files directories ->
     excluded ∈ EXCLUDED_DIRS -> excluded ∉ path_parts py_file) /\
  (forall directory excluded,
     (forall py_file, py_file ∈ rglob_py files directory ->
                      path_parts directory `prefix_of` path_parts py_file) ->
     excluded ∈ EXCLUDED_DIRS -> excluded ∈ path_parts directory ->
     get_python_files files [directory] = []).
Proof.
  split.
  - intros directories py_file excluded Hin He Hp. unfold get_python_files in Hin.
    apply elem_of_concat in Hin as (l & Hf & Hl).
    apply list_elem_of_fmap in Hl as (directory & -> & _).
    apply list_elem_of_filter in Hf as [Hex _].
    by rewrite (in_excluded_dir_true _ _ He Hp) in Hex.
  - intros directory excluded Hunder He Hp. unfold get_python_files.
    cbn [map concat]. rewrite app_nil_r. apply filter_none.
    apply Forall_forall. intros py_file Hin.
    destruct (Hunder _ Hin) as [rest Hparts].
    rewrite (in_excluded_dir_true _ excluded); [done|done|].
    rewrite Hparts. apply elem_of_app. by left.
Qed.

Section BackupFacts.
Variable source_dirs : list pystr.
Variable stamp : pystr.

Lemma backup_loop_outside (python_files : list pystr) (created : Z)
    (files : gmap pystr pybytes) (out : list backup_message) :
  Forall (fun py_file => relative_to py_file project_root = None) python_files ->
  foldl (backup_step stamp) (created, files, out) python_files
  = (created, files,
     out ++ map (fun py_file => CouldNotBackUp (path_name py_file)) python_files).
Proof.
  intros Hall. revert out. induction Hall as [|py_file rest Hrel Hrest IH]; intros out.
  - cbn. by rewrite app_nil_r.
  - cbn [foldl map]. unfold backup_step at 2. rewrite Hrel. cbn [mbind option_bind].
    rewrite IH. by rewrite <- app_assoc.
Qed.

(** X20.  Backups are made of files below [/home/minds3t/omnipkg] only.
    When none of the files of the run lies there, [create_backups]
    copies nothing and counts nothing: the converter and the file system
    are what they were, and with [backup] set all it does is print a
    warning for each file. *)
Theorem no_backup_outside_the_project_root (self : converter)
    (files : gmap pystr pybytes) :
  Forall (fun py_file => relative_to py_file project_root = None)
    (get_python_files files source_dirs) ->
  create_backups source_dirs stamp self files
  = (self, files,
     if backup self
     then CreatingBackups
          :: map (fun py_file => CouldNotBackUp (path_name py_file))
               (get_python_files files source_dirs)
          ++ (if 0 <? backups_created (cstats self)
              then [CreatedBackups (backups_created (cstats self)) (backup_dir stamp)]
              else [])
     else []).
Proof.
  intros Hall. unfold create_backups. destruct (backup self) eqn:Eb; [|done].
  cbn [negb]. rewrite (backup_loop_outside _ _ _ _ Hall).
  destruct self as [d b [fs fw fm ff fc bc] convs]. cbn in *. by subst b.
Qed.

(** The loop of [create_backups], file by file. *)
Lemma backup_loop_copies (python_files : list pystr) (created created' : Z)
    (files files' : gmap pystr pybytes) (out out' : list backup_message) :
  foldl (backup_step stamp) (created, files, out) python_files = (created', files', out') ->
  created <= created' <= created + Z.of_nat (length python_files) /\
  dom files ⊆ dom files' /\
  (forall path content, files' !! path = Some content ->
                        exists original, files !! original = Some content).
Proof.
  revert created files out.
  induction python_files as [|py_file rest IH]; intros created files out Hf.
  - cbn in Hf. inversion Hf; subst. split; [cbn; lia|]. split; [done|]. eauto.
  - cbn [foldl] in Hf.
    destruct (backup_step stamp (created, files, out) py_file) as [[c1 f1] o1] eqn:E1.
    apply IH in Hf as (Hc & Hdom & Hcopy).
    assert (Hstep : created <= c1 <= created + 1 /\ dom files ⊆ dom f1 /\
              forall path content, f1 !! path = Some content ->
                                   exists original, files !! original = Some content).
    { unfold backup_step in E1.
      destruct (relative_to py_file project_root) as [rel|]; cbn [mbind option_bind] in E1.
      2:{ inversion E1; subst. split; [lia|]. split; [done|]. eauto. }
      unfold copy2 in E1.
      destruct (files !! py_file) as [content|] eqn:Ec; cbn [mbind option_bind] in E1.
      2:{ inversion E1; subst. split; [lia|]. split; [done|]. eauto. }
      destruct (_ || _).
      { inversion E1; subst. split; [lia|]. split; [done|]. eauto. }
      inversion E1; subst. split; [lia|]. split.
      - rewrite dom_insert. set_solver.
      - intros path c Hl. destruct (decide (path = joinpath (backup_dir stamp) rel)) as [->|Hne].
        + rewrite lookup_insert_eq in Hl. inversion Hl; subst. eauto.
        + rewrite lookup_insert_ne in Hl by done. eauto. }
    destruct Hstep as (Hc1 & Hdom1 & Hcopy1).
    split; [cbn [length]; lia|]. split; [set_solver|].
    intros path content Hl. destruct (Hcopy _ _ Hl) as (o1' & Ho1). eauto.
Qed.

(** X21.  [create_backups] only adds copies: every file is still there
    afterwards, whatever content a file has afterwards some file had
    before, the counter [backups_created] grows by the number of copies,
    at most one for a file of the run, and nothing else of the converter
    changes. *)
Theorem backups_only_add_copies (self self' : converter)
    (files files' : gmap pystr pybytes) (out : list backup_message) :
  create_backups source_dirs stamp self files = (self', files', out) ->
  dom files ⊆ dom files' /\
  (forall path content, files' !! path = Some content ->
                        exists original, files !! original = Some content) /\
  0 <= backups_created (cstats self') - backups_created (cstats self)
    <= Z.of_nat (length (get_python_files files source_dirs)) /\
  dry_run self' = dry_run self /\ backup self' = backup self /\
  all_conversions self' = all_conversions self /\
  cstats self'
  = Stats (files_scanned (cstats self)) (files_with_fstrings (cstats self))
      (files_modified (cstats self)) (fstrings_found (cstats self))
      (fstrings_converted (cstats self)) (backups_created (cstats self')).
Proof.
  unfold create_backups. destruct (backup self) eqn:Eb; cbn [negb].
  - destruct (foldl _ _ _) as [[created f1] o1] eqn:Ef. intros Hc. inversion Hc; subst.
    apply backup_loop_copies in Ef as (Hcount & Hdom & Hcopy).
    split; [done|]. split; [done|]. cbn. split; [lia|done].
  - intros Hc. inversion Hc; subst. split; [done|]. split; [eauto|].
    split; [lia|]. do 3 (split; [done|]). by destruct (cstats self').
Qed.
End BackupFacts.
End FileFacts.

Lemma excluded_directories_are_skipped_witness :
  @get_python_files posix_paths Project_files.build_files [Project_files.build_dir] = [].
Proof.
  apply (proj2 (@excluded_directories_are_skipped posix_paths Project_files.build_files)
           Project_files.build_dir (py "build")).
  - intros py_file Hin.
    assert (E : @rglob_py posix_paths Project_files.build_files Project_files.build_dir
                = [py "/srv/build/app/pkg/messages.py"]) by (vm_compute; reflexivity).
    rewrite E in Hin. apply list_elem_of_singleton in Hin as ->.
    exists [py "messages.py"]. vm_compute. reflexivity.
  - unfold EXCLUDED_DIRS. set_solver.
  - assert (E : @path_parts posix_paths Project_files.build_dir
                = [py "/"; py "srv"; py "build"; py "app"; py "pkg"])
      by (vm_compute; reflexivity).
    rewrite E. set_solver.
Defined.

Lemma no_backup_outside_the_project_root_witness :
  @create_backups posix_paths Project_files.source_dirs Project_files.stamp
    (new_converter false true) Project_files.files
  = (new_converter false true, Project_files.files,
     [CreatingBackups; CouldNotBackUp (py "messages.py")]).
Proof.
  rewrite (@no_backup_outside_the_project_root posix_paths).
  - vm_compute. reflexivity.
  - assert (E : @get_python_files posix_paths Project_files.files Project_files.source_dirs
                = [Project_files.module_path]) by (vm_compute; reflexivity).
    rewrite E. constructor; [vm_compute; reflexivity|constructor].
Defined.

Lemma backups_only_add_copies_witness :
  exists self' files' out,
    @create_backups posix_paths Home_files.source_dirs Project_files.stamp
      (new_converter false true) Home_files.files = (self', files', out) /\
    dom Home_files.files ⊆ dom files' /\
    (forall path content, files' !! path = Some content ->
                          exists original, Home_files.files !! original = Some content) /\
    0 <= backups_created (cstats self') - 0
      <= Z.of_nat (length (@get_python_files posix_paths Home_files.files
                             Home_files.source_dirs)) /\
    dry_run self' = false /\ backup self' = true /\ all_conversions self' = [] /\
    cstats self' = Stats 0 0 0 0 0 (backups_created (cstats self')).
Proof.
  destruct (@create_backups posix_paths Home_files.source_dirs Project_files.stamp
              (new_converter false true) Home_files.files) as [[self' files'] out] eqn:E.
  exists self', files', out. split; [reflexivity|].
  apply (@backups_only_add_copies posix_paths Home_files.source_dirs Project_files.stamp
           (new_converter false true) self' Home_files.files files' out E).
Defined.

(** ** The report *)

Lemma add_to_group_keys (k : pystr) (conv : ConversionResult)
    (groups : list (pystr * list ConversionResult)) :
  fst <$> add_to_group k conv groups
  = if bool_decide (k ∈ fst <$> groups) then fst <$> groups else (fst <$> groups) ++ [k].
Proof.
  induction groups as [|[k' convs] groups IH]; [done|].
  cbn [add_to_group]. unfold str_eqb. destruct (bool_decide (k' = k)) eqn:Ek.
  - apply bool_decide_eq_true in Ek as ->. cbn [fmap list_fmap fst].
    rewrite bool_decide_eq_true_2; [done|]. by left.
  - apply bool_decide_eq_false in Ek. cbn [fmap list_fmap fst]. rewrite IH.
    destruct (bool_decide (k ∈ fst <$> groups)) eqn:Ein.
    + apply bool_decide_eq_true in Ein. rewrite bool_decide_eq_true_2; [done|]. by right.
    + apply bool_decide_eq_false in Ein. rewrite bool_decide_eq_false_2; [done|].
      intros [?|?]%elem_of_cons; [by apply Ek|by apply Ein].
Qed.

Lemma add_to_group_content (k : pystr) (conv : ConversionResult)
    (groups : list (pystr * list ConversionResult)) :
  concat (snd <$> add_to_group k conv groups) ≡ₚ concat (snd <$> groups) ++ [conv].
Proof.
  induction groups as [|[k' convs] groups IH]; [done|].
  cbn [add_to_group]. destruct (str_eqb k' k); cbn [fmap list_fmap snd concat].
  - rewrite <- !app_assoc. f_equiv. apply Permutation_app_comm.
  - fold (snd <$> add_to_group k conv groups). rewrite IH. by rewrite app_assoc.
Qed.

Lemma add_to_group_nonempty (k : pystr) (conv : ConversionResult)
    (groups : list (pystr * list ConversionResult)) :
  Forall (fun g => g.2 <> []) groups ->
  Forall (fun g => g.2 <> []) (add_to_group k conv groups).
Proof.
  induction 1 as [|[k' convs] groups Hg Hgs IH]; cbn [add_to_group].
  - by repeat constructor.
  - destruct (str_eqb k' k); constructor; try done. cbn. by destruct convs.
Qed.

Section ReportFacts.
Context `{PathLib}.
Variable source_dirs : list pystr.

Lemma group_conversions_inv (convs : list ConversionResult) (file_key : option pystr)
    (groups groups' : list (pystr * list ConversionResult)) :
  group_conversions source_dirs convs file_key groups = Some groups' ->
  NoDup (fst <$> groups) -> Forall (fun g => g.2 <> []) groups ->
  concat (snd <$> groups') ≡ₚ concat (snd <$> groups) ++ convs /\
  NoDup (fst <$> groups') /\ Forall (fun g => g.2 <> []) groups'.
Proof.
  revert file_key groups.
  induction convs as [|conv rest IH]; intros file_key groups Hg Hnd Hne.
  - cbn in Hg. inversion Hg; subst. by rewrite app_nil_r.
  - cbn [group_conversions] in Hg.
    destruct (match first_relative source_dirs (file_path conv) with
              | Some k => Some k | None => file_key end) as [k|]; [|done].
    apply IH in Hg as (Hperm & Hnd' & Hne').
    + split; [|done]. rewrite Hperm, add_to_group_content. by rewrite <- app_assoc.
    + rewrite add_to_group_keys. destruct (bool_decide _) eqn:Ein; [done|].
      apply bool_decide_eq_false in Ein. apply NoDup_app. split; [done|].
      split; [|apply NoDup_singleton].
      intros x Hx Hk. apply list_elem_of_singleton in Hk as ->. by apply Ein.
    + by apply add_to_group_nonempty.
Qed.

Lemma group_conversions_bound (convs : list ConversionResult) (k : pystr)
    (groups : list (pystr * list ConversionResult)) :
  is_Some (group_conversions source_dirs convs (Some k) groups).
Proof.
  revert k groups. induction convs as [|conv rest IH]; intros k groups; [by eexists|].
  cbn [group_conversions]. destruct (first_relative _ _); apply IH.
Qed.

(** X22.  The report lists every conversion once: the groups of
    [generate_report] have pairwise different keys, none is empty, and
    together they hold exactly the entries of [all_conversions].  The
    grouping fails, on an unbound [file_key], exactly when the first
    conversion is of a file below none of the source directories. *)
Theorem report_lists_every_conversion (self : converter) :
  (forall groups, by_file source_dirs self = Some groups ->
     concat (snd <$> groups) ≡ₚ all_conversions self /\
     NoDup (fst <$> groups) /\ Forall (fun g => g.2 <> []) groups) /\
  (by_file source_dirs self = None <->
   exists conv rest, all_conversions self = conv :: rest /\
                     first_relative source_dirs (file_path conv) = None).
Proof.
  unfold by_file. split.
  - intros groups Hg.
    apply group_conversions_inv in Hg; [done|constructor|constructor].
  - destruct (all_conversions self) as [|conv rest]; cbn [group_conversions].
    + split; [done|]. by intros (? & ? & ? & _).
    + destruct (first_relative source_dirs (file_path conv)) as [k|] eqn:Ek.
      * split; [|by intros (? & ? & [= <- <-] & ?); congruence].
        intros Hnone. destruct (group_conversions_bound rest k
                                  (add_to_group k conv [])) as [g Hg]. congruence.
      * split; [|done]. intros _. by exists conv, rest.
Qed.
End ReportFacts.

Lemma report_lists_every_conversion_witness :
  concat (snd <$> Report_input.groups) ≡ₚ all_conversions Report_input.self /\
  NoDup (fst <$> Report_input.groups) /\
  Forall (fun g => g.2 <> []) Report_input.groups.
Proof.
  apply (proj1 (@report_lists_every_conversion posix_paths Project_files.source_dirs
                  Report_input.self)).
  vm_compute. reflexivity.
Defined.

(** ** The confidence heuristic *)

Lemma startswith_nil (s : pystr) : startswith s [] = true.
Proof. by destruct s. Qed.

Lemma startswith_app_r (s t p : pystr) :
  startswith s p = true -> startswith (s ++ t) p = true.
Proof.
  revert s. induction p as [|a p IH]; intros s; [intros _; apply startswith_nil|].
  destruct s as [|b s]; [done|]. cbn [startswith app].
  intros [? ?]%andb_true_iff. apply andb_true_iff. split; [done|by apply IH].
Qed.

Lemma contains_app_r (s t p : pystr) :
  contains s p = true -> contains (s ++ t) p = true.
Proof.
  induction s as [|c s IH].
  - cbn [contains app]. rewrite orb_false_r. intros Hp.
    destruct p; [|done]. destruct t; cbn [contains]; by rewrite startswith_nil.
  - cbn [contains app]. intros [Hs|Hc]%orb_true_iff; apply orb_true_iff.
    + left. by apply (startswith_app_r (c :: s)).
    + right. by apply IH.
Qed.

Lemma contains_app_l (s t p : pystr) :
  contains t p = true -> contains (s ++ t) p = true.
Proof.
  intros Ht. induction s as [|c s IH]; [done|].
  cbn [contains app]. apply orb_true_iff. by right.
Qed.

Lemma existsb_impl {A} (f g : A -> bool) (l : list A) :
  (forall x, f x = true -> g x = true) -> existsb f l = true -> existsb g l = true.
Proof.
  intros Hfg. rewrite !existsb_exists. intros (x & ? & ?). exists x. split; [done|].
  by apply Hfg.
Qed.

Section ConfidenceFacts.
Context `{UnicodeData}.

Lemma lower_app (s t : pystr) : lower (s ++ t) = lower s ++ lower t.
Proof. unfold lower. by rewrite map_app, concat_app. Qed.

Lemma assess_confidence_grows (content content' context : pystr) :
  (forall p, contains (lower content) p = true -> contains (lower content') p = true) ->
  (length content <= length content')%nat ->
  confidence_rank (assess_confidence content context)
  <= confidence_rank (assess_confidence content' context).
Proof.
  intros Hsub Hlen. unfold assess_confidence.
  destruct (existsb (contains (lower context)) _); [done|].
  destruct (existsb (contains (lower content)) _) eqn:E.
  { by rewrite (existsb_impl _ _ _ Hsub E). }
  destruct (existsb (contains (lower content')) _);
    destruct (20 <? length content)%nat eqn:E20;
    destruct (20 <? length content')%nat eqn:E20'; try (by vm_compute).
  apply Nat.ltb_lt in E20. apply Nat.ltb_ge in E20'. lia.
Qed.

(** X23.  More text never lowers the confidence: with text put after or
    before a string, on the same line, the level [_assess_confidence]
    gives is the same or a higher one, in the order low, medium, high. *)
Theorem longer_content_is_not_less_confident (content more context : pystr) :
  confidence_rank (assess_confidence content context)
  <= confidence_rank (assess_confidence (content ++ more) context) /\
  confidence_rank (assess_confidence content context)
  <= confidence_rank (assess_confidence (more ++ content) context).
Proof.
  split; apply assess_confidence_grows; rewrite ?lower_app, ?length_app; try lia.
  - intros p. apply contains_app_r.
  - intros p. apply contains_app_l.
Qed.
End ConfidenceFacts.
